(** * CloudNotifiarr: Web Push encryption, VAPID signing and fan-out delivery

    A shallow embedding of [src/encryption.ts] (base64url codec, VAPID JWT,
    RFC 8291/8188 payload encryption) and of [src/push.ts] (single delivery,
    fan-out over all subscribers, delivery to one endpoint), together with
    the legacy sequential fan-out; of the statements of [src/db.ts] on the
    table of subscriptions; of the webhook formatters and the routes of
    [src/router.ts], beside the legacy worker of [src/index.ts]; and of the
    reading of the public key in [src/frontend.ts] and its writing in
    [scripts/generate-keys.js].

    Conventions.
    - A JavaScript text string is a Rocq [string] holding its UTF-8 bytes,
      so [TextEncoder.encode] is the list of the string's bytes.  The needles
      the code searches for are ASCII, and an ASCII byte never occurs inside
      a multi-byte UTF-8 sequence, so [includes] and [startsWith] agree on
      both representations.
    - A "binary string" (the result of [atob], the argument that
      [arrayBufferToBase64Url] builds with [String.fromCharCode]) is the
      list of its code units, each of them a byte.
    - A rejected promise or a thrown exception is [Throw e]; [await] of a
      rejected promise rethrows, which is the bind of the error monad.
    - The platform (Web Crypto, the clock, the random generator, [fetch],
      the D1 database) is not part of the repository: it is a record of
      oracles, and what the standards promise about it is a record of laws.
    - An [async] function that starts concurrent work is the set of its
      runs, a run being the events in the order they happened and the
      outcome; a table is the list of its rows, and a statement a function
      on tables. *)

From Stdlib Require Import ZArith NArith List String Ascii Lia Bool.
From Stdlib.Strings Require Import Byte.
From stdpp Require Import base tactics option list gmap strings sets pretty.

Import ListNotations.
Local Open Scope string_scope.
Local Open Scope Z_scope.
Local Open Scope list_scope.

(** ** Exceptions and results *)

(** A thrown [Error] object: its [name] and its [message]. *)
Record Exception := {
  exn_name : string;
  exn_message : string;
}.

(** A [DOMException] of the platform, by its [name].  The wording of its
    message is the runtime's own and differs from one runtime to the next;
    it is left empty, so the properties speak of such an exception by its
    name, and where the code shows [error.message || String(error)] for
    one, a runtime shows its wording where this shows the name. *)
Definition DOMException (name : string) : Exception :=
  {| exn_name := name; exn_message := "" |}.
Definition TypeError (message : string) : Exception :=
  {| exn_name := "TypeError"; exn_message := message |}.
Definition RangeError (message : string) : Exception :=
  {| exn_name := "RangeError"; exn_message := message |}.
Definition Error (message : string) : Exception :=
  {| exn_name := "Error"; exn_message := message |}.

(** [String(error)], as [Error.prototype.toString] builds it. *)
Definition Exception_toString (e : Exception) : string :=
  if String.eqb (exn_message e) "" then exn_name e
  else if String.eqb (exn_name e) "" then exn_message e
  else String.append (exn_name e) (String.append ": " (exn_message e)).

Inductive Result (A : Type) : Type :=
| Ok (a : A)
| Throw (e : Exception).

Arguments Ok {A} a.
Arguments Throw {A} e.

Definition is_Ok {A} (r : Result A) : bool :=
  match r with Ok _ => true | Throw _ => false end.

#[global] Instance result_ret : MRet Result := fun A a => Ok a.

#[global] Instance result_fmap : FMap Result := fun A B f r =>
  match r with
  | Ok a => Ok (f a)
  | Throw e => Throw e
  end.

#[global] Instance result_bind : MBind Result := fun A B k r =>
  match r with
  | Ok a => k a
  | Throw e => Throw e
  end.

(** ** Bytes *)

Definition byte_of_Z (z : Z) : byte :=
  match Byte.of_N (Z.to_N (z mod 256)) with
  | Some b => b
  | None => x00
  end.

Definition Z_of_byte (b : byte) : Z := Z.of_N (Byte.to_N b).

#[global] Instance byte_eq_decision : EqDecision byte := Byte.byte_eq_dec.

(** [new TextEncoder().encode(s)]. *)
Definition TextEncoder_encode (s : string) : list byte := list_byte_of_string s.

(** [new Uint8Array(n)]: [n] zero bytes. *)
Definition Uint8Array_new (n : nat) : list byte := repeat x00 n.

(** [dst.set(src, offset)]: overwrites [dst] from [offset] on; a source that
    does not fit raises [RangeError]. *)
Definition Uint8Array_set (dst src : list byte) (offset : nat) : Result (list byte) :=
  if (offset + length src <=? length dst)%nat
  then Ok (firstn offset dst ++ src ++ skipn (offset + length src) dst)
  else Throw (RangeError "offset is out of bounds").

(** ** Codec: base64 and base64url ([src/encryption.ts], bottom part) *)

Module Codec.

(** *** The platform's [btoa] and [atob]

    Both are the browser built-ins, modelled after the WHATWG "forgiving
    base64" algorithms that define them. *)

Definition b64_alphabet : list ascii :=
  list_ascii_of_string
    "ABCDEFGHIJKLMNOPQRSTUVWXYZabcdefghijklmnopqrstuvwxyz0123456789+/".

Definition b64_char (v : Z) : ascii :=
  nth (Z.to_nat (Z.land v 63)) b64_alphabet "="%char.

Definition b64_digit (c : ascii) : option Z :=
  let n := Z.of_nat (nat_of_ascii c) in
  if (65 <=? n) && (n <=? 90) then Some (n - 65)
  else if (97 <=? n) && (n <=? 122) then Some (n - 71)
  else if (48 <=? n) && (n <=? 57) then Some (n + 4)
  else if n =? 43 then Some 62
  else if n =? 47 then Some 63
  else None.

(** Base64 of a sequence of code units below 256, padded with [=]. *)
Fixpoint btoa_units (l : list byte) : list ascii :=
  match l with
  | [] => []
  | [a] =>
      let n := Z.shiftl (Z_of_byte a) 16 in
      [b64_char (Z.shiftr n 18); b64_char (Z.shiftr n 12); "="%char; "="%char]
  | [a; b] =>
      let n := Z.lor (Z.shiftl (Z_of_byte a) 16) (Z.shiftl (Z_of_byte b) 8) in
      [b64_char (Z.shiftr n 18); b64_char (Z.shiftr n 12);
       b64_char (Z.shiftr n 6); "="%char]
  | a :: b :: c :: rest =>
      let n := Z.lor (Z.lor (Z.shiftl (Z_of_byte a) 16) (Z.shiftl (Z_of_byte b) 8))
                     (Z_of_byte c) in
      b64_char (Z.shiftr n 18) :: b64_char (Z.shiftr n 12) ::
      b64_char (Z.shiftr n 6) :: b64_char n :: btoa_units rest
  end.

(** The code units of a text string when every code point is below 256
    (U+0080..U+00FF are the two-byte UTF-8 sequences led by C2 and C3);
    [None] when some code point is larger, which is when [btoa] throws. *)
Fixpoint latin1_units (l : list byte) : option (list byte) :=
  match l with
  | [] => Some []
  | b :: rest =>
      let n := Z_of_byte b in
      if n <? 128 then cons b <$> latin1_units rest
      else match rest with
           | c :: rest' =>
               let m := Z_of_byte c in
               if ((n =? 194) || (n =? 195)) && (128 <=? m) && (m <? 192)
               then cons (byte_of_Z (Z.lor (Z.shiftl (Z.land n 3) 6) (Z.land m 63)))
                      <$> latin1_units rest'
               else None
           | [] => None
           end
  end.

Definition InvalidCharacterError : Exception := DOMException "InvalidCharacterError".

Definition btoa (s : string) : Result string :=
  match latin1_units (list_byte_of_string s) with
  | Some units => Ok (string_of_list_ascii (btoa_units units))
  | None => Throw InvalidCharacterError
  end.

Definition is_ascii_whitespace (c : ascii) : bool :=
  let n := nat_of_ascii c in
  ((n =? 9) || (n =? 10) || (n =? 12) || (n =? 13) || (n =? 32))%nat.

Definition strip_padding (l : list ascii) : list ascii :=
  if (length l mod 4 =? 0)%nat then
    match rev l with
    | "="%char :: "="%char :: r => rev r
    | "="%char :: r => rev r
    | _ => l
    end
  else l.

Fixpoint b64_digits (l : list ascii) : option (list Z) :=
  match l with
  | [] => Some []
  | c :: rest =>
      match b64_digit c with
      | Some v => cons v <$> b64_digits rest
      | None => None
      end
  end.

Fixpoint b64_decode_groups (l : list Z) : list byte :=
  match l with
  | a :: b :: c :: d :: rest =>
      let n := Z.lor (Z.lor (Z.shiftl a 18) (Z.shiftl b 12)) (Z.lor (Z.shiftl c 6) d) in
      byte_of_Z (Z.shiftr n 16) :: byte_of_Z (Z.shiftr n 8) :: byte_of_Z n ::
      b64_decode_groups rest
  | [a; b; c] =>
      let n := Z.lor (Z.lor (Z.shiftl a 18) (Z.shiftl b 12)) (Z.shiftl c 6) in
      [byte_of_Z (Z.shiftr n 16); byte_of_Z (Z.shiftr n 8)]
  | [a; b] =>
      let n := Z.lor (Z.shiftl a 18) (Z.shiftl b 12) in
      [byte_of_Z (Z.shiftr n 16)]
  | _ => []
  end.

(** [atob]: the code units of the decoded binary string. *)
Definition atob (s : string) : Result (list byte) :=
  let data := strip_padding
                (filter (fun c => is_ascii_whitespace c = false) (list_ascii_of_string s)) in
  if (length data mod 4 =? 1)%nat then Throw InvalidCharacterError
  else match b64_digits data with
       | Some ds => Ok (b64_decode_groups ds)
       | None => Throw InvalidCharacterError
       end.

(** *** The repository's helpers *)

Fixpoint replace_all (from to : ascii) (s : string) : string :=
  match s with
  | EmptyString => EmptyString
  | String c rest =>
      String (if Ascii.eqb c from then to else c) (replace_all from to rest)
  end.

Fixpoint remove_all (c0 : ascii) (s : string) : string :=
  match s with
  | EmptyString => EmptyString
  | String c rest =>
      if Ascii.eqb c c0 then remove_all c0 rest else String c (remove_all c0 rest)
  end.

Fixpoint string_repeat (s : string) (n : nat) : string :=
  match n with
  | O => EmptyString
  | S n' => String.append s (string_repeat s n')
  end.

(** [btoa(str).replace(/\+/g, "-").replace(/\//g, "_").replace(/=/g, "")] *)
Definition base64UrlEncode (str : string) : Result string :=
  b ← btoa str;
  mret (remove_all "="%char (replace_all "/"%char "_"%char (replace_all "+"%char "-"%char b))).

(** Pads to a multiple of four and maps the URL alphabet back. *)
Definition base64UrlToBase64 (base64Url : string) : string :=
  let padding := string_repeat "=" ((4 - (String.length base64Url mod 4)) mod 4)%nat in
  String.append
    (replace_all "_"%char "/"%char (replace_all "-"%char "+"%char base64Url))
    padding.

(** The loop appends [String.fromCharCode(bytes[i])] byte by byte, so the
    binary string's code units are the buffer's bytes. *)
Definition arrayBufferToBase64Url (buffer : list byte) : string :=
  remove_all "="%char
    (replace_all "/"%char "_"%char
       (replace_all "+"%char "-"%char (string_of_list_ascii (btoa_units buffer)))).

(** [bytes[i] = binary.charCodeAt(i)] copies the code units of [atob]'s
    result. *)
Definition base64UrlToArrayBuffer (base64Url : string) : Result (list byte) :=
  atob (base64UrlToBase64 base64Url).

End Codec.

(** ** Types ([src/types/push.ts]) *)

Module Types.

Record PushSubscriptionKeys := {
  p256dh : string;
  auth : string;
}.

Record PushSubscription := {
  endpoint : string;
  expirationTime : option Z;
  keys : PushSubscriptionKeys;
}.

End Types.

Import Types.

(** ** The platform the worker runs on *)

(** Web Crypto, the random generator and the clock.  A call that draws
    randomness or reads the clock is answered by an oracle indexed by the
    number of earlier calls of its kind: two successive calls are two
    different questions.  The other primitives are functions of their
    arguments.  Key handles ([CryptoKey]) are abstract. *)
Record Platform := {
  EcPrivateKey : Type;
  EcPublicKey : Type;
  HkdfKey : Type;
  AesGcmKey : Type;
  EcdsaPrivateKey : Type;
  (** [crypto.subtle.generateKey({name: "ECDH", namedCurve: "P-256"}, ..)] *)
  generateKey_ECDH : nat -> Result (EcPrivateKey * EcPublicKey);
  (** [crypto.getRandomValues(new Uint8Array(n))] *)
  getRandomValues : nat -> nat -> list byte;
  (** [Date.now()], in milliseconds *)
  Date_now : nat -> Z;
  (** [importKey("raw", bytes, {name: "ECDH", namedCurve: "P-256"}, ..)] *)
  importKey_raw_ECDH : list byte -> Result EcPublicKey;
  (** [exportKey("raw", publicKey)] *)
  exportKey_raw : EcPublicKey -> Result (list byte);
  (** [deriveBits({name: "ECDH", public}, privateKey, bits)] *)
  deriveBits_ECDH : EcPublicKey -> EcPrivateKey -> nat -> Result (list byte);
  (** [importKey("raw", ikm, {name: "HKDF"}, ..)] *)
  importKey_raw_HKDF : list byte -> Result HkdfKey;
  (** [deriveBits({name: "HKDF", hash: "SHA-256", salt, info}, key, bits)] *)
  deriveBits_HKDF_SHA256 : list byte -> list byte -> HkdfKey -> nat -> Result (list byte);
  (** [importKey("raw", bytes, {name: "AES-GCM"}, ..)] *)
  importKey_raw_AES_GCM : list byte -> Result AesGcmKey;
  (** [encrypt({name: "AES-GCM", iv, additionalData}, key, data)], with the
      default 128-bit tag appended to the ciphertext *)
  encrypt_AES_GCM : list byte -> list byte -> AesGcmKey -> list byte -> Result (list byte);
  (** [decrypt({name: "AES-GCM", iv, additionalData}, key, data)] *)
  decrypt_AES_GCM : list byte -> list byte -> AesGcmKey -> list byte -> Result (list byte);
  (** [importKey("pkcs8", bytes, {name: "ECDSA", namedCurve: "P-256"}, ..)] *)
  importKey_pkcs8_ECDSA : list byte -> Result EcdsaPrivateKey;
  (** [sign({name: "ECDSA", hash: "SHA-256"}, key, data)]; ECDSA draws a
      nonce, so the answer depends on the call *)
  sign_ECDSA_SHA256 : nat -> EcdsaPrivateKey -> list byte -> Result (list byte);
}.

(** How many times each oracle has been asked so far. *)
Record World := {
  keygen_calls : nat;
  random_calls : nat;
  clock_reads : nat;
  sign_calls : nat;
}.

Definition world0 : World :=
  {| keygen_calls := 0; random_calls := 0; clock_reads := 0; sign_calls := 0 |}.

(** An [async] function of the worker: it runs in a world, resolves or
    rejects, and leaves a world. *)
Definition M (A : Type) : Type := World -> Result A * World.

#[global] Instance M_ret : MRet M := fun A a w => (Ok a, w).

#[global] Instance M_bind : MBind M := fun A B k m w =>
  match m w with
  | (Ok a, w') => k a w'
  | (Throw e, w') => (Throw e, w')
  end.

(** A synchronous call, or the [await] of a promise that touches no oracle. *)
Definition lift {A} (r : Result A) : M A := fun w => (r, w).

(** ** Encryption and signing ([src/encryption.ts]) *)

Module Encryption.

Import Codec.

(** [s.includes(needle)] and [s.startsWith(needle)]. *)
Definition startsWith (s needle : string) : bool := String.prefix needle s.

Fixpoint includes (s needle : string) : bool :=
  String.prefix needle s ||
  match s with
  | EmptyString => false
  | String _ rest => includes rest needle
  end.

(** *** JSON text of the two objects the signer serialises *)

Definition dquote : string := String "034"%char EmptyString.

Definition hex_digit (n : Z) : ascii :=
  nth (Z.to_nat n) (list_ascii_of_string "0123456789abcdef") "0"%char.

(** [JSON.stringify] of a string: quotes, backslashes and control characters
    are escaped, everything else is copied. *)
Fixpoint JSON_escape (s : string) : string :=
  match s with
  | EmptyString => EmptyString
  | String c rest =>
      let n := Z.of_nat (nat_of_ascii c) in
      let esc :=
        if n =? 34 then String "\"%char dquote
        else if n =? 92 then "\\"
        else if n =? 8 then "\b"
        else if n =? 12 then "\f"
        else if n =? 10 then "\n"
        else if n =? 13 then "\r"
        else if n =? 9 then "\t"
        else if n <? 32 then
          String.append "\u00" (String (hex_digit (n / 16)) (String (hex_digit (n mod 16)) EmptyString))
        else String c EmptyString in
      String.append esc (JSON_escape rest)
  end.

Definition JSON_string (s : string) : string :=
  String.append dquote (String.append (JSON_escape s) dquote).

Record JwtHeader := { alg : string; typ : string }.

Record JwtPayload := { aud : string; sub : string; exp : Z }.

Definition JSON_stringify_header (h : JwtHeader) : string :=
  String.concat "" ["{"; JSON_string "alg"; ":"; JSON_string (alg h); ",";
                    JSON_string "typ"; ":"; JSON_string (typ h); "}"].

Definition JSON_stringify_payload (p : JwtPayload) : string :=
  String.concat "" ["{"; JSON_string "aud"; ":"; JSON_string (aud p); ",";
                    JSON_string "sub"; ":"; JSON_string (sub p); ",";
                    JSON_string "exp"; ":"; pretty (exp p); "}"].

Section WithPlatform.

Context (P : Platform).

(** *** Calls that ask an oracle *)

Definition generateKey : M (EcPrivateKey P * EcPublicKey P) := fun w =>
  (generateKey_ECDH P (keygen_calls w),
   {| keygen_calls := S (keygen_calls w); random_calls := random_calls w;
      clock_reads := clock_reads w; sign_calls := sign_calls w |}).

Definition randomBytes (n : nat) : M (list byte) := fun w =>
  (Ok (getRandomValues P (random_calls w) n),
   {| keygen_calls := keygen_calls w; random_calls := S (random_calls w);
      clock_reads := clock_reads w; sign_calls := sign_calls w |}).

Definition now : M Z := fun w =>
  (Ok (Date_now P (clock_reads w)),
   {| keygen_calls := keygen_calls w; random_calls := random_calls w;
      clock_reads := S (clock_reads w); sign_calls := sign_calls w |}).

Definition sign (key : EcdsaPrivateKey P) (data : list byte) : M (list byte) := fun w =>
  (sign_ECDSA_SHA256 P (sign_calls w) key data,
   {| keygen_calls := keygen_calls w; random_calls := random_calls w;
      clock_reads := clock_reads w; sign_calls := S (sign_calls w) |}).

(** *** [createVapidJwt] *)

(** The subject with its [mailto:] prefix ensured (lines 217-225). *)
Definition finalSubject (subject : string) : string :=
  if includes subject "@"
     && negb (startsWith subject "mailto:")
     && negb (startsWith subject "https://")
  then String.append "mailto:" subject
  else subject.

Definition vapidHeader : JwtHeader := {| alg := "ES256"; typ := "JWT" |}.

Definition vapidPayload (audience subject : string) (now_ms : Z) : JwtPayload :=
  let now := now_ms / 1000 in
  let expiration := now + 86400 in
  {| aud := audience; sub := finalSubject subject; exp := expiration |}.

Definition createVapidJwt (audience subject publicKey : string)
    (privateKey : EcdsaPrivateKey P) : M string :=
  now_ms ← now;
  let payload := vapidPayload audience subject now_ms in
  encodedHeader ← lift (base64UrlEncode (JSON_stringify_header vapidHeader));
  encodedPayload ← lift (base64UrlEncode (JSON_stringify_payload payload));
  let token := String.concat "" [encodedHeader; "."; encodedPayload] in
  signature ← sign privateKey (TextEncoder_encode token);
  mret (String.concat "" [token; "."; arrayBufferToBase64Url signature]).

(** *** [hkdf] *)

Definition hkdf (salt ikm info : list byte) (length : nat) : M (list byte) :=
  key ← lift (importKey_raw_HKDF P ikm);
  lift (deriveBits_HKDF_SHA256 P salt info key (length * 8)).

(** What [hkdf] resolves or rejects with: it asks no oracle. *)
Definition hkdf_result (salt ikm info : list byte) (length : nat) : Result (list byte) :=
  key ← importKey_raw_HKDF P ikm;
  deriveBits_HKDF_SHA256 P salt info key (length * 8).

(** *** [encryptPayload] *)

Definition NUL : string := String "000"%char EmptyString.

Definition infoPrefix : list byte := TextEncoder_encode (String.append "WebPush: info" NUL).
Definition cekInfo : list byte :=
  TextEncoder_encode (String.append "Content-Encoding: aes128gcm" NUL).
Definition nonceInfo : list byte :=
  TextEncoder_encode (String.append "Content-Encoding: nonce" NUL).

(** The record size field, 4096 big-endian. *)
Definition rs : list byte := [x00; x00; x10; x00].

Definition encryptPayload (plaintext : string) (subscription : PushSubscription)
  : M (list byte) :=
  (* 1. ephemeral key pair *)
  ecdhPair ← generateKey;
  let '(ephemeralPrivate, ephemeralPublic) := ecdhPair in
  (* 2. ECDH shared secret *)
  recipientPublicKey ← lift (base64UrlToArrayBuffer (p256dh (keys subscription)));
  recipientKey ← lift (importKey_raw_ECDH P recipientPublicKey);
  sharedSecret ← lift (deriveBits_ECDH P recipientKey ephemeralPrivate 256);
  (* 3. input keying material *)
  auth ← lift (base64UrlToArrayBuffer (auth (keys subscription)));
  ephemeralPublicBytes ← lift (exportKey_raw P ephemeralPublic);
  let recipientPublicBytes := recipientPublicKey in
  let webPushInfo :=
    Uint8Array_new (length infoPrefix + length recipientPublicBytes
                    + length ephemeralPublicBytes) in
  webPushInfo ← lift (Uint8Array_set webPushInfo infoPrefix 0);
  webPushInfo ← lift (Uint8Array_set webPushInfo recipientPublicBytes (length infoPrefix));
  webPushInfo ← lift (Uint8Array_set webPushInfo ephemeralPublicBytes
                        (length infoPrefix + length recipientPublicBytes));
  ikm ← hkdf auth sharedSecret webPushInfo 32;
  (* 4. content-encryption key and nonce *)
  salt ← randomBytes 16;
  cekRaw ← hkdf salt ikm cekInfo 16;
  nonce ← hkdf salt ikm nonceInfo 12;
  (* 5. encrypt *)
  cek ← lift (importKey_raw_AES_GCM P cekRaw);
  let plaintextBytes := TextEncoder_encode plaintext in
  let padding := [x02] in
  let input := Uint8Array_new (length plaintextBytes + length padding) in
  input ← lift (Uint8Array_set input plaintextBytes 0);
  input ← lift (Uint8Array_set input padding (length plaintextBytes));
  encrypted ← lift (encrypt_AES_GCM P nonce [] cek input);
  (* 6. header and frame *)
  let idlen := [byte_of_Z (Z.of_nat (length ephemeralPublicBytes))] in
  let headerLen := (16 + 4 + 1 + length ephemeralPublicBytes)%nat in
  let result := Uint8Array_new (headerLen + length encrypted) in
  let offset := 0%nat in
  result ← lift (Uint8Array_set result salt offset);
  let offset := (offset + 16)%nat in
  result ← lift (Uint8Array_set result rs offset);
  let offset := (offset + 4)%nat in
  result ← lift (Uint8Array_set result idlen offset);
  let offset := (offset + 1)%nat in
  result ← lift (Uint8Array_set result ephemeralPublicBytes offset);
  let offset := (offset + length ephemeralPublicBytes)%nat in
  result ← lift (Uint8Array_set result encrypted offset);
  mret result.

(** The values a successful run of [encryptPayload] computes on its way,
    step by step as the function body orders them; [steps_frame] is what it
    returns.  Used to state what a returned frame is made of. *)
Inductive encryption_steps (plaintext : string) (subscription : PushSubscription)
    (w : World) (frame : list byte) : Prop :=
| encryption_steps_intro
    (ephemeralPrivate : EcPrivateKey P) (ephemeralPublic : EcPublicKey P)
    (recipientPublicKey : list byte) (recipientKey : EcPublicKey P)
    (sharedSecret authSecret ephemeralPublicBytes ikm cekRaw nonce : list byte)
    (cek : AesGcmKey P) (encrypted : list byte)
    (steps_generateKey :
       generateKey_ECDH P (keygen_calls w) = Ok (ephemeralPrivate, ephemeralPublic))
    (steps_p256dh :
       base64UrlToArrayBuffer (p256dh (keys subscription)) = Ok recipientPublicKey)
    (steps_importKey : importKey_raw_ECDH P recipientPublicKey = Ok recipientKey)
    (steps_deriveBits :
       deriveBits_ECDH P recipientKey ephemeralPrivate 256 = Ok sharedSecret)
    (steps_auth : base64UrlToArrayBuffer (auth (keys subscription)) = Ok authSecret)
    (steps_exportKey : exportKey_raw P ephemeralPublic = Ok ephemeralPublicBytes)
    (steps_ikm :
       hkdf_result authSecret sharedSecret
         (infoPrefix ++ recipientPublicKey ++ ephemeralPublicBytes) 32 = Ok ikm)
    (steps_cek :
       hkdf_result (getRandomValues P (random_calls w) 16) ikm cekInfo 16 = Ok cekRaw)
    (steps_nonce :
       hkdf_result (getRandomValues P (random_calls w) 16) ikm nonceInfo 12 = Ok nonce)
    (steps_importCek : importKey_raw_AES_GCM P cekRaw = Ok cek)
    (steps_encrypt :
       encrypt_AES_GCM P nonce [] cek (TextEncoder_encode plaintext ++ [x02])
       = Ok encrypted)
    (steps_frame :
       frame = getRandomValues P (random_calls w) 16 ++ rs
               ++ [byte_of_Z (Z.of_nat (length ephemeralPublicBytes))]
               ++ ephemeralPublicBytes ++ encrypted).

(** The world after a call of [encryptPayload] that got as far as the salt. *)
Definition after_encryption (w : World) : World :=
  {| keygen_calls := S (keygen_calls w); random_calls := S (random_calls w);
     clock_reads := clock_reads w; sign_calls := sign_calls w |}.

(** *** [importVapidPrivateKey] *)

Definition importVapidPrivateKey (privateKeyBase64 : string) : M (EcdsaPrivateKey P) :=
  privateKeyBytes ← lift (base64UrlToArrayBuffer privateKeyBase64);
  lift (importKey_pkcs8_ECDSA P privateKeyBytes).

End WithPlatform.

(** *** What the standards promise about the platform

    [key_pair sk pk] says that [pk] is the public key of [sk] on P-256.
    The laws are the functional facts of ECDH (both sides derive the same
    secret), of the raw key format (an uncompressed point: 0x04 and two
    32-byte coordinates), of HKDF (as many bytes as asked) and of AES-GCM
    (a 16-byte tag is appended; decryption inverts encryption). *)
Record WebCryptoLaws (P : Platform)
    (key_pair : EcPrivateKey P -> EcPublicKey P -> Prop) : Prop := {
  generateKey_key_pair : forall i sk pk,
    generateKey_ECDH P i = Ok (sk, pk) -> key_pair sk pk;
  exportKey_raw_point : forall sk pk raw,
    key_pair sk pk -> exportKey_raw P pk = Ok raw ->
    exists xy, raw = x04 :: xy /\ length xy = 64%nat;
  importKey_exportKey : forall pk raw,
    exportKey_raw P pk = Ok raw -> importKey_raw_ECDH P raw = Ok pk;
  ecdh_agreement : forall sk1 pk1 sk2 pk2 bits,
    key_pair sk1 pk1 -> key_pair sk2 pk2 ->
    deriveBits_ECDH P pk2 sk1 bits = deriveBits_ECDH P pk1 sk2 bits;
  getRandomValues_length : forall i n, length (getRandomValues P i n) = n;
  hkdf_length : forall salt info key n out,
    deriveBits_HKDF_SHA256 P salt info key (n * 8) = Ok out -> length out = n;
  aes_gcm_tag : forall iv aad key data ct,
    encrypt_AES_GCM P iv aad key data = Ok ct -> length ct = (length data + 16)%nat;
  aes_gcm_decrypt_encrypt : forall iv aad key data ct,
    encrypt_AES_GCM P iv aad key data = Ok ct -> decrypt_AES_GCM P iv aad key ct = Ok data;
  aes_gcm_decrypt_length : forall iv aad key ct data,
    decrypt_AES_GCM P iv aad key ct = Ok data -> length ct = (length data + 16)%nat;
}.

(** *** The receiving side: an RFC 8188 / RFC 8291 decoder

    The user agent's half of the protocol is not part of the repository.
    This is the decoder of RFC 8188 section 2 (header, records of [rs]
    octets, per-record nonce, padding delimiter) with the key derivation of
    RFC 8291 section 3.4, against which the round trip is stated. *)
Section Receiver.

Context (P : Platform).

Definition be_value (l : list byte) : Z :=
  fold_left (fun acc b => Z.lor (Z.shiftl acc 8) (Z_of_byte b)) l 0.

(** The sequence number as a 96-bit big-endian integer. *)
Definition seq_bytes (seq : nat) : list byte :=
  map (fun j => byte_of_Z (Z.shiftr (Z.of_nat seq) (8 * Z.of_nat (11 - j)))) (List.seq 0 12).

Definition xor_bytes (a b : list byte) : list byte :=
  zip_with (fun x y => byte_of_Z (Z.lxor (Z_of_byte x) (Z_of_byte y))) a b.

(** NONCE = HKDF output XOR SEQ (RFC 8188, section 2.3). *)
Definition record_nonce (nonce : list byte) (seq : nat) : list byte :=
  xor_bytes nonce (seq_bytes seq).

Fixpoint records_of (fuel size : nat) (body : list byte) : list (list byte) :=
  match fuel, body with
  | O, _ | _, [] => []
  | S fuel', _ => firstn size body :: records_of fuel' size (skipn size body)
  end.

Definition CorruptPayload : Exception := Error "corrupt aes128gcm payload".

Fixpoint drop_zeros (l : list byte) : list byte :=
  match l with
  | b :: rest => if Byte.eqb b x00 then drop_zeros rest else l
  | [] => []
  end.

(** Removes the zero padding and the delimiter: 0x02 closes the last
    record, 0x01 every other one. *)
Definition unpad (last : bool) (plain : list byte) : Result (list byte) :=
  match drop_zeros (rev plain) with
  | d :: data =>
      if Byte.eqb d (if last then x02 else x01) then Ok (rev data)
      else Throw CorruptPayload
  | [] => Throw CorruptPayload
  end.

Fixpoint decrypt_records (cek : AesGcmKey P) (nonce : list byte) (seq : nat)
    (records : list (list byte)) : Result (list byte) :=
  match records with
  | [] => Ok []
  | r :: rest =>
      if (length r <=? 16)%nat then Throw CorruptPayload
      else
        plain ← decrypt_AES_GCM P (record_nonce nonce seq) [] cek r;
        data ← unpad (match rest with [] => true | _ => false end) plain;
        more ← decrypt_records cek nonce (S seq) rest;
        mret (data ++ more)
  end.

Definition rfc8291_decrypt (ua_private : EcPrivateKey P) (ua_public auth_secret : list byte)
    (frame : list byte) : Result (list byte) :=
  if (length frame <? 21)%nat then Throw CorruptPayload else
  let salt := firstn 16 frame in
  let rs := Z.to_nat (be_value (firstn 4 (skipn 16 frame))) in
  let idlen := Z.to_nat (be_value (firstn 1 (skipn 20 frame))) in
  let as_public := firstn idlen (skipn 21 frame) in
  let body := skipn (21 + idlen) frame in
  if negb (idlen =? 65)%nat || (length as_public <? 65)%nat || (rs <? 18)%nat
     || (length body =? 0)%nat
  then Throw CorruptPayload else
  as_key ← importKey_raw_ECDH P as_public;
  ecdh_secret ← deriveBits_ECDH P as_key ua_private 256;
  ikm ← hkdf_result P auth_secret ecdh_secret (infoPrefix ++ ua_public ++ as_public) 32;
  cekRaw ← hkdf_result P salt ikm cekInfo 16;
  nonce ← hkdf_result P salt ikm nonceInfo 12;
  cek ← importKey_raw_AES_GCM P cekRaw;
  decrypt_records cek nonce 0 (records_of (length body) rs body).

End Receiver.

End Encryption.

(** ** A deterministic platform for examples

    A small stand-in for Web Crypto on which every law can be checked: the
    "curve" is the additive group of integers modulo 251 with generator 2,
    HKDF is a checksum stretched to the requested length, and AES-GCM adds a
    keystream and appends a 16-byte checksum of key, nonce, associated data
    and ciphertext.  It is used only to run the functions on concrete inputs. *)

Module Fake.

Definition q : Z := 251.
Definition g : Z := 2.

Definition public_of (sk : Z) : Z := (sk * g) mod q.

Definition checksum (l : list byte) : Z :=
  fold_left (fun acc b => (acc * 31 + Z_of_byte b + 1) mod 65521) l 7.

Definition stream (seed : Z) (n : nat) : list byte :=
  map (fun k => byte_of_Z (seed * (Z.of_nat k + 1) + Z.of_nat k)) (seq 0 n).

Definition add_bytes (a b : list byte) : list byte :=
  zip_with (fun x y => byte_of_Z (Z_of_byte x + Z_of_byte y)) a b.

Definition sub_bytes (a b : list byte) : list byte :=
  zip_with (fun x y => byte_of_Z (Z_of_byte x - Z_of_byte y)) a b.

Definition DataError : Exception := DOMException "DataError".
Definition OperationError : Exception := DOMException "OperationError".

Definition import_point (raw : list byte) : Result Z :=
  match raw with
  | x04 :: xy =>
      if (length xy =? 64)%nat && (Z_of_byte (List.last xy x00) <? q)
      then Ok (Z_of_byte (List.last xy x00))
      else Throw DataError
  | _ => Throw DataError
  end.

Definition export_point (pk : Z) : Result (list byte) :=
  if (0 <=? pk) && (pk <? q)
  then Ok (x04 :: repeat x00 63 ++ [byte_of_Z pk])
  else Throw OperationError.

Definition gcm_tag (iv aad key ct : list byte) : list byte :=
  stream (checksum (key ++ iv ++ aad ++ ct)) 16.

Definition gcm_encrypt (iv aad key data : list byte) : Result (list byte) :=
  let ct := add_bytes data (stream (checksum (key ++ iv)) (length data)) in
  Ok (ct ++ gcm_tag iv aad key ct).

Definition gcm_decrypt (iv aad key data : list byte) : Result (list byte) :=
  if (length data <? 16)%nat then Throw OperationError else
  let n := (length data - 16)%nat in
  let ct := firstn n data in
  if bool_decide (skipn n data = gcm_tag iv aad key ct)
  then Ok (sub_bytes ct (stream (checksum (key ++ iv)) n))
  else Throw OperationError.

Definition platform : Platform := {|
  EcPrivateKey := Z;
  EcPublicKey := Z;
  HkdfKey := list byte;
  AesGcmKey := list byte;
  EcdsaPrivateKey := list byte;
  generateKey_ECDH := fun i =>
    let sk := Z.of_nat i + 1 in Ok (sk, public_of sk);
  getRandomValues := fun i n => stream (Z.of_nat i * 7 + 3) n;
  Date_now := fun i => 1700000000123 + Z.of_nat i;
  importKey_raw_ECDH := import_point;
  exportKey_raw := export_point;
  deriveBits_ECDH := fun pk sk bits =>
    Ok (stream ((sk * pk) mod q) (bits / 8));
  importKey_raw_HKDF := fun ikm => Ok ikm;
  deriveBits_HKDF_SHA256 := fun salt info key bits =>
    Ok (stream (checksum (salt ++ x00 :: info ++ x00 :: key)) (bits / 8));
  importKey_raw_AES_GCM := fun raw =>
    if (length raw =? 16)%nat then Ok raw else Throw DataError;
  encrypt_AES_GCM := gcm_encrypt;
  decrypt_AES_GCM := gcm_decrypt;
  importKey_pkcs8_ECDSA := fun raw => Ok raw;
  sign_ECDSA_SHA256 := fun i key data =>
    Ok (stream (checksum (key ++ data) + Z.of_nat i) 64);
|}.

Definition key_pair (sk pk : Z) : Prop := pk = public_of sk.

(** A subscriber whose private key is 7: the public key is the point
    [04 00..00 0e], the authentication secret is sixteen bytes. *)
Definition subscriber_private : Z := 7.

Definition subscriber_public : list byte := x04 :: repeat x00 63 ++ [x0e].

Definition subscriber_auth : list byte := stream 5 16.

Definition subscriber : PushSubscription := {|
  endpoint := "https://push.example.net/send/abc";
  expirationTime := None;
  keys := {| p256dh := Codec.arrayBufferToBase64Url subscriber_public;
             auth := Codec.arrayBufferToBase64Url subscriber_auth |};
|}.

End Fake.

(** ** Storage ([src/db.ts]) *)

Module Db.

Record SubscriptionRecord := {
  endpoint : string;
  p256dh : string;
  auth : string;
  expiration_time : option Z;
  user_agent : option string;
  created_at : Z;
  updated_at : Z;
  active : Z;
}.

(** The [subscriptions] table of the D1 database, row by row. *)
Definition D1Database : Type := list SubscriptionRecord.

(** The two reads are what their statements answer on a table: the
    statement is taken to run through.  (A read that D1 fails makes the
    function that awaits it reject before it does anything else; the
    properties of such functions are stated for a store that answers.) *)

(** [SELECT .. FROM subscriptions WHERE active = 1] *)
Definition getActiveSubscriptions (db : D1Database) : list SubscriptionRecord :=
  filter (fun r => active r = 1) db.

(** [SELECT .. WHERE endpoint = ? AND active = 1], [.first()]: the first
    matching row or [null]. *)
Definition getSubscriptionByEndpoint (db : D1Database) (e : string)
  : option SubscriptionRecord :=
  head (filter (fun r => endpoint r = e /\ active r = 1) db).

Definition recordToSubscription (record : SubscriptionRecord) : PushSubscription :=
  {| Types.endpoint := endpoint record;
     expirationTime := expiration_time record;
     keys := {| Types.p256dh := p256dh record; Types.auth := auth record |} |}.

(** [x || null] on a number or [null]: zero is falsy. *)
Definition number_or_null (x : option Z) : option Z :=
  match x with
  | Some 0 => None
  | _ => x
  end.

(** [x || null] on a string or [undefined]: the empty string is falsy. *)
Definition string_or_null (x : option string) : option string :=
  match x with
  | Some EmptyString => None
  | _ => x
  end.

(** The row [SAVE_SUBSCRIPTION] writes for an endpoint: [created_at] is kept
    when the endpoint has a row already ([ON CONFLICT(endpoint) DO UPDATE]
    does not set it), [active] is set to one either way. *)
Definition saved_row (subscription : PushSubscription) (userAgent : option string)
    (created updated : Z) : SubscriptionRecord :=
  {| endpoint := Types.endpoint subscription;
     p256dh := Types.p256dh (keys subscription);
     auth := Types.auth (keys subscription);
     expiration_time := number_or_null (expirationTime subscription);
     user_agent := string_or_null userAgent;
     created_at := created;
     updated_at := updated;
     active := 1 |}.

(** [saveSubscription]: [created] and [updated] are the two readings of
    [Date.now()] that are bound to the statement.  The column [endpoint] is
    [UNIQUE]: a row with the endpoint is updated in place, otherwise a row is
    added. *)
Definition saveSubscription (db : D1Database) (subscription : PushSubscription)
    (userAgent : option string) (created updated : Z) : D1Database :=
  let e := Types.endpoint subscription in
  if existsb (fun r => String.eqb (endpoint r) e) db
  then map (fun r =>
              if String.eqb (endpoint r) e
              then saved_row subscription userAgent (created_at r) updated
              else r) db
  else db ++ [saved_row subscription userAgent created updated].

(** [SET active = 0, updated_at = ?] on one row. *)
Definition deactivated (r : SubscriptionRecord) (now : Z) : SubscriptionRecord :=
  {| endpoint := endpoint r; p256dh := p256dh r; auth := auth r;
     expiration_time := expiration_time r; user_agent := user_agent r;
     created_at := created_at r; updated_at := now; active := 0 |}.

(** [deactivateSubscription]:
    [UPDATE subscriptions SET active = 0, updated_at = ? WHERE endpoint = ?]. *)
Definition deactivateSubscription (db : D1Database) (e : string) (now : Z)
  : D1Database :=
  map (fun r => if String.eqb (endpoint r) e then deactivated r now else r) db.

(** [WHERE active = 1 AND expiration_time IS NOT NULL AND expiration_time < ?] *)
Definition expired (now : Z) (r : SubscriptionRecord) : bool :=
  (active r =? 1)
  && match expiration_time r with
     | Some t => t <? now
     | None => false
     end.

(** What [CLEANUP_EXPIRED_SUBSCRIPTIONS] does to one row. *)
Definition expire (now : Z) (r : SubscriptionRecord) : SubscriptionRecord :=
  if expired now r then deactivated r now else r.

(** [cleanupExpiredSubscriptions]: the number of rows the statement changed
    ([result.meta?.changes || 0]) and the table after it. *)
Definition cleanupExpiredSubscriptions (db : D1Database) (now : Z)
  : Z * D1Database :=
  (Z.of_nat (length (List.filter (expired now) db)), map (expire now) db).

(** [getSubscriptionCount]: [SELECT COUNT( * ) .. WHERE active = 1]. *)
Definition getSubscriptionCount (db : D1Database) : Z :=
  Z.of_nat (length (List.filter (fun r => active r =? 1) db)).

End Db.

(** ** Delivery ([src/push.ts]) *)

Module Push.

Record Env := {
  VAPID_PUBLIC_KEY : string;
  VAPID_PRIVATE_KEY : string;
  CONTACT_EMAIL : string;
}.

Record Request := {
  method : string;
  headers : list (string * string);
  body : list byte;
}.

Record Response := {
  status : Z;
  statusText : string;
  (** what [await response.text()] gives *)
  text : Result string;
}.

(** [response.ok] *)
Definition ok (r : Response) : bool := (200 <=? status r) && (status r <=? 299).

(** What a run does to the outside world, in the order it does it. *)
Inductive Event : Type :=
| Fetch (url : string) (request : Request)
| Deactivate (endpoint : string)
| ConsoleError (message : string) (error : option Exception).

(** An [async] function of the dispatcher: the events it causes, and the
    value it resolves with or the exception it rejects with. *)
Definition Task (A : Type) : Type := list Event * Result A.

#[global] Instance Task_ret : MRet Task := fun A a => ([], Ok a).

#[global] Instance Task_bind : MBind Task := fun A B k m =>
  match m with
  | (tr, Ok a) => let '(tr', r) := k a in (tr ++ tr', r)
  | (tr, Throw e) => (tr, Throw e)
  end.

Definition call {A} (r : Result A) : Task A := ([], r).

Definition emit (ev : Event) : Task unit := ([ev], Ok tt).

(** [try { body } catch (error) { handler }] *)
Definition try_catch {A} (body : Task A) (handler : Exception -> Task A) : Task A :=
  match body with
  | (tr, Ok a) => (tr, Ok a)
  | (tr, Throw e) => let '(tr', r) := handler e in (tr ++ tr', r)
  end.

(** The result of [{ sent, failed }]. *)
Record Counts := { sent : Z; failed : Z }.

(** The result of [sendNotificationToSubscription]:
    [{ success, status, statusText }]. *)
Module Outcome.
Record t := {
  success : bool;
  status : Z;
  statusText : string;
}.
End Outcome.

(** What the dispatcher imports and what the worker runtime gives it.  The
    functions of [./encryption] draw randomness and read the clock; here each
    stands for what its call returns in the run at hand, so that every
    subscriber has one definite response. *)
Record Runtime := {
  NotificationPayload : Type;
  CryptoKey : Type;
  JSON_stringify : NotificationPayload -> Result string;
  getAudience : string -> Result string;
  importVapidPrivateKey : string -> Result CryptoKey;
  createVapidJwt : string -> string -> string -> CryptoKey -> Result string;
  encryptPayload : string -> PushSubscription -> Result (list byte);
  (** the push service's answer to [fetch(url, request)], or a network error *)
  push_service : string -> Request -> Result Response;
  (** whether the [UPDATE .. SET active = 0] statement runs through *)
  d1_run : string -> Result unit;
}.

Section Dispatcher.

Context (R : Runtime).

Definition fetch (url : string) (request : Request) : Task Response :=
  _ ← emit (Fetch url request);
  call (push_service R url request).

Definition console_error (message : string) (error : option Exception) : Task unit :=
  emit (ConsoleError message error).

(** [deactivateSubscription] of [./db]: one statement against the store. *)
Definition deactivateSubscription (endpoint : string) : Task unit :=
  _ ← emit (Deactivate endpoint);
  call (d1_run R endpoint).

(** *** [sendPush] *)

Definition sendPush (subscription : PushSubscription) (payloadString : string) (env : Env)
  : Task Response :=
  audience ← call (getAudience R (endpoint subscription));
  vapidPrivateKey ← call (importVapidPrivateKey R (VAPID_PRIVATE_KEY env));
  vapidJwt ← call (createVapidJwt R audience (CONTACT_EMAIL env) (VAPID_PUBLIC_KEY env)
                     vapidPrivateKey);
  encryptedPayload ← call (encryptPayload R payloadString subscription);
  response ← fetch (endpoint subscription)
    {| method := "POST";
       headers :=
         [("TTL", "86400");
          ("Content-Type", "application/octet-stream");
          ("Content-Encoding", "aes128gcm");
          ("Urgency", "normal");
          ("Authorization",
           String.concat "" ["vapid t="; vapidJwt; ", k="; VAPID_PUBLIC_KEY env])];
       body := encryptedPayload |};
  mret response.

(** *** [processSubscription] and the current [sendPushToAll] *)

Definition processSubscription (record : Db.SubscriptionRecord) (payloadString : string)
    (env : Env) : Task bool :=
  try_catch
    (let subscription := Db.recordToSubscription record in
     result ← sendPush subscription payloadString env;
     if (status result =? 200) || (status result =? 201) then mret true
     else if status result =? 410 then
       _ ← deactivateSubscription (endpoint subscription);
       mret false
     else
       errorText ← call (text result);
       _ ← console_error
             (String.concat "" ["Push failed with status "; pretty (status result);
                                ": "; errorText]) None;
       mret false)
    (fun error =>
       _ ← console_error "Push error:" (Some error);
       mret false).

(** All the ways the event sequences of concurrent tasks can be merged:
    each task's events keep their order. *)
Inductive interleaving {A : Type} : list (list A) -> list A -> Prop :=
| interleaving_done ls :
    Forall (fun l => l = []) ls -> interleaving ls []
| interleaving_step ls1 x l ls2 tr :
    interleaving (ls1 ++ l :: ls2) tr ->
    interleaving (ls1 ++ (x :: l) :: ls2) (x :: tr).

(** The values of [Promise.all] when every promise resolves, in the order
    of the promises; the rejection of the first one that rejects otherwise. *)
Fixpoint all_results {A} (rs : list (Result A)) : Result (list A) :=
  match rs with
  | [] => Ok []
  | Ok a :: rest => cons a <$> all_results rest
  | Throw e :: _ => Throw e
  end.

Definition tally (results : list bool) : Counts :=
  fold_left
    (fun acc (success : bool) =>
       if success then {| sent := sent acc + 1; failed := failed acc |}
       else {| sent := sent acc; failed := failed acc + 1 |})
    results {| sent := 0; failed := 0 |}.

(** The tasks [subscriptions.map(record => processSubscription(..))] starts. *)
Definition tasks (db : Db.D1Database) (payloadString : string) (env : Env)
  : list (Task bool) :=
  map (fun record => processSubscription record payloadString env)
      (Db.getActiveSubscriptions db).

(** [sendPushToAll db payload env run]: [run] is one possible run of the
    current [sendPushToAll].  The tasks run concurrently, so the events of
    a run are any interleaving of the tasks' events. *)
Definition sendPushToAll (db : Db.D1Database) (payload : NotificationPayload R)
    (env : Env) (run : Task Counts) : Prop :=
  match JSON_stringify R payload with
  | Throw e => run = ([], Throw e)
  | Ok payloadString =>
      interleaving (map fst (tasks db payloadString env)) (fst run)
      /\ snd run = tally <$> all_results (map snd (tasks db payloadString env))
  end.

(** The run in which each task finishes before the next one starts. *)
Definition sendPushToAll_in_order (db : Db.D1Database) (payload : NotificationPayload R)
    (env : Env) : Task Counts :=
  match JSON_stringify R payload with
  | Throw e => ([], Throw e)
  | Ok payloadString =>
      (concat (map fst (tasks db payloadString env)),
       tally <$> all_results (map snd (tasks db payloadString env)))
  end.

(** *** [sendNotificationToSubscription] *)

Definition sendNotificationToSubscription (db : Db.D1Database) (endpoint : string)
    (payload : NotificationPayload R) (env : Env) : Task Outcome.t :=
  match Db.getSubscriptionByEndpoint db endpoint with
  | None =>
      _ ← console_error (String.append "Subscription not found: " endpoint) None;
      mret {| Outcome.success := false; Outcome.status := 404;
              Outcome.statusText := "Subscription not found in DB" |}
  | Some record =>
      let pushSub :=
        {| Types.endpoint := Db.endpoint record;
           expirationTime := Db.expiration_time record;
           keys := {| p256dh := Db.p256dh record; auth := Db.auth record |} |} in
      try_catch
        (payloadString ← call (JSON_stringify R payload);
         result ← sendPush pushSub payloadString env;
         text ← call (text result);
         _ ← (if ok result then mret tt
              else console_error
                     (String.concat "" ["Push failed: "; pretty (status result); " ";
                                        statusText result; " - "; text]) None);
         mret {| Outcome.success := (status result =? 200) || (status result =? 201);
                 Outcome.status := status result;
                 Outcome.statusText :=
                   String.append (statusText result)
                     (if String.eqb text "" then "" else String.append " - " text) |})
        (fun error =>
           _ ← console_error "Failed to send notification:" (Some error);
           mret {| Outcome.success := false; Outcome.status := 500;
                   Outcome.statusText :=
                     if String.eqb (exn_message error) "" then Exception_toString error
                     else exn_message error |})
  end.

End Dispatcher.

(** *** The legacy [sendPushToAll]: one subscriber after the other *)

Module Legacy.

Section Sequential.

Context (R : Runtime).

(** The body of the [for] loop.  [sent] and [failed] are the counters when
    the iteration starts; every branch updates a counter as its last
    statement, so an exception never comes after an update. *)
Definition iteration (record : Db.SubscriptionRecord) (payloadString : string)
    (env : Env) (counts : Counts) : Task Counts :=
  try_catch
    (let subscription := Db.recordToSubscription record in
     result ← sendPush R subscription payloadString env;
     if (status result =? 200) || (status result =? 201) then
       mret {| sent := sent counts + 1; failed := failed counts |}
     else if status result =? 410 then
       _ ← deactivateSubscription R (endpoint subscription);
       mret {| sent := sent counts; failed := failed counts + 1 |}
     else
       errorText ← call (text result);
       _ ← console_error
             (String.concat "" ["Push failed with status "; pretty (status result);
                                ": "; errorText]) None;
       mret {| sent := sent counts; failed := failed counts + 1 |})
    (fun error =>
       _ ← console_error "Push error:" (Some error);
       mret {| sent := sent counts; failed := failed counts + 1 |}).

Fixpoint loop (records : list Db.SubscriptionRecord) (payloadString : string)
    (env : Env) (counts : Counts) : Task Counts :=
  match records with
  | [] => mret counts
  | record :: rest =>
      counts' ← iteration record payloadString env counts;
      loop rest payloadString env counts'
  end.

Definition sendPushToAll (db : Db.D1Database) (payload : NotificationPayload R)
    (env : Env) : Task Counts :=
  payloadString ← call (JSON_stringify R payload);
  loop (Db.getActiveSubscriptions db) payloadString env {| sent := 0; failed := 0 |}.

End Sequential.

End Legacy.

(** The endpoints a run deactivated, in the order of the calls. *)
Definition deactivations (tr : list Event) : list string :=
  omap (fun ev => match ev with Deactivate e => Some e | _ => None end) tr.

(** The requests a run sent to push services, by URL. *)
Definition fetches (tr : list Event) : list string :=
  omap (fun ev => match ev with Fetch url _ => Some url | _ => None end) tr.

End Push.

(** ** Notions used to state the properties *)

(** Some call of a Web Crypto primitive that [encryptPayload] uses rejects
    with [e]. *)
Definition primitive_failure (P : Platform) (e : Exception) : Prop :=
  (exists i, generateKey_ECDH P i = Throw e)
  \/ (exists raw, importKey_raw_ECDH P raw = Throw e)
  \/ (exists pk sk bits, deriveBits_ECDH P pk sk bits = Throw e)
  \/ (exists pk, exportKey_raw P pk = Throw e)
  \/ (exists ikm, importKey_raw_HKDF P ikm = Throw e)
  \/ (exists salt info key bits, deriveBits_HKDF_SHA256 P salt info key bits = Throw e)
  \/ (exists raw, importKey_raw_AES_GCM P raw = Throw e)
  \/ (exists iv aad key data, encrypt_AES_GCM P iv aad key data = Throw e).

(** The answers of the random generator to its calls number [i] and [j]
    differ, as two draws of sixteen random bytes do but for a negligible
    chance. *)
Definition distinct_salts (P : Platform) (i j : nat) : Prop :=
  getRandomValues P i 16 <> getRandomValues P j 16.

(** The key pairs generated by the calls number [i] and [j] have different
    public keys. *)
Definition distinct_keys (P : Platform) (i j : nat) : Prop :=
  forall sk1 pk1 sk2 pk2 raw1 raw2,
    generateKey_ECDH P i = Ok (sk1, pk1) -> generateKey_ECDH P j = Ok (sk2, pk2) ->
    exportKey_raw P pk1 = Ok raw1 -> exportKey_raw P pk2 = Ok raw2 -> raw1 <> raw2.

(** What is expected of the generators of a platform for its first [n]
    answers: no two draws of sixteen random bytes are the same, and no two
    generated key pairs have the same public key.  (No generator can promise
    this for all its answers: there are only so many values of sixteen
    bytes.) *)
Record Freshness (P : Platform) (n : nat) : Prop := {
  fresh_random : forall i j, (i < j < n)%nat -> distinct_salts P i j;
  fresh_key_pairs : forall i j, (i < j < n)%nat -> distinct_keys P i j;
}.

(** *** Base64 seen as six-bit groups *)

(** The six-bit groups of a byte sequence, before they are masked and
    turned into characters. *)
Fixpoint sextets (l : list byte) : list Z :=
  match l with
  | [] => []
  | [a] =>
      let n := Z.shiftl (Z_of_byte a) 16 in [Z.shiftr n 18; Z.shiftr n 12]
  | [a; b] =>
      let n := Z.lor (Z.shiftl (Z_of_byte a) 16) (Z.shiftl (Z_of_byte b) 8) in
      [Z.shiftr n 18; Z.shiftr n 12; Z.shiftr n 6]
  | a :: b :: c :: rest =>
      let n := Z.lor (Z.lor (Z.shiftl (Z_of_byte a) 16) (Z.shiftl (Z_of_byte b) 8))
                     (Z_of_byte c) in
      Z.shiftr n 18 :: Z.shiftr n 12 :: Z.shiftr n 6 :: n :: sextets rest
  end.

(** How many [=] signs [btoa] appends. *)
Definition padding_of (l : list byte) : nat :=
  match (length l mod 3)%nat with
  | 1%nat => 2%nat
  | 2%nat => 1%nat
  | _ => 0%nat
  end.

(** What the two [replace] calls of [base64UrlEncode] do to one character,
    and what the two of [base64UrlToBase64] do. *)
Definition to_url (c : ascii) : ascii :=
  let c1 := if Ascii.eqb c "+" then "-"%char else c in
  if Ascii.eqb c1 "/" then "_"%char else c1.

Definition of_url (c : ascii) : ascii :=
  let c1 := if Ascii.eqb c "-" then "+"%char else c in
  if Ascii.eqb c1 "_" then "/"%char else c1.

(** *** Reading a token back

    What a receiver of a token does with it, after RFC 7515 and RFC 4648,
    section 5; none of it is code of the worker. *)

(** The parts of a text between the occurrences of a separator. *)
Fixpoint split_at (sep : ascii) (s : string) : list string :=
  match s with
  | EmptyString => [EmptyString]
  | String c rest =>
      if Ascii.eqb c sep then EmptyString :: split_at sep rest
      else match split_at sep rest with
           | part :: parts => String c part :: parts
           | [] => [String c EmptyString]
           end
  end.

Definition base64url_alphabet : list ascii :=
  list_ascii_of_string
    "ABCDEFGHIJKLMNOPQRSTUVWXYZabcdefghijklmnopqrstuvwxyz0123456789-_".

(** The place of a character in a list of characters. *)
Fixpoint place (c : ascii) (l : list ascii) : option nat :=
  match l with
  | [] => None
  | x :: rest => if Ascii.eqb c x then Some 0%nat else S <$> place c rest
  end.

(** The value of a character of base64url: its place in the alphabet. *)
Definition base64url_value (c : ascii) : option Z :=
  Z.of_nat <$> place c base64url_alphabet.

Fixpoint base64url_values (l : list ascii) : option (list Z) :=
  match l with
  | [] => Some []
  | c :: rest =>
      match base64url_value c, base64url_values rest with
      | Some v, Some vs => Some (v :: vs)
      | _, _ => None
      end
  end.

(** Four values are 24 bits, that is three octets; at the end two values
    give one octet and three values give two. *)
Fixpoint octets (values : list Z) : list byte :=
  match values with
  | a :: b :: c :: d :: rest =>
      let n := ((a * 64 + b) * 64 + c) * 64 + d in
      byte_of_Z (n / 65536) :: byte_of_Z (n / 256) :: byte_of_Z n :: octets rest
  | [a; b; c] =>
      let n := (a * 64 + b) * 64 + c in
      [byte_of_Z (n / 1024); byte_of_Z (n / 4)]
  | [a; b] => [byte_of_Z ((a * 64 + b) / 16)]
  | _ => []
  end.

(** The octets a text of base64url without padding stands for. *)
Definition base64url_decode (s : string) : option (list byte) :=
  match base64url_values (list_ascii_of_string s) with
  | Some values =>
      if (length values mod 4 =? 1)%nat then None else Some (octets values)
  | None => None
  end.

Definition is_digit (c : ascii) : bool :=
  let n := nat_of_ascii c in ((48 <=? n) && (n <=? 57))%nat.

Fixpoint leading_digits (l : list ascii) : list ascii :=
  match l with
  | c :: rest => if is_digit c then c :: leading_digits rest else []
  | [] => []
  end.

(** The number a sequence of decimal digits stands for. *)
Definition numeral (digits : list ascii) : Z :=
  fold_left (fun acc c => acc * 10 + (Z.of_nat (nat_of_ascii c) - 48)) digits 0.

Fixpoint starts_with (p l : list ascii) : bool :=
  match p, l with
  | [] , _ => true
  | x :: p', y :: l' => Ascii.eqb x y && starts_with p' l'
  | _ :: _, [] => false
  end.

(** The name of the member [exp] with its quotes and colon, from the
    colon backwards. *)
Definition exp_member_backwards : list ascii :=
  [":"; "034"; "p"; "x"; "e"; "034"]%char.

(** The [exp] claim of the JSON text of an object whose last member it is:
    the text ends with the member's name, a colon, a whole number and the
    closing brace.  (Inside a string of JSON a quote is escaped, so the end
    of the text is not the end of a string.) *)
Definition exp_claim (body : list byte) : option Z :=
  match rev (map ascii_of_byte body) with
  | c :: r =>
      let digits := leading_digits r in
      let before := drop (length digits) r in
      if negb (Ascii.eqb c "}") || (length digits =? 0)%nat then None
      else if starts_with ("-"%char :: exp_member_backwards) before
      then Some (- numeral (rev digits))
      else if starts_with exp_member_backwards before
      then Some (numeral (rev digits))
      else None
  | [] => None
  end.

(** ** Concrete inputs *)

Definition long_plaintext : string := Codec.string_repeat "a" 4080.

(** The frame [encryptPayload] returns for ["hi"] on the deterministic
    platform, in the initial world. *)
Definition example_frame : list byte :=
  Eval vm_compute in
    match fst (Encryption.encryptPayload Fake.platform "hi" Fake.subscriber world0) with
    | Ok frame => frame
    | Throw _ => []
    end.

(** A subscriber whose [auth] decodes to three bytes. *)
Definition short_auth_subscriber : PushSubscription := {|
  endpoint := "https://push.example.net/send/short";
  expirationTime := None;
  keys := {| p256dh := p256dh (keys Fake.subscriber); auth := "AAAA" |};
|}.

(** *** Delivery *)

Import Push.

(** What the push service answered for a subscriber, or the exception
    [sendPush] ended with. *)
Definition response_of (R : Runtime) (record : Db.SubscriptionRecord)
    (payloadString : string) (env : Env) : Result Response :=
  snd (sendPush R (Db.recordToSubscription record) payloadString env).

(** The response is 200 or 201. *)
Definition delivered (R : Runtime) (payloadString : string) (env : Env)
    (record : Db.SubscriptionRecord) : bool :=
  match response_of R record payloadString env with
  | Ok r => (status r =? 200) || (status r =? 201)
  | Throw _ => false
  end.

(** The response is 410. *)
Definition gone (R : Runtime) (payloadString : string) (env : Env)
    (record : Db.SubscriptionRecord) : bool :=
  match response_of R record payloadString env with
  | Ok r => status r =? 410
  | Throw _ => false
  end.


(** ** The store after a run *)

(** The table after the statements of a run: every [Deactivate] whose
    statement ran through marks the rows of its endpoint.  [clock k] is the
    reading of [Date.now()] that the statement number [k] binds. *)
Fixpoint store_after (R : Runtime) (clock : nat -> Z) (k : nat) (tr : list Event)
    (db : Db.D1Database) : Db.D1Database :=
  match tr with
  | [] => db
  | Deactivate e :: rest =>
      store_after R clock (S k) rest
        (if is_Ok (d1_run R e) then Db.deactivateSubscription db e (clock k) else db)
  | _ :: rest => store_after R clock k rest db
  end.

(** ** Strings and regular expressions of the formatters *)

Module Js.

(** [x || d] on a string that may be missing: the empty string is falsy. *)
Definition or_else (x : option string) (d : string) : string :=
  match x with
  | Some EmptyString | None => d
  | Some s => s
  end.

(** Whether a string that may be missing is truthy. *)
Definition truthy (x : option string) : bool :=
  match x with
  | Some EmptyString | None => false
  | Some _ => true
  end.

(** [n.toString()] and the conversion of a number in a string
    concatenation, for the numbers of seasons, episodes and years: whole
    numbers, printed in full.  (A number with a fraction, or of 10^21 and
    more, which JavaScript prints with an exponent, is not among the values
    of the webhook records below.) *)
Definition Number_toString (n : Z) : string := pretty n.

(** [s.padStart(targetLength, padString)]. *)
Definition padStart (s : string) (targetLength : nat) (padString : string) : string :=
  let fillLen := (targetLength - String.length s)%nat in
  if (fillLen =? 0)%nat || String.eqb padString "" then s
  else String.append
         (String.substring 0 fillLen (Codec.string_repeat padString fillLen)) s.

(** A regular expression of the shape the formatters use: a sequence of
    capture groups, each a sequence of character classes, a class being
    taken once or, with [+], as often as possible and at least once. *)
Inductive Atom : Type :=
| Class (p : ascii -> bool)
| Plus (p : ascii -> bool).

Definition Regex : Type := list (list Atom).

(** One or more characters of a class, the longest run first, then [k] on
    what is left; a shorter run is tried when [k] fails. *)
Fixpoint match_plus {R} (p : ascii -> bool) (k : string -> option R) (s : string)
  : option R :=
  match s with
  | String c rest =>
      if p c then
        match match_plus p k rest with
        | Some r => Some r
        | None => k rest
        end
      else None
  | EmptyString => None
  end.

Fixpoint match_atoms {R} (atoms : list Atom) (k : string -> option R) (s : string)
  : option R :=
  match atoms with
  | [] => k s
  | Class p :: rest =>
      match s with
      | String c s' => if p c then match_atoms rest k s' else None
      | EmptyString => None
      end
  | Plus p :: rest => match_plus p (match_atoms rest k) s
  end.

(** A match of the groups at the start of [s]: the captured texts and what
    follows the match. *)
Fixpoint match_groups (groups : Regex) (s : string) : option (list string * string) :=
  match groups with
  | [] => Some ([], s)
  | g :: gs =>
      match_atoms g
        (fun rest =>
           '(captures, after) ← match_groups gs rest;
           Some (String.substring 0 (String.length s - String.length rest) s :: captures,
                 after))
        s
  end.

(** [s.replace(re, template)] for a global [re]: the leftmost match is
    replaced and the search goes on behind it (one character further on
    after an empty match).  [skip] counts the characters of the last match
    that are still to be passed over.  The classes used here hold ASCII
    letters only, so matching the bytes of the UTF-8 text finds the matches
    that matching its UTF-16 code units finds. *)
Fixpoint replace_from (re : Regex) (template : list string -> string) (skip : nat)
    (s : string) : string :=
  match s with
  | EmptyString =>
      match match_groups re s with
      | Some (captures, _) => template captures
      | None => EmptyString
      end
  | String c rest =>
      match skip with
      | S n => replace_from re template n rest
      | O =>
          match match_groups re s with
          | Some (captures, after) =>
              match (String.length s - String.length after)%nat with
              | O => String.append (template captures)
                       (String c (replace_from re template 0 rest))
              | S n => String.append (template captures) (replace_from re template n rest)
              end
          | None => String c (replace_from re template 0 rest)
          end
      end
  end.

Definition replace (re : Regex) (template : list string -> string) (s : string)
  : string :=
  replace_from re template 0 s.

(** [[a-z]] and [[A-Z]] *)
Definition lower (c : ascii) : bool :=
  let n := nat_of_ascii c in ((97 <=? n) && (n <=? 122))%nat.

Definition upper (c : ascii) : bool :=
  let n := nat_of_ascii c in ((65 <=? n) && (n <=? 90))%nat.

(** The template ["$1 $2"]. *)
Definition group1_space_group2 (captures : list string) : string :=
  String.append (nth 0 captures "") (String.append " " (nth 1 captures "")).

End Js.

(** ** Webhook payloads ([src/types.ts])

    The records are the interfaces as they are declared: a field the
    interface requires is there, an optional one is there or not.  The
    worker does not check a body against the interface.  A body that lacks a
    required field is not a value of these types, and the formatters are
    not defined on it (the code throws a [TypeError] where it calls a method
    on the missing value): for the worker, reading such a body is a failure
    of [Worker.read_webhook]. *)

Module Series.
Record t := { title : string; year : option Z; tvdbId : option Z }.
End Series.

Module Episode.
Record t := {
  title : string;
  seasonNumber : Z;
  episodeNumber : Z;
  absoluteEpisodeNumber : option Z;
}.
End Episode.

Module Movie.
Record t := { title : string; year : Z; imdbId : option string; tmdbId : option Z }.
End Movie.

Module Release.
Record t := {
  quality : string;
  qualityVersion : Z;
  releaseGroup : option string;
  size : option Z;
}.
End Release.

Module File.
Record t := { path : string; size : option Z }.
End File.

Module DownloadStatus.
Record t := { status : string; message : option string }.
End DownloadStatus.

Module Package.
Record t := { packageAuthor : option string; packageVersion : option string }.
End Package.

Module Message.
Record t := { message : option string; text : option string; type : option string }.
End Message.

Module ArrWebhookPayload.
Record t := {
  eventType : string;
  series : option Series.t;
  episode : option Episode.t;
  episodes : option (list Episode.t);
  movie : option Movie.t;
  release : option Release.t;
  files : option (list File.t);
  downloadStatus : option (list DownloadStatus.t);
  package : option Package.t;
  messages : option (list Message.t);
}.
End ArrWebhookPayload.

(** [data] is an object the formatter gives one key, [type]. *)
Module FormattedMessage.
Record t := {
  title : string;
  body : string;
  eventType : string;
  data : list (string * string);
}.
End FormattedMessage.

(** ** Formatting a webhook ([src/router.ts], helpers) *)

Module Format.

Import ArrWebhookPayload.

Definition newline : string := String "010"%char EmptyString.

(** [" S" + season.padStart(2, "0") + "E" + episode.padStart(2, "0") + " - " + title] *)
Definition episode_suffix (ep : Episode.t) : string :=
  String.concat ""
    [" S"; Js.padStart (Js.Number_toString (Episode.seasonNumber ep)) 2 "0";
     "E"; Js.padStart (Js.Number_toString (Episode.episodeNumber ep)) 2 "0";
     " - "; Episode.title ep].

Definition formatEpisodeMessage (webhook : t) : string :=
  let seriesTitle := Js.or_else (Series.title <$> series webhook) "Unknown Series" in
  match episode webhook with
  | Some ep => String.append seriesTitle (episode_suffix ep)
  | None =>
      match episodes webhook with
      | Some (ep :: others) =>
          let more :=
            if (1 <? length (ep :: others))%nat
            then String.concat ""
                   [" (+"; Js.Number_toString (Z.of_nat (length (ep :: others)) - 1);
                    " more)"]
            else "" in
          String.append seriesTitle (String.append (episode_suffix ep) more)
      | _ => seriesTitle
      end
  end.

Definition formatHealthMessage (webhook : t) : string :=
  let messages := default [] (messages webhook) in
  if (0 <? length messages)%nat
  then String.concat newline
         (map (fun m => Js.or_else (Message.message m)
                          (Js.or_else (Message.text m) "Health issue"))
              messages)
  else "Health check failed".

(** [.replace(/([a-z])([A-Z])/g, "$1 $2").replace(/([A-Z]+)([A-Z][a-z])/g, "$1 $2")] *)
Definition formatEventTypeTitle (eventType : string) : string :=
  Js.replace [[Js.Plus Js.upper]; [Js.Class Js.upper; Js.Class Js.lower]]
    Js.group1_space_group2
    (Js.replace [[Js.Class Js.lower]; [Js.Class Js.upper]] Js.group1_space_group2
       eventType).

(** [" (" + year + ")"] when the year is truthy, that is, not zero. *)
Definition year_suffix (year : Z) : string :=
  if year =? 0 then "" else String.concat "" [" ("; Js.Number_toString year; ")"].

Definition extractBestBody (webhook : t) : string :=
  if Js.truthy (Movie.title <$> movie webhook) then
    match movie webhook with
    | Some m => String.append (Movie.title m) (year_suffix (Movie.year m))
    | None => ""
    end
  else if Js.truthy (Series.title <$> series webhook) then formatEpisodeMessage webhook
  else if match messages webhook with
          | Some ms => (0 <? length ms)%nat
          | None => false
          end
  then formatHealthMessage webhook
  else if Js.truthy (package webhook ≫= Package.packageAuthor) then
    match package webhook with
    | Some p =>
        String.append (default "" (Package.packageAuthor p))
          (if Js.truthy (Package.packageVersion p)
           then String.append " v" (default "" (Package.packageVersion p))
           else "")
    | None => ""
    end
  else "Notification received".

(** [body += ` [${quality}]`] when the release has a truthy quality. *)
Definition quality_suffix (webhook : t) : string :=
  match Release.quality <$> release webhook with
  | Some q => if String.eqb q "" then "" else String.concat "" [" ["; q; "]"]
  | None => ""
  end.

(** [body += ` - ${releaseGroup}`] when the release has a truthy group. *)
Definition group_suffix (webhook : t) : string :=
  match release webhook ≫= Release.releaseGroup with
  | Some g => if String.eqb g "" then "" else String.append " - " g
  | None => ""
  end.

(** [body += ` (${year})`] when there is a movie with a truthy year. *)
Definition movie_year_suffix (webhook : t) : string :=
  match movie webhook with
  | Some m => year_suffix (Movie.year m)
  | None => ""
  end.

Definition message (title body eventType type : string) : FormattedMessage.t :=
  {| FormattedMessage.title := title; FormattedMessage.body := body;
     FormattedMessage.eventType := eventType;
     FormattedMessage.data := [("type", type)] |}.

Definition formatArrMessage (webhook : t) : FormattedMessage.t :=
  let eventType := eventType webhook in
  let case name := String.eqb eventType name in
  let seriesTitle := Js.or_else (Series.title <$> series webhook) "Unknown Series" in
  let movieTitle := Js.or_else (Movie.title <$> movie webhook) "Unknown Movie" in
  if case "Grab" then
    message "Episode Grabbed"
      (String.concat "" [formatEpisodeMessage webhook; quality_suffix webhook;
                         group_suffix webhook])
      eventType "arr-grab"
  else if case "Download" || case "EpisodeDownload" || case "Import" then
    message "Download Complete" (formatEpisodeMessage webhook) eventType "arr-download"
  else if case "SeriesAdd" then message "Series Added" seriesTitle eventType "arr-series-add"
  else if case "SeriesDelete" then
    message "Series Deleted" seriesTitle eventType "arr-series-delete"
  else if case "Rename" then message "Series Renamed" seriesTitle eventType "arr-rename"
  else if case "EpisodeFileDelete" then
    message "Episode Deleted" (formatEpisodeMessage webhook) eventType "arr-episode-delete"
  else if case "Health" then
    message "Health Issue" (formatHealthMessage webhook) eventType "arr-health"
  else if case "Test" then
    message "Test Notification" "CloudNotifiarr is configured correctly!" eventType
      "arr-test"
  else if case "MovieDownload" || case "MovieDelete" then
    message (if case "MovieDownload" then "Movie Downloaded" else "Movie Deleted")
      (String.concat ""
         [movieTitle; movie_year_suffix webhook;
          if case "MovieDownload" then quality_suffix webhook else ""])
      eventType "arr-movie"
  else if case "MovieAdded" then
    message "Movie Added" (String.append movieTitle (movie_year_suffix webhook))
      eventType "arr-movie-add"
  else if case "MovieGrab" then
    message "Movie Grabbed"
      (String.concat "" [movieTitle; movie_year_suffix webhook; quality_suffix webhook;
                         group_suffix webhook])
      eventType "arr-movie-grab"
  else if case "ApplicationUpdate" then
    message "App Updated"
      (String.append (Js.or_else (package webhook ≫= Package.packageAuthor) "App")
         " updated")
      eventType "arr-update"
  else
    message (formatEventTypeTitle eventType) (extractBestBody webhook) eventType
      "arr-other".

End Format.

(** ** The legacy formatter ([src/index.ts] before the router was split off) *)

Module LegacyFormat.

Import ArrWebhookPayload.

Section Formatter.

(** [JSON.stringify(webhook)], the body the legacy formatter falls back to. *)
Context (JSON_stringify : ArrWebhookPayload.t -> string).

Definition formatEpisodeMessage (webhook : t) : string :=
  let seriesTitle := Js.or_else (Series.title <$> series webhook) "Unknown Series" in
  match episode webhook with
  | Some ep => String.append seriesTitle (Format.episode_suffix ep)
  | None =>
      match episodes webhook with
      | Some (ep :: others) =>
          let more :=
            if (1 <? length (ep :: others))%nat
            then String.concat ""
                   [" (+"; Js.Number_toString (Z.of_nat (length (ep :: others)) - 1);
                    " more)"]
            else "" in
          String.append seriesTitle (String.append (Format.episode_suffix ep) more)
      | _ => seriesTitle
      end
  end.

Definition formatHealthMessage (webhook : t) : string :=
  let messages := default [] (messages webhook) in
  if (0 <? length messages)%nat
  then String.concat Format.newline
         (map (fun m => Js.or_else (Message.message m)
                          (Js.or_else (Message.text m) "Health issue"))
              messages)
  else "Health check failed".

Definition formatArrMessage (webhook : t) : FormattedMessage.t :=
  let eventType := eventType webhook in
  let case name := String.eqb eventType name in
  let seriesTitle := Js.or_else (Series.title <$> series webhook) "Unknown Series" in
  let movieTitle := Js.or_else (Movie.title <$> movie webhook) "Unknown Movie" in
  if case "Grab" then
    Format.message "Episode Grabbed"
      (String.concat "" [formatEpisodeMessage webhook; Format.quality_suffix webhook;
                         Format.group_suffix webhook])
      eventType "arr-grab"
  else if case "Download" || case "EpisodeDownload" || case "Import" then
    Format.message "Download Complete" (formatEpisodeMessage webhook) eventType
      "arr-download"
  else if case "SeriesAdd" then
    Format.message "Series Added" seriesTitle eventType "arr-series-add"
  else if case "SeriesDelete" then
    Format.message "Series Deleted" seriesTitle eventType "arr-series-delete"
  else if case "Rename" then
    Format.message "Series Renamed" seriesTitle eventType "arr-rename"
  else if case "EpisodeFileDelete" then
    Format.message "Episode Deleted" (formatEpisodeMessage webhook) eventType
      "arr-episode-delete"
  else if case "Health" then
    Format.message "Health Issue" (formatHealthMessage webhook) eventType "arr-health"
  else if case "Test" then
    Format.message "Test Notification" "CloudNotifiarr is configured correctly!"
      eventType "arr-test"
  else if case "MovieDownload" || case "MovieDelete" then
    Format.message (if case "MovieDownload" then "Movie Downloaded" else "Movie Deleted")
      (String.concat ""
         [movieTitle; Format.movie_year_suffix webhook;
          if case "MovieDownload" then Format.quality_suffix webhook else ""])
      eventType "arr-movie"
  else if case "ApplicationUpdate" then
    Format.message "App Updated"
      (String.append (Js.or_else (package webhook ≫= Package.packageAuthor) "App")
         " updated")
      eventType "arr-update"
  else Format.message eventType (JSON_stringify webhook) eventType "arr-other".

End Formatter.

End LegacyFormat.

(** The event types the legacy formatter has a case for. *)
Definition legacy_event_types : list string :=
  ["Grab"; "Download"; "EpisodeDownload"; "Import"; "SeriesAdd"; "SeriesDelete";
   "Rename"; "EpisodeFileDelete"; "Health"; "Test"; "MovieDownload"; "MovieDelete";
   "ApplicationUpdate"].

(** ** The page's key ([src/frontend.ts]) *)

Module Frontend.

(** The value of a hexadecimal digit. *)
Definition hex_value (c : ascii) : option Z :=
  let n := Z.of_nat (nat_of_ascii c) in
  if (48 <=? n) && (n <=? 57) then Some (n - 48)
  else if (97 <=? n) && (n <=? 102) then Some (n - 87)
  else if (65 <=? n) && (n <=? 70) then Some (n - 55)
  else None.

(** The white space [parseInt] skips, among the ASCII characters. *)
Definition is_space (c : ascii) : bool :=
  let n := nat_of_ascii c in
  ((n =? 9) || (n =? 10) || (n =? 11) || (n =? 12) || (n =? 13) || (n =? 32))%nat.

Fixpoint skip_spaces (s : string) : string :=
  match s with
  | String c rest => if is_space c then skip_spaces rest else s
  | EmptyString => s
  end.

(** The value of the longest prefix of hexadecimal digits, read from the
    left with [acc] the value so far; [None] when there is no digit. *)
Fixpoint hex_digits (s : string) (acc : option Z) : option Z :=
  match s with
  | String c rest =>
      match hex_value c with
      | Some v => hex_digits rest (Some (default 0 acc * 16 + v))
      | None => acc
      end
  | EmptyString => acc
  end.

(** [Number.parseInt(s, 16)] on ASCII text: white space, a sign and a
    [0x] prefix are passed over, then the digits are read as far as they
    go; [None] is [NaN]. *)
Definition parseInt16 (s : string) : option Z :=
  let s1 := skip_spaces s in
  let '(negative, s2) :=
    match s1 with
    | String "-" rest => (true, rest)
    | String "+" rest => (false, rest)
    | _ => (false, s1)
    end in
  let s3 :=
    match s2 with
    | String "0" (String "x" rest) | String "0" (String "X" rest) => rest
    | _ => s2
    end in
  (fun v : Z => if negative then - v else v) <$> hex_digits s3 None.

(** What storing a number in a [Uint8Array] keeps: [NaN] becomes zero,
    other values are taken modulo 256. *)
Definition ToUint8 (v : option Z) : byte :=
  match v with
  | Some z => byte_of_Z z
  | None => x00
  end.

(** [s.slice(i, i + 2)] for [i = 0, 2, 4, ..]. *)
Fixpoint pairs (s : string) : list string :=
  match s with
  | String a (String b rest) => String a (String b EmptyString) :: pairs rest
  | String a EmptyString => [String a EmptyString]
  | EmptyString => []
  end.

(** [hexToUint8Array], on ASCII text.  The array has [cleanHex.length / 2]
    elements, rounded down; a write behind its end is ignored, so the last
    digit of a text of odd length is dropped. *)
Definition hexToUint8Array (hex : string) : list byte :=
  let cleanHex :=
    if Encryption.startsWith hex "04" then hex
    else if (String.length hex =? 130)%nat then String.append "04" hex
    else hex in
  map (fun pair => ToUint8 (parseInt16 pair))
      (firstn (String.length cleanHex / 2) (pairs cleanHex)).

(** [[0-9a-fA-F]] *)
Definition is_hex_digit (c : ascii) : bool :=
  match hex_value c with Some _ => true | None => false end.

(** [/^[0-9a-fA-F]+$/.test(s)] *)
Definition is_hex (s : string) : bool :=
  negb (String.eqb s "") && forallb is_hex_digit (list_ascii_of_string s).

(** [s.padEnd(targetLength, padString)]. *)
Definition padEnd (s : string) (targetLength : nat) (padString : string) : string :=
  let fillLen := (targetLength - String.length s)%nat in
  if (fillLen =? 0)%nat || String.eqb padString "" then s
  else String.append s
         (String.substring 0 fillLen (Codec.string_repeat padString fillLen)).

(** The bytes [getFrontendHtml] puts into the page for a public key: the
    key is taken for hexadecimal when it has digits only and at least 128
    of them, and for base64url otherwise. *)
Definition keyBytes (vapidPublicKey : string) : Result (list byte) :=
  if is_hex vapidPublicKey && (128 <=? String.length vapidPublicKey)%nat then
    let keyHex :=
      if (String.length vapidPublicKey =? 128)%nat
      then String.append "04" vapidPublicKey
      else vapidPublicKey in
    Ok (hexToUint8Array keyHex)
  else
    let base64 :=
      padEnd
        (Codec.replace_all "_" "/" (Codec.replace_all "-" "+" vapidPublicKey))
        (String.length vapidPublicKey + (4 - String.length vapidPublicKey mod 4) mod 4)
        "=" in
    Codec.atob base64.

(** ["[" + Array.from(keyBytes).join(",") + "]"] *)
Definition keyArrayStr (keyBytes : list byte) : string :=
  String.concat ""
    ["["; String.concat "," (map (fun b => pretty (Z_of_byte b)) keyBytes); "]"].

Section Page.

(** The text of the page before and behind the place of the key. *)
Context (page_head page_tail : string).

Definition getFrontendHtml (vapidPublicKey : string) : Result string :=
  bytes ← keyBytes vapidPublicKey;
  mret (String.concat "" [page_head; keyArrayStr bytes; page_tail]).

End Page.

End Frontend.

(** Hexadecimal text of bytes, with the digits of [alphabet]. *)
Definition hex_pair (alphabet : string) (b : byte) : string :=
  let n := Z_of_byte b in
  String (default "0"%char (String.get (Z.to_nat (n / 16)) alphabet))
    (String (default "0"%char (String.get (Z.to_nat (n mod 16)) alphabet)) EmptyString).

Definition hex_of (alphabet : string) (l : list byte) : string :=
  String.concat "" (map (hex_pair alphabet) l).

Definition hex_alphabets : list string := ["0123456789abcdef"; "0123456789ABCDEF"].

(** ** The key generation script ([scripts/generate-keys.js]) *)

Module GenerateKeys.

(** [buffer.toString("base64")] with the URL alphabet and without padding. *)
Definition toBase64Url (buffer : list byte) : string :=
  Codec.remove_all "="
    (Codec.replace_all "/" "_"
       (Codec.replace_all "+" "-" (string_of_list_ascii (Codec.btoa_units buffer)))).

(** [Buffer.concat([Buffer.from([0x04]), x, y])] *)
Definition rawPublic (x y : list byte) : list byte := x04 :: x ++ y.

End GenerateKeys.

(** [exportVapidPublicKey] of [src/encryption.ts]. *)
Definition exportVapidPublicKey (publicKeyBase64 : string) : Result (list byte) :=
  Codec.base64UrlToArrayBuffer publicKeyBase64.

(** The text holds a byte of 0xC4 or more: in UTF-8, the first byte of a
    character above U+00FF. *)
Definition beyond_latin1 (s : string) : Prop :=
  Exists (fun b => 196 <= Z_of_byte b) (TextEncoder_encode s).

(** The text is ASCII. *)
Definition ascii_only (s : string) : Prop :=
  Forall (fun b => Z_of_byte b < 128) (TextEncoder_encode s).

(** A character that needs no escaping in a URL or a header: a letter, a
    digit, [-] or [_]. *)
Definition url_safe (c : ascii) : bool :=
  let n := nat_of_ascii c in
  ((65 <=? n) && (n <=? 90) || (97 <=? n) && (n <=? 122) || (48 <=? n) && (n <=? 57)
   || (n =? 45) || (n =? 95))%nat.

(** A subject with the character U+4E2D, in UTF-8 the bytes E4 B8 AD. *)
Definition wide_subject : string :=
  String "228"%char (String "184"%char (String "173"%char "@example.com")).

(** ** The worker ([src/router.ts], [src/index.ts]) *)

Module Worker.

(** A JSON value: what [JSON.parse] gives and [JSON.stringify] takes. *)
#[warnings="-register-all"]
Inductive Json : Type :=
| JNull
| JBool (b : bool)
| JNumber (n : Z)
| JString (s : string)
| JArray (items : list Json)
| JObject (fields : list (string * Json)).

(** The body of a response: a text, or [JSON.stringify] of a value. *)
Inductive Body : Type :=
| Text (s : string)
| Stringified (j : Json).

Record Response := {
  status : Z;
  headers : list (string * string);
  body : Body;
}.

(** A request as the worker reads it: the path of its URL, its method,
    [headers.get], the outcomes of [json()] and [text()], and
    [url.searchParams.get]. *)
Record Request := {
  pathname : string;
  method : string;
  headers_get : string -> option string;
  json : Result Json;
  text : Result string;
  searchParams_get : string -> option string;
}.

(** [NotificationPayload] as the handlers build it. *)
Record Notification := {
  title : string;
  body_text : string;
  icon : string;
  badge : string;
  tag : string;
  data : list (string * string);
}.

(** What a run of the worker does to the outside world: what delivery does,
    the statements of the handlers, and the log. *)
Inductive Event : Type :=
| Delivery (ev : Push.Event)
| SaveSubscription (subscription : Json) (userAgent : option string)
| Unsubscribe (endpoint : option Json)
| SaveNotification (title body data eventType : string)
| ConsoleLog (message : option Json)
| WorkerError (error : Exception).

Definition Task (A : Type) : Type := list Event * Result A.

#[global] Instance Task_ret : MRet Task := fun A a => ([], Ok a).

#[global] Instance Task_bind : MBind Task := fun A B k m =>
  match m with
  | (tr, Ok a) => let '(tr', r) := k a in (tr ++ tr', r)
  | (tr, Throw e) => (tr, Throw e)
  end.

Definition call {A} (r : Result A) : Task A := ([], r).

Definition emit (ev : Event) : Task unit := ([ev], Ok tt).

(** A function of [./push] called from a handler. *)
Definition delivery {A} (t : Push.Task A) : Task A := (map Delivery (fst t), snd t).

(** The runs an [async] function can take; a function that starts no
    concurrent work has one. *)
Definition Runs (A : Type) : Type := Task A -> Prop.

Definition exactly {A} (t : Task A) : Runs A := fun run => run = t.

(** [const x = await first; rest(x)] *)
Definition then_ {A B} (first : Runs A) (rest : A -> Task B) : Runs B :=
  fun run => exists r, first r /\ run = (r ≫= rest).

(** What the worker is given besides its code.  The calls of [./db] that
    write either run through or fail; the texts of the page, of the service
    worker and of the icon and the manifest are constants of [./frontend]. *)
Record Runtime := {
  push : Push.Runtime;
  payload : Notification -> NotificationPayload push;
  (** the body of a webhook as the [ArrWebhookPayload] the handler declares
      it to be; the failure is what reading a property of a body without
      that shape throws ([null] has no properties) *)
  read_webhook : Json -> Result ArrWebhookPayload.t;
  (** a value other than a string bound to [WHERE endpoint = ?]: the text
      the column is compared with, or the failure of the statement *)
  bound_text : Json -> Result string;
  JSON_parse : string -> Result Json;
  JSON_stringify : ArrWebhookPayload.t -> string;
  (** [saveSubscription(env.DB, subscription, userAgent)] *)
  d1_save_subscription : Json -> option string -> Result unit;
  (** [deactivateSubscription(env.DB, endpoint)] *)
  d1_unsubscribe : option Json -> Result unit;
  (** [saveNotification(env.DB, title, body, data, eventType)] *)
  d1_save_notification : string -> string -> string -> string -> Result unit;
  (** [getRecentNotifications(env.DB, Number.parseInt(limit || "20"))], as
      the value that is serialised *)
  recent_notifications : option string -> Result Json;
  page_head : string;
  page_tail : string;
  SERVICE_WORKER_CODE : string;
  icon_svg : string;
  MANIFEST : Json;
}.

Definition json_headers : list (string * string) := [("Content-Type", "application/json")].

(** [new Response(JSON.stringify(value), {headers: {"Content-Type": "application/json"}})] *)
Definition json_response (value : Json) : Response :=
  {| status := 200; headers := json_headers; body := Stringified value |}.

(** [obj.name]: [null] has no properties and reading one throws; a value
    that is not an object has none of the names the handlers read. *)
Definition get (value : Json) (name : string) : Result (option Json) :=
  match value with
  | JNull =>
      Throw (TypeError (String.concat ""
                          ["Cannot read properties of null (reading '"; name; "')"]))
  | JObject fields => Ok (snd <$> List.find (fun f => String.eqb (fst f) name) fields)
  | _ => Ok None
  end.

(** Whether [if (value)] takes the branch, for the value of a property. *)
Definition truthy (value : option Json) : bool :=
  match value with
  | None | Some JNull | Some (JBool false) | Some (JNumber 0) | Some (JString "") => false
  | Some _ => true
  end.

Section Handlers.

Context (R : Runtime).

(** How the handlers of one version of the worker format a webhook and
    deliver to all subscribers. *)
Context (formatArrMessage : ArrWebhookPayload.t -> FormattedMessage.t).
Context (sendPushToAll : Db.D1Database -> NotificationPayload (push R) -> Env ->
                         Push.Task Counts -> Prop).

Definition handleHealth : Task Response :=
  mret {| status := 200; headers := []; body := Text "OK" |}.

Definition handleFrontend (env : Env) : Task Response :=
  html ← call (Frontend.getFrontendHtml (page_head R) (page_tail R)
                 (VAPID_PUBLIC_KEY env));
  mret {| status := 200; headers := [("Content-Type", "text/html")]; body := Text html |}.

Definition handleServiceWorker : Task Response :=
  mret {| status := 200; headers := [("Content-Type", "application/javascript")];
          body := Text (SERVICE_WORKER_CODE R) |}.

Definition handleIcon : Task Response :=
  mret {| status := 200;
          headers := [("Content-Type", "image/svg+xml");
                      ("Cache-Control", "public, max-age=86400")];
          body := Text (icon_svg R) |}.

Definition handleManifest : Task Response :=
  mret (json_response (MANIFEST R)).

Definition handleSubscribe (req : Request) : Task Response :=
  subscription ← call (json req);
  let userAgent := Db.string_or_null (headers_get req "User-Agent") in
  _ ← emit (SaveSubscription subscription userAgent);
  _ ← call (d1_save_subscription R subscription userAgent);
  mret (json_response (JObject [("success", JBool true)])).

Definition handleUnsubscribe (req : Request) : Task Response :=
  subscription ← call (json req);
  endpoint ← call (get subscription "endpoint");
  _ ← emit (Unsubscribe endpoint);
  _ ← call (d1_unsubscribe R endpoint);
  mret (json_response (JObject [("success", JBool true)])).

Definition handleLog (req : Request) : Task Response :=
  let data := match json req with Ok value => value | Throw _ => JObject [] end in
  message ← call (get data "message");
  _ ← emit (ConsoleLog message);
  mret {| status := 200; headers := []; body := Text "OK" |}.

(** The webhook of a request: [req.json()], or [JSON.parse(req.text())]
    when the content type does not say JSON. *)
Definition received (req : Request) : Result ArrWebhookPayload.t :=
  let contentType := default "" (Db.string_or_null (headers_get req "Content-Type")) in
  (if Encryption.includes contentType "application/json" then json req
   else text req ≫= JSON_parse R) ≫= read_webhook R.

(** The call of [saveNotification] for a message. *)
Definition history (webhook : ArrWebhookPayload.t) (message : FormattedMessage.t)
  : Event :=
  SaveNotification (FormattedMessage.title message) (FormattedMessage.body message)
    (JSON_stringify R webhook) (FormattedMessage.eventType message).

(** [pushPayload] of [handleWebhook]. *)
Definition pushPayload (message : FormattedMessage.t) : Notification :=
  {| title := FormattedMessage.title message;
     body_text := FormattedMessage.body message;
     icon := "/icon-192.png";
     badge := "/badge-72.png";
     tag := FormattedMessage.eventType message;
     data := FormattedMessage.data message |}.

Definition handleWebhook (req : Request) (env : Env) (db : Db.D1Database)
  : Runs Response :=
  match received req with
  | Throw e => exactly ([], Throw e)
  | Ok webhook =>
      let message := formatArrMessage webhook in
      let saved :=
        _ ← emit (history webhook message);
        call (d1_save_notification R (FormattedMessage.title message)
                (FormattedMessage.body message) (JSON_stringify R webhook)
                (FormattedMessage.eventType message)) in
      fun run =>
        match saved with
        | (tr, Throw e) => run = (tr, Throw e)
        | (tr, Ok _) =>
            exists sent_run,
              sendPushToAll db (payload R (pushPayload message)) env sent_run
              /\ run = (tr ++ map Delivery (fst sent_run),
                        (fun result =>
                           json_response
                             (JObject [("success", JBool true);
                                       ("sent", JNumber (sent result));
                                       ("failed", JNumber (failed result))]))
                        <$> snd sent_run)
        end
  end.

Definition testPayload : Notification :=
  {| title := "Test Notification";
     body_text := "CloudNotifiarr is working correctly!";
     icon := "/icon-192.png";
     badge := "/badge-72.png";
     tag := "test";
     data := [("url", "/")] |}.

Definition handleTest (req : Request) (env : Env) (db : Db.D1Database)
  : Runs Response :=
  let body := match json req with Ok value => value | Throw _ => JObject [] end in
  match get body "endpoint" with
  | Throw e => exactly ([], Throw e)
  | Ok targetEndpoint =>
  if truthy targetEndpoint then
      exactly
        (endpoint ← call (match targetEndpoint with
                          | Some (JString s) => Ok s
                          | Some value => bound_text R value
                          | None => Ok ""
                          end);
         detail ← delivery (Push.sendNotificationToSubscription (push R) db endpoint
                              (payload R testPayload) env);
         mret (json_response
                 (JObject [("success", JBool true);
                           ("message", JString "Test notification sent");
                           ("sent", JNumber (if Outcome.success detail then 1 else 0));
                           ("failed", JNumber (if Outcome.success detail then 0 else 1));
                           ("debug",
                            JObject [("status", JNumber (Outcome.status detail));
                                     ("message", JString (Outcome.statusText detail))])])))
  else
      fun run =>
        exists sent_run,
          sendPushToAll db (payload R testPayload) env sent_run
          /\ run = (map Delivery (fst sent_run),
                    (fun result =>
                       json_response
                         (JObject [("success", JBool true);
                                   ("message", JString "Test notification sent");
                                   ("sent", JNumber (sent result));
                                   ("failed", JNumber (failed result))]))
                    <$> snd sent_run)
  end.

Definition handleStats (db : Db.D1Database) : Task Response :=
  mret (json_response
          (JObject [("active_subscriptions",
                     JNumber (Z.of_nat (length (Db.getActiveSubscriptions db))))])).

Definition handleNotifications (req : Request) : Task Response :=
  notifications ← call (recent_notifications R (searchParams_get req "limit"));
  mret (json_response notifications).

Definition notFound : Response :=
  {| status := 404; headers := []; body := Text "Not Found" |}.

(** The [catch] block of both versions of the worker. *)
Definition rescue (error : Exception) : Task Response :=
  _ ← emit (WorkerError error);
  mret {| status := 500; headers := json_headers;
          body := Stringified
                    (JObject [("error",
                               JString (if String.eqb (exn_message error) ""
                                        then Exception_toString error
                                        else exn_message error))]) |}.

End Handlers.

(** How a block of statements that awaits nothing ends: by [return value],
    where the value may be a promise, or by a [throw]. *)
Inductive Completion (A : Type) : Type :=
| Return (promise : Runs A)
| Thrown (error : Exception).

Arguments Return {A} promise.
Arguments Thrown {A} error.

(** [try { block } catch (error) { handler }] in an [async] function, for a
    block that awaits nothing.  A promise the block returns is not awaited
    inside the [try]: it is what the function resolves with, and when it
    rejects, so does the function, past the [catch]. *)
Definition try_return {A} (block : Completion A) (handler : Exception -> Task A)
  : Runs A :=
  match block with
  | Return promise => promise
  | Thrown error => exactly (handler error)
  end.

(** [try { block } catch (error) { handler }] for a block that awaits what
    it calls: a rejection is caught. *)
Definition try_await {A} (block : Runs A) (handler : Exception -> Task A) : Runs A :=
  fun run =>
    exists r, block r
      /\ run = match r with
               | (tr, Ok a) => (tr, Ok a)
               | (tr, Throw e) => let '(tr', result) := handler e in (tr ++ tr', result)
               end.

Section Routers.

Context (R : Runtime).

(** [handleRequest] of [src/router.ts].  Every handler is an [async]
    function, so calling one gives a promise and never throws. *)
Definition handleRequest (req : Request) (env : Env) (db : Db.D1Database)
  : Runs Response :=
  let path := pathname req in
  let method := method req in
  let on p := String.eqb path p in
  let via m := String.eqb method m in
  try_return
    (if on "/health" || on "/favicon.ico" then Return (exactly handleHealth)
     else if (on "/" || on "/index.html") && via "GET"
     then Return (exactly (handleFrontend R env))
     else if on "/sw.js" && via "GET" then Return (exactly (handleServiceWorker R))
     else if (on "/icon-192.png" || on "/badge-72.png") && via "GET"
     then Return (exactly (handleIcon R))
     else if on "/manifest.json" && via "GET" then Return (exactly (handleManifest R))
     else if on "/subscribe" && via "POST" then Return (exactly (handleSubscribe R req))
     else if on "/unsubscribe" && via "POST"
     then Return (exactly (handleUnsubscribe R req))
     else if on "/log" && via "POST" then Return (exactly (handleLog req))
     else if on "/webhook" && via "POST"
     then Return (handleWebhook R Format.formatArrMessage (Push.sendPushToAll (push R))
                    req env db)
     else if on "/test" && via "POST"
     then Return (handleTest R (Push.sendPushToAll (push R)) req env db)
     else if on "/stats" && via "GET" then Return (exactly (handleStats db))
     else if on "/notifications" && via "GET"
     then Return (exactly (handleNotifications R req))
     else if on "/vapid-public-key" && via "GET"
     then Return (exactly (mret {| status := 200;
                                   headers := [("Content-Type", "text/plain")];
                                   body := Text (VAPID_PUBLIC_KEY env) |}))
     else Return (exactly (mret notFound)))
    rescue.

(** The [try] block of [fetch] of the legacy [src/index.ts]: the code of
    every route is in the block and awaits what it calls; the routes of the
    page and its assets do not look at the method. *)
Definition legacy_routes (req : Request) (env : Env) (db : Db.D1Database)
  : Runs Response :=
  let path := pathname req in
  let method := method req in
  let on p := String.eqb path p in
  let via m := String.eqb method m in
  let send db payload env :=
    fun sent_run => sent_run = Push.Legacy.sendPushToAll (push R) db payload env in
  if on "/health" || on "/favicon.ico" then exactly handleHealth
  else if on "/log" && via "POST" then exactly (handleLog req)
  else if on "/" || on "/index.html" then exactly (handleFrontend R env)
  else if on "/sw.js" then exactly (handleServiceWorker R)
  else if on "/icon-192.png" || on "/badge-72.png" then exactly (handleIcon R)
  else if on "/manifest.json" then exactly (handleManifest R)
  else if on "/vapid-public-key" && via "GET"
  then exactly (mret {| status := 200;
                        headers := [("Content-Type", "text/plain")];
                        body := Text (VAPID_PUBLIC_KEY env) |})
  else if on "/subscribe" && via "POST" then exactly (handleSubscribe R req)
  else if on "/unsubscribe" && via "POST" then exactly (handleUnsubscribe R req)
  else if on "/webhook" && via "POST"
  then handleWebhook R (LegacyFormat.formatArrMessage (JSON_stringify R)) send
         req env db
  else if on "/notifications" && via "GET" then exactly (handleNotifications R req)
  else if on "/test" && via "POST" then handleTest R send req env db
  else if on "/stats" && via "GET" then exactly (handleStats db)
  else exactly (mret notFound).

Definition legacy_fetch (req : Request) (env : Env) (db : Db.D1Database)
  : Runs Response :=
  try_await (legacy_routes req env db) rescue.

End Routers.

End Worker.

(** A run that resolves or rejects past the [catch] block: no line of the
    block is in the log, and a response is not the block's. *)
Definition unrescued (run : Worker.Task Worker.Response) : Prop :=
  (forall e, Worker.WorkerError e ∉ fst run)
  /\ (forall response, snd run = Ok response -> Worker.status response <> 500).

(** The paths of the page and of what it loads. *)
Definition asset_paths : list string :=
  ["/"; "/index.html"; "/sw.js"; "/icon-192.png"; "/badge-72.png"; "/manifest.json"].

(** ** A fan-out over five subscribers *)

Module Demo.

Definition env : Push.Env := {|
  VAPID_PUBLIC_KEY := "BPublicKey";
  VAPID_PRIVATE_KEY := "AQID";
  CONTACT_EMAIL := "user@example.com";
|}.

Definition record (n : string) : Db.SubscriptionRecord := {|
  Db.endpoint := String.append "https://push.example.net/send/" n;
  Db.p256dh := p256dh (keys Fake.subscriber);
  Db.auth := auth (keys Fake.subscriber);
  Db.expiration_time := None;
  Db.user_agent := None;
  Db.created_at := 1700000000000;
  Db.updated_at := 1700000000000;
  Db.active := 1;
|}.

Definition db : Db.D1Database :=
  [record "1"; record "2"; record "3"; record "4"; record "5"].

(** Subscriber 3 is gone, the connection to subscriber 5 fails, the others
    accept the message. *)
Definition push_service (url : string) (request : Push.Request) : Result Push.Response :=
  if String.eqb url "https://push.example.net/send/3"
  then Ok {| status := 410; statusText := "Gone"; text := Ok "push subscription has unsubscribed" |}
  else if String.eqb url "https://push.example.net/send/5"
  then Throw (TypeError "fetch failed")
  else Ok {| status := 201; statusText := "Created"; text := Ok "" |}.

(** The functions of [./encryption] run on the deterministic platform, each
    call in the initial world. *)
Definition runtime : Push.Runtime := {|
  NotificationPayload := string;
  CryptoKey := EcdsaPrivateKey Fake.platform;
  JSON_stringify := fun payload => Ok payload;
  getAudience := fun _ => Ok "https://push.example.net";
  importVapidPrivateKey := fun key =>
    fst (Encryption.importVapidPrivateKey Fake.platform key world0);
  createVapidJwt := fun audience subject publicKey privateKey =>
    fst (Encryption.createVapidJwt Fake.platform audience subject publicKey privateKey
           world0);
  encryptPayload := fun plaintext subscription =>
    fst (Encryption.encryptPayload Fake.platform plaintext subscription world0);
  Push.push_service := push_service;
  d1_run := fun _ => Ok tt;
|}.

End Demo.

(** The token [createVapidJwt] returns on the deterministic platform. *)
Definition example_token : string :=
  Eval vm_compute in
    match fst (Encryption.createVapidJwt Fake.platform "https://push.example.net"
                 "user@example.com" "BPublicKey" [x01; x02; x03] world0) with
    | Ok token => token
    | Throw _ => ""
    end.

(** ** A worker over the five subscribers *)

Module Site.

Definition SyntaxError (message : string) : Exception :=
  {| exn_name := "SyntaxError"; exn_message := message |}.

(** A webhook with an event type and nothing else. *)
Definition bare (eventType : string) : ArrWebhookPayload.t :=
  {| ArrWebhookPayload.eventType := eventType;
     ArrWebhookPayload.series := None;
     ArrWebhookPayload.episode := None;
     ArrWebhookPayload.episodes := None;
     ArrWebhookPayload.movie := None;
     ArrWebhookPayload.release := None;
     ArrWebhookPayload.files := None;
     ArrWebhookPayload.downloadStatus := None;
     ArrWebhookPayload.package := None;
     ArrWebhookPayload.messages := None |}.

Definition read_webhook (value : Worker.Json) : Result ArrWebhookPayload.t :=
  match value with
  | Worker.JObject fields =>
      match snd <$> List.find (fun f => String.eqb (fst f) "eventType") fields with
      | Some (Worker.JString eventType) => Ok (bare eventType)
      | _ => Throw (TypeError "Cannot read properties of undefined (reading 'replace')")
      end
  | _ => Throw (TypeError "Cannot read properties of null (reading 'eventType')")
  end.

Definition runtime : Worker.Runtime := {|
  Worker.push := Demo.runtime;
  Worker.payload := fun notification =>
    String.concat "" [Worker.title notification; ": "; Worker.body_text notification];
  Worker.read_webhook := read_webhook;
  Worker.bound_text := fun _ => Throw (Error "D1_TYPE_ERROR");
  Worker.JSON_parse := fun _ => Throw (SyntaxError "Unexpected token");
  Worker.JSON_stringify := fun webhook => ArrWebhookPayload.eventType webhook;
  Worker.d1_save_subscription := fun _ _ => Ok tt;
  Worker.d1_unsubscribe := fun _ => Ok tt;
  Worker.d1_save_notification := fun _ _ _ _ => Ok tt;
  Worker.recent_notifications := fun _ => Ok (Worker.JArray []);
  Worker.page_head := "<!DOCTYPE html>";
  Worker.page_tail := "</html>";
  Worker.SERVICE_WORKER_CODE := "// service worker";
  Worker.icon_svg := "<svg/>";
  Worker.MANIFEST := Worker.JObject [("name", Worker.JString "CloudNotifiarr")];
|}.

Definition request (path method : string) (json : Result Worker.Json) : Worker.Request :=
  {| Worker.pathname := path;
     Worker.method := method;
     Worker.headers_get := fun name =>
       if String.eqb name "Content-Type" then Some "application/json" else None;
     Worker.json := json;
     Worker.text := Ok "";
     Worker.searchParams_get := fun _ => None |}.

(** A subscription request whose body is cut off. *)
Definition cut_off : Worker.Request :=
  request "/subscribe" "POST" (Throw (SyntaxError "Unexpected end of JSON input")).

(** A webhook of an event the formatter has no case for. *)
Definition manual_interaction : Worker.Request :=
  request "/webhook" "POST"
    (Ok (Worker.JObject [("eventType", Worker.JString "ManualInteractionRequired")])).


(** A webhook of an event both formatters have a case for. *)
Definition connection_test : Worker.Request :=
  request "/webhook" "POST" (Ok (Worker.JObject [("eventType", Worker.JString "Test")])).

End Site.

(** * Properties *)

Import Codec Encryption.

(** ** Results, bytes and the two monads *)

Lemma result_bind_Ok {A B} (r : Result A) (k : A -> Result B) (b : B) :
  r ≫= k = Ok b -> exists a, r = Ok a /\ k a = Ok b.
Proof. destruct r as [a|e]; simpl; [eauto | discriminate]. Qed.

Lemma result_bind_Throw {A B} (r : Result A) (k : A -> Result B) e :
  r ≫= k = Throw e ->
  r = Throw e \/ exists a, r = Ok a /\ k a = Throw e.
Proof. destruct r as [a|e']; simpl; [eauto | intros [= ->]; auto]. Qed.

Lemma Z_of_byte_range b : 0 <= Z_of_byte b < 256.
Proof.
  unfold Z_of_byte. pose proof (Byte.to_N_bounded b) as H.
  split; [apply N2Z.is_nonneg | lia].
Qed.

Lemma byte_of_Z_of_byte b : byte_of_Z (Z_of_byte b) = b.
Proof.
  unfold byte_of_Z. pose proof (Z_of_byte_range b) as H.
  rewrite Z.mod_small by lia. unfold Z_of_byte.
  rewrite N2Z.id, Byte.of_to_N. reflexivity.
Qed.

Lemma Z_of_byte_of_Z z : Z_of_byte (byte_of_Z z) = z mod 256.
Proof.
  unfold byte_of_Z, Z_of_byte.
  pose proof (Z.mod_pos_bound z 256 ltac:(lia)) as H.
  destruct (Byte.of_N (Z.to_N (z mod 256))) as [b|] eqn:E.
  - apply Byte.to_of_N in E. rewrite E. lia.
  - apply Byte.of_N_None_iff in E. lia.
Qed.

Example atob_hi : atob "aGk=" = Ok [x68; x69].
Proof. reflexivity. Qed.

Example atob_forgiving : atob " aG k" = Ok [x68; x69].
Proof. reflexivity. Qed.

Example atob_rejects_url_alphabet : atob "a-k=" = Throw InvalidCharacterError.
Proof. reflexivity. Qed.

Example btoa_hi : btoa "hi" = Ok "aGk=".
Proof. reflexivity. Qed.

Example base64UrlToArrayBuffer_url : base64UrlToArrayBuffer "-_8" = Ok [xfb; xff].
Proof. reflexivity. Qed.

Example base64UrlToArrayBuffer_std : base64UrlToArrayBuffer "+/8" = Ok [xfb; xff].
Proof. reflexivity. Qed.

Example arrayBufferToBase64Url_ex : arrayBufferToBase64Url [xfb; xff] = "-_8".
Proof. reflexivity. Qed.

Lemma M_bind_Ok {A B} (m : M A) (k : A -> M B) w b w2 :
  (m ≫= k) w = (Ok b, w2) ->
  exists a w1, m w = (Ok a, w1) /\ k a w1 = (Ok b, w2).
Proof.
  unfold mbind, M_bind. destruct (m w) as [[a|e] w1]; [eauto | discriminate].
Qed.

Lemma M_bind_Throw {A B} (m : M A) (k : A -> M B) w e w2 :
  (m ≫= k) w = (Throw e, w2) ->
  m w = (Throw e, w2) \/ exists a w1, m w = (Ok a, w1) /\ k a w1 = (Throw e, w2).
Proof.
  unfold mbind, M_bind. destruct (m w) as [[a|e'] w1]; [eauto | intros [= -> ->]; auto].
Qed.

Lemma lift_Ok {A} (r : Result A) w a w' :
  lift r w = (Ok a, w') -> r = Ok a /\ w' = w.
Proof. unfold lift. intros [= -> ->]. auto. Qed.

Lemma lift_Throw {A} (r : Result A) w e w' :
  lift r w = (Throw e, w') -> r = Throw e /\ w' = w.
Proof. unfold lift. intros [= -> ->]. auto. Qed.

(** ** Codec: what is written is read back *)

Lemma byte_of_Z_congr a b : a mod 256 = b mod 256 -> byte_of_Z a = byte_of_Z b.
Proof. unfold byte_of_Z. by intros ->. Qed.

(** Induction over a list three elements at a time. *)
Lemma list_ind3 {A} (Q : list A -> Prop) :
  Q [] -> (forall a, Q [a]) -> (forall a b, Q [a; b]) ->
  (forall a b c rest, Q rest -> Q (a :: b :: c :: rest)) ->
  forall l, Q l.
Proof.
  intros H0 H1 H2 H3 l.
  assert (H : Q l /\ (forall a, Q (a :: l)) /\ (forall a b, Q (a :: b :: l))).
  { induction l as [|x l (IH0 & IH1 & IH2)]; [by auto|].
    split; [apply IH1|]. split; [intros a; apply IH2|]. intros a b. by apply H3. }
  apply H.
Qed.

Lemma padding_of_cons3 a b c rest : padding_of (a :: b :: c :: rest) = padding_of rest.
Proof.
  unfold padding_of. cbn [length].
  replace (S (S (S (length rest)))) with (length rest + 1 * 3)%nat by lia.
  by rewrite Nat.Div0.mod_add.
Qed.

Lemma btoa_units_sextets (l : list byte) :
  btoa_units l = map b64_char (sextets l) ++ repeat "="%char (padding_of l).
Proof.
  induction l as [|a|a b|a b c rest IH] using list_ind3; try reflexivity.
  cbn [btoa_units sextets map]. rewrite IH, padding_of_cons3. reflexivity.
Qed.

Lemma length_sextets_mod (l : list byte) :
  ((length (sextets l) + padding_of l) mod 4 = 0)%nat
  /\ (padding_of l <= 2)%nat
  /\ (length (sextets l) mod 4 <> 1)%nat.
Proof.
  induction l as [|a|a b|a b c rest (IH1 & IH2 & IH3)] using list_ind3;
    try (repeat split; cbn; lia).
  rewrite padding_of_cons3. cbn [sextets length].
  replace (S (S (S (S (length (sextets rest))))) + padding_of rest)%nat
    with (length (sextets rest) + padding_of rest + 1 * 4)%nat by lia.
  replace (S (S (S (S (length (sextets rest))))))%nat
    with (length (sextets rest) + 1 * 4)%nat by lia.
  rewrite !Nat.Div0.mod_add. done.
Qed.

(** *** Arithmetic of the groups *)

Lemma land_shiftl_small x y k :
  0 <= k -> 0 <= y < 2 ^ k -> Z.land (Z.shiftl x k) y = 0.
Proof.
  intros Hk Hy. apply Z.bits_inj'. intros n Hn.
  rewrite Z.land_spec, Z.bits_0.
  destruct (Z.ltb_spec n k).
  - by rewrite Z.shiftl_spec_low.
  - destruct (Z.eq_dec y 0) as [->|Hy0]; [by rewrite Z.bits_0, andb_false_r|].
    rewrite (Z.bits_above_log2 y n), andb_false_r; [done|lia|].
    apply Z.log2_lt_pow2; [lia|].
    assert (2 ^ k <= 2 ^ n) by (apply Z.pow_le_mono_r; lia). lia.
Qed.

Lemma lor_shiftl_add x y k :
  0 <= k -> 0 <= y < 2 ^ k -> Z.lor (Z.shiftl x k) y = x * 2 ^ k + y.
Proof.
  intros Hk Hy.
  rewrite <- Z.lxor_lor, <- Z.add_nocarry_lxor by (by apply land_shiftl_small).
  by rewrite Z.shiftl_mul_pow2.
Qed.

Lemma land_63 x : Z.land x 63 = x mod 64.
Proof. change 63 with (Z.ones 6). by rewrite Z.land_ones. Qed.

Lemma triple_value a b c :
  Z.lor (Z.lor (Z.shiftl (Z_of_byte a) 16) (Z.shiftl (Z_of_byte b) 8)) (Z_of_byte c)
  = Z_of_byte a * 65536 + Z_of_byte b * 256 + Z_of_byte c.
Proof.
  pose proof (Z_of_byte_range a). pose proof (Z_of_byte_range b).
  pose proof (Z_of_byte_range c).
  rewrite (lor_shiftl_add (Z_of_byte a) (Z.shiftl (Z_of_byte b) 8) 16)
    by (rewrite ?Z.shiftl_mul_pow2 by lia; lia).
  rewrite Z.shiftl_mul_pow2 by lia.
  replace (Z_of_byte a * 2 ^ 16 + Z_of_byte b * 2 ^ 8)
    with (Z.shiftl (Z_of_byte a * 256 + Z_of_byte b) 8)
    by (rewrite ?Z.shiftl_mul_pow2 by lia; lia).
  rewrite lor_shiftl_add by lia. lia.
Qed.

Lemma quad_value s0 s1 s2 s3 :
  0 <= s0 < 64 -> 0 <= s1 < 64 -> 0 <= s2 < 64 -> 0 <= s3 < 64 ->
  Z.lor (Z.lor (Z.shiftl s0 18) (Z.shiftl s1 12)) (Z.lor (Z.shiftl s2 6) s3)
  = s0 * 262144 + s1 * 4096 + s2 * 64 + s3.
Proof.
  intros H0 H1 H2 H3.
  rewrite (lor_shiftl_add s2 s3 6) by lia.
  rewrite (lor_shiftl_add s0 (Z.shiftl s1 12) 18)
    by (rewrite ?Z.shiftl_mul_pow2 by lia; lia).
  rewrite Z.shiftl_mul_pow2 by lia.
  replace (s0 * 2 ^ 18 + s1 * 2 ^ 12) with (Z.shiftl (s0 * 64 + s1) 12)
    by (rewrite ?Z.shiftl_mul_pow2 by lia; lia).
  rewrite lor_shiftl_add by lia. lia.
Qed.

Lemma sextet_of n k : 0 <= k -> Z.land (Z.shiftr n k) 63 = (n / 2 ^ k) mod 64.
Proof. intros Hk. by rewrite land_63, Z.shiftr_div_pow2. Qed.

Lemma decode_three a b c :
  let n := Z_of_byte a * 65536 + Z_of_byte b * 256 + Z_of_byte c in
  let m := (n / 2 ^ 18) mod 64 * 262144 + (n / 2 ^ 12) mod 64 * 4096
           + (n / 2 ^ 6) mod 64 * 64 + n mod 64 in
  m = n.
Proof.
  pose proof (Z_of_byte_range a). pose proof (Z_of_byte_range b).
  pose proof (Z_of_byte_range c). intros n m. subst m.
  assert (0 <= n < 2 ^ 24) by (subst n; lia).
  clearbody n. change (2 ^ 18) with 262144. change (2 ^ 12) with 4096.
  change (2 ^ 6) with 64. change (2 ^ 24) with 16777216 in *.
  Z.div_mod_to_equations. lia.
Qed.

Lemma byte_of_Z_eq z b : z mod 256 = Z_of_byte b -> byte_of_Z z = b.
Proof.
  intros H. rewrite <- (byte_of_Z_of_byte b). apply byte_of_Z_congr.
  pose proof (Z_of_byte_range b). by rewrite H, (Z.mod_small (Z_of_byte b)) by lia.
Qed.

Lemma mod_64_range z : 0 <= z mod 64 < 64.
Proof. apply Z.mod_pos_bound. lia. Qed.

Lemma decode_sextets (l : list byte) :
  b64_decode_groups (map (fun v => Z.land v 63) (sextets l)) = l.
Proof.
  induction l as [|a|a b|a b c rest IH] using list_ind3.
  - reflexivity.
  - pose proof (Z_of_byte_range a).
    cbn [sextets map b64_decode_groups]. rewrite !sextet_of by lia.
    rewrite (Z.shiftl_mul_pow2 (Z_of_byte a)) by lia.
    set (n := Z_of_byte a * 2 ^ 16).
    pose proof (mod_64_range (n / 2 ^ 18)). pose proof (mod_64_range (n / 2 ^ 12)).
    rewrite (lor_shiftl_add _ (Z.shiftl _ 12) 18)
      by (rewrite ?Z.shiftl_mul_pow2 by lia; lia).
    rewrite Z.shiftl_mul_pow2, Z.shiftr_div_pow2 by lia.
    f_equal. apply byte_of_Z_eq. subst n.
    change (2 ^ 18) with 262144. change (2 ^ 12) with 4096.
    change (2 ^ 16) with 65536.
    Z.div_mod_to_equations. lia.
  - pose proof (Z_of_byte_range a). pose proof (Z_of_byte_range b).
    cbn [sextets map b64_decode_groups]. rewrite !sextet_of by lia.
    rewrite (lor_shiftl_add (Z_of_byte a) (Z.shiftl (Z_of_byte b) 8) 16)
      by (rewrite ?Z.shiftl_mul_pow2 by lia; lia).
    rewrite (Z.shiftl_mul_pow2 (Z_of_byte b)) by lia.
    set (n := Z_of_byte a * 2 ^ 16 + Z_of_byte b * 2 ^ 8).
    pose proof (mod_64_range (n / 2 ^ 18)). pose proof (mod_64_range (n / 2 ^ 12)).
    pose proof (mod_64_range (n / 2 ^ 6)).
    rewrite <- (Z.lor_0_r (Z.shiftl ((n / 2 ^ 6) mod 64) 6)).
    rewrite quad_value by lia.
    rewrite !Z.shiftr_div_pow2 by lia.
    f_equal; [|f_equal]; apply byte_of_Z_eq; subst n;
      change (2 ^ 18) with 262144; change (2 ^ 12) with 4096;
      change (2 ^ 16) with 65536; change (2 ^ 8) with 256; change (2 ^ 6) with 64;
      Z.div_mod_to_equations; lia.
  - pose proof (Z_of_byte_range a). pose proof (Z_of_byte_range b).
    pose proof (Z_of_byte_range c).
    cbn [sextets map b64_decode_groups]. rewrite IH, triple_value.
    rewrite !sextet_of, land_63 by lia.
    rewrite quad_value by apply mod_64_range.
    pose proof (decode_three a b c) as Hm. cbv zeta in Hm. rewrite Hm. clear Hm.
    set (n := Z_of_byte a * 65536 + Z_of_byte b * 256 + Z_of_byte c).
    rewrite !Z.shiftr_div_pow2 by lia.
    f_equal; [|f_equal; [|f_equal]]; apply byte_of_Z_eq; subst n;
      change (2 ^ 16) with 65536; change (2 ^ 8) with 256;
      Z.div_mod_to_equations; lia.
Qed.

(** *** Characters of the alphabet *)

Lemma b64_alphabet_facts (k : nat) :
  (k < 64)%nat ->
  let c := nth k b64_alphabet "="%char in
  b64_digit c = Some (Z.of_nat k)
  /\ is_ascii_whitespace c = false
  /\ of_url (to_url c) = c
  /\ to_url c <> "="%char
  /\ c <> "="%char.
Proof.
  intros Hk.
  do 64 (destruct k as [|k]; [vm_compute; repeat split; discriminate|]).
  lia.
Qed.

Lemma b64_char_facts (v : Z) :
  let c := b64_char v in
  b64_digit c = Some (Z.land v 63)
  /\ is_ascii_whitespace c = false
  /\ of_url (to_url c) = c
  /\ to_url c <> "="%char
  /\ c <> "="%char.
Proof.
  unfold b64_char. rewrite land_63.
  pose proof (mod_64_range v) as Hv.
  destruct (b64_alphabet_facts (Z.to_nat (v mod 64))) as (H1 & H2); [lia|].
  split; [|exact H2]. rewrite H1. f_equal. lia.
Qed.

(** *** Strings as lists of characters *)

Lemma replace_all_list (from to : ascii) (l : list ascii) :
  replace_all from to (string_of_list_ascii l)
  = string_of_list_ascii (map (fun c => if Ascii.eqb c from then to else c) l).
Proof. induction l as [|c l IH]; [done|]. cbn. by rewrite IH. Qed.

Lemma remove_all_padding (c0 : ascii) (l : list ascii) (p : nat) :
  Forall (fun c => c <> c0) l ->
  remove_all c0 (string_of_list_ascii (l ++ repeat c0 p)) = string_of_list_ascii l.
Proof.
  induction 1 as [|c l Hc _ IH]; cbn.
  - induction p as [|p IH]; [done|]. cbn. by rewrite Ascii.eqb_refl.
  - rewrite IH. by apply Ascii.eqb_neq in Hc as ->.
Qed.

Lemma length_string_of_list_ascii (l : list ascii) :
  String.length (string_of_list_ascii l) = length l.
Proof. induction l as [|c l IH]; [done|]. cbn. by rewrite IH. Qed.

Lemma append_padding (l : list ascii) (p : nat) :
  String.append (string_of_list_ascii l) (string_repeat "=" p)
  = string_of_list_ascii (l ++ repeat "="%char p).
Proof.
  induction l as [|c l IH]; cbn.
  - induction p as [|p IH]; [done|]. cbn. by rewrite <- IH.
  - by rewrite <- IH.
Qed.

Lemma strip_padding_padded (l : list ascii) (p : nat) :
  Forall (fun c => c <> "="%char) l ->
  (p <= 2)%nat ->
  ((length l + p) mod 4 = 0)%nat ->
  strip_padding (l ++ repeat "="%char p) = l.
Proof.
  intros Hl Hp Hlen. unfold strip_padding.
  rewrite length_app, repeat_length, Hlen. cbn [Nat.eqb].
  rewrite rev_app_distr.
  assert (Hhead : forall c r, rev l = c :: r -> c <> "="%char).
  { intros c r E. rewrite List.Forall_forall in Hl. apply Hl.
    apply in_rev. rewrite E. by left. }
  destruct p as [|[|[|p]]]; [| | |lia]; cbn [repeat rev app].
  - rewrite app_nil_r. destruct (rev l) as [|c r] eqn:E; [done|].
    specialize (Hhead c r eq_refl).
    destruct c as [[] [] [] [] [] [] [] []]; try reflexivity. by destruct Hhead.
  - destruct (rev l) as [|c r] eqn:E.
    + by rewrite <- (rev_involutive l), E.
    + specialize (Hhead c r eq_refl). rewrite <- E, rev_involutive.
      destruct c as [[] [] [] [] [] [] [] []]; try reflexivity. by destruct Hhead.
  - by rewrite rev_involutive.
Qed.

Lemma filter_no_whitespace (l : list ascii) :
  Forall (fun c => is_ascii_whitespace c = false) l ->
  filter (fun c => is_ascii_whitespace c = false) l = l.
Proof.
  induction 1 as [|c l Hc _ IH]; [done|].
  rewrite filter_cons. destruct (decide _); [by rewrite IH|done].
Qed.

Lemma b64_digits_chars (vs : list Z) :
  b64_digits (map b64_char vs) = Some (map (fun v => Z.land v 63) vs).
Proof.
  induction vs as [|v vs IH]; [done|]. cbn [map b64_digits].
  destruct (b64_char_facts v) as (-> & _). by rewrite IH.
Qed.

Lemma padding_of_length (l : list byte) :
  ((4 - length (sextets l) mod 4) mod 4 = padding_of l)%nat.
Proof.
  destruct (length_sextets_mod l) as (H1 & H2 & H3).
  rewrite <- Nat.Div0.add_mod_idemp_l in H1.
  pose proof (Nat.mod_upper_bound (length (sextets l)) 4) as Hr.
  destruct (length (sextets l) mod 4)%nat as [|[|[|[|r]]]]; [| | | |lia];
    destruct (padding_of l) as [|[|[|p]]]; try lia; try done.
Qed.

Lemma arrayBufferToBase64Url_chars (buffer : list byte) :
  arrayBufferToBase64Url buffer
  = string_of_list_ascii (map to_url (map b64_char (sextets buffer))).
Proof.
  unfold arrayBufferToBase64Url.
  rewrite btoa_units_sextets, !replace_all_list, !map_app, !map_repeat, !map_map.
  cbn [Ascii.eqb Bool.eqb].
  apply remove_all_padding.
  apply List.Forall_forall. intros c (v & <- & _)%in_map_iff.
  apply (b64_char_facts v).
Qed.

(** X1. What [arrayBufferToBase64Url] writes, [base64UrlToArrayBuffer] reads
    back: the bytes of a key or of a signature survive their text form. *)
Theorem base64UrlToArrayBuffer_arrayBufferToBase64Url (buffer : list byte) :
  base64UrlToArrayBuffer (arrayBufferToBase64Url buffer) = Ok buffer.
Proof.
  rewrite arrayBufferToBase64Url_chars.
  unfold base64UrlToArrayBuffer, base64UrlToBase64.
  rewrite length_string_of_list_ascii, !length_map, padding_of_length.
  rewrite !replace_all_list, !map_map, append_padding.
  rewrite (map_ext _ b64_char) by (intros v; apply (b64_char_facts v)).
  unfold atob. rewrite list_ascii_of_string_of_list_ascii.
  destruct (length_sextets_mod buffer) as (H1 & H2 & H3).
  assert (Hchars : Forall (fun c => c <> "="%char) (map b64_char (sextets buffer))).
  { apply List.Forall_forall. intros c (v & <- & _)%in_map_iff.
    apply (b64_char_facts v). }
  rewrite filter_no_whitespace.
  2:{ apply Forall_app. split.
      - apply List.Forall_forall. intros c (v & <- & _)%in_map_iff.
        apply (b64_char_facts v).
      - apply List.Forall_forall. by intros c ->%repeat_spec. }
  rewrite strip_padding_padded by (rewrite ?length_map; done).
  rewrite length_map. apply Nat.eqb_neq in H3 as ->.
  by rewrite b64_digits_chars, decode_sextets.
Qed.

(** ** Buffers *)

Lemma Uint8Array_new_app a b :
  Uint8Array_new (a + b) = Uint8Array_new a ++ Uint8Array_new b.
Proof. unfold Uint8Array_new. apply repeat_app. Qed.

Lemma Uint8Array_new_length n : length (Uint8Array_new n) = n.
Proof. apply repeat_length. Qed.

(** Writing [src] right after the part already written keeps that part and
    leaves the rest of the buffer zeroed. *)
Lemma Uint8Array_set_next (pre src : list byte) (n : nat) :
  Uint8Array_set (pre ++ Uint8Array_new (length src + n)) src (length pre)
  = Ok ((pre ++ src) ++ Uint8Array_new n).
Proof.
  unfold Uint8Array_set.
  rewrite length_app, Uint8Array_new_length.
  destruct (Nat.leb_spec (length pre + length src) (length pre + (length src + n)));
    [| lia].
  f_equal. rewrite take_app_length, drop_app_add, Uint8Array_new_app.
  rewrite drop_app_length' by (symmetry; apply Uint8Array_new_length).
  by rewrite <- app_assoc.
Qed.

Lemma Uint8Array_set_first (src : list byte) (n : nat) :
  Uint8Array_set (Uint8Array_new (length src + n)) src 0 = Ok (src ++ Uint8Array_new n).
Proof. apply (Uint8Array_set_next [] src n). Qed.

Lemma Uint8Array_set_last (pre src : list byte) :
  Uint8Array_set (pre ++ Uint8Array_new (length src)) src (length pre) = Ok (pre ++ src).
Proof.
  rewrite <- (Nat.add_0_r (length src)) at 1.
  rewrite Uint8Array_set_next. simpl. by rewrite app_nil_r.
Qed.

(** ** Encryption: what a returned frame is made of *)

Section EncryptionFacts.
Context (P : Platform) (key_pair : EcPrivateKey P -> EcPublicKey P -> Prop).
Context (laws : WebCryptoLaws P key_pair).

Lemma hkdf_run salt ikm info n w :
  hkdf P salt ikm info n w = (hkdf_result P salt ikm info n, w).
Proof.
  unfold hkdf, hkdf_result, mbind, M_bind, result_bind, lift.
  destruct (importKey_raw_HKDF P ikm); reflexivity.
Qed.

Lemma Uint8Array_set_inv (pre a : list byte) (m n off : nat) (r : list byte) :
  m = (length a + n)%nat -> off = length pre ->
  Uint8Array_set (pre ++ Uint8Array_new m) a off = Ok r ->
  r = (pre ++ a) ++ Uint8Array_new n.
Proof.
  intros -> ->. rewrite Uint8Array_set_next. by intros [= <-].
Qed.

Lemma Uint8Array_set_inv_last (pre a : list byte) (m off : nat) (r : list byte) :
  m = length a -> off = length pre ->
  Uint8Array_set (pre ++ Uint8Array_new m) a off = Ok r ->
  r = pre ++ a.
Proof.
  intros -> ->. rewrite Uint8Array_set_last. by intros [= <-].
Qed.

Lemma encryptPayload_steps plaintext subscription w frame w' :
  encryptPayload P plaintext subscription w = (Ok frame, w') ->
  encryption_steps P plaintext subscription w frame /\ w' = after_encryption w.
Proof.
  unfold encryptPayload. intros H.
  apply M_bind_Ok in H as ([sk pk] & w1 & Hgen & H).
  unfold generateKey in Hgen. injection Hgen as Hgen <-.
  apply M_bind_Ok in H as (rpk & w1 & H1 & H). apply lift_Ok in H1 as [Hp256 ->].
  apply M_bind_Ok in H as (rk & w1 & H1 & H). apply lift_Ok in H1 as [Himp ->].
  apply M_bind_Ok in H as (ss & w1 & H1 & H). apply lift_Ok in H1 as [Hss ->].
  apply M_bind_Ok in H as (au & w1 & H1 & H). apply lift_Ok in H1 as [Hau ->].
  apply M_bind_Ok in H as (eph & w1 & H1 & H). apply lift_Ok in H1 as [Heph ->].
  apply M_bind_Ok in H as (i1 & w1 & H1 & H). apply lift_Ok in H1 as [Hi1 ->].
  apply M_bind_Ok in H as (i2 & w1 & H1 & H). apply lift_Ok in H1 as [Hi2 ->].
  apply M_bind_Ok in H as (i3 & w1 & H1 & H). apply lift_Ok in H1 as [Hi3 ->].
  apply (Uint8Array_set_inv [] _ _ (length rpk + length eph)) in Hi1; [|lia|done].
  subst i1.
  apply (Uint8Array_set_inv _ _ _ (length eph)) in Hi2; [|lia|done]. subst i2.
  apply Uint8Array_set_inv_last in Hi3; [|lia|rewrite length_app; done]. subst i3.
  rewrite <- app_assoc in H.
  apply M_bind_Ok in H as (ikm & w1 & H1 & H). rewrite hkdf_run in H1.
  injection H1 as Hikm <-.
  apply M_bind_Ok in H as (salt & w1 & H1 & H). unfold randomBytes in H1.
  injection H1 as <- <-.
  apply M_bind_Ok in H as (cekRaw & w1 & H1 & H). rewrite hkdf_run in H1.
  injection H1 as Hcek <-.
  apply M_bind_Ok in H as (nonce & w1 & H1 & H). rewrite hkdf_run in H1.
  injection H1 as Hnonce <-.
  apply M_bind_Ok in H as (cek & w1 & H1 & H). apply lift_Ok in H1 as [Hcekimp ->].
  apply M_bind_Ok in H as (in1 & w1 & H1 & H). apply lift_Ok in H1 as [Hin1 ->].
  apply M_bind_Ok in H as (in2 & w1 & H1 & H). apply lift_Ok in H1 as [Hin2 ->].
  apply (Uint8Array_set_inv [] _ _ 1) in Hin1; [|simpl; lia|done]. subst in1.
  apply Uint8Array_set_inv_last in Hin2; [|simpl; lia|done]. subst in2.
  apply M_bind_Ok in H as (enc & w1 & H1 & H). apply lift_Ok in H1 as [Henc ->].
  apply M_bind_Ok in H as (r1 & w1 & H1 & H). apply lift_Ok in H1 as [Hr1 ->].
  apply M_bind_Ok in H as (r2 & w1 & H1 & H). apply lift_Ok in H1 as [Hr2 ->].
  apply M_bind_Ok in H as (r3 & w1 & H1 & H). apply lift_Ok in H1 as [Hr3 ->].
  apply M_bind_Ok in H as (r4 & w1 & H1 & H). apply lift_Ok in H1 as [Hr4 ->].
  apply M_bind_Ok in H as (r5 & w1 & H1 & H). apply lift_Ok in H1 as [Hr5 ->].
  injection H as <- <-.
  pose proof (getRandomValues_length P key_pair laws (random_calls w) 16) as Hsalt.
  set (salt := getRandomValues P (random_calls w) 16) in *.
  apply (Uint8Array_set_inv [] _ _ (4 + 1 + length eph + length enc)) in Hr1;
    [|lia|done]. subst r1.
  apply (Uint8Array_set_inv _ _ _ (1 + length eph + length enc)) in Hr2;
    [|simpl; lia|simpl; lia]. subst r2.
  apply (Uint8Array_set_inv _ _ _ (length eph + length enc)) in Hr3;
    [|simpl; lia|rewrite !length_app; simpl; lia]. subst r3.
  apply (Uint8Array_set_inv _ _ _ (length enc)) in Hr4;
    [|simpl; lia|rewrite !length_app; simpl; lia]. subst r4.
  apply Uint8Array_set_inv_last in Hr5;
    [|simpl; lia|rewrite !length_app; simpl; lia]. subst r5.
  split; [|reflexivity].
  econstructor; eauto.
  rewrite <- !app_assoc. reflexivity.
Qed.

Lemma Uint8Array_set_eq (pre a : list byte) (m n off : nat) :
  m = (length a + n)%nat -> off = length pre ->
  Uint8Array_set (pre ++ Uint8Array_new m) a off = Ok ((pre ++ a) ++ Uint8Array_new n).
Proof. intros -> ->. apply Uint8Array_set_next. Qed.

Lemma Uint8Array_set_eq_last (pre a : list byte) (m off : nat) :
  m = length a -> off = length pre ->
  Uint8Array_set (pre ++ Uint8Array_new m) a off = Ok (pre ++ a).
Proof. intros -> ->. apply Uint8Array_set_last. Qed.

Lemma M_bind_lift {A B} (r : Result A) (a : A) (k : A -> M B) w :
  r = Ok a -> (lift r ≫= k) w = k a w.
Proof. intros ->. reflexivity. Qed.

Lemma M_bind_hkdf {B} salt ikm info n out (k : list byte -> M B) w :
  hkdf_result P salt ikm info n = Ok out -> (hkdf P salt ikm info n ≫= k) w = k out w.
Proof.
  intros H. unfold mbind at 1, M_bind. by rewrite hkdf_run, H.
Qed.

Lemma steps_encryptPayload plaintext subscription w frame :
  encryption_steps P plaintext subscription w frame ->
  encryptPayload P plaintext subscription w = (Ok frame, after_encryption w).
Proof.
  intros [sk pk rpk rk ss au eph ikm cekRaw nonce cek enc
            Hgen Hp256 Himp Hss Hau Heph Hikm Hcek Hnonce Hcekimp Henc ->].
  pose proof (getRandomValues_length P key_pair laws (random_calls w) 16) as Hsalt.
  unfold encryptPayload.
  unfold mbind at 1, M_bind at 1, generateKey at 1. rewrite Hgen.
  rewrite (M_bind_lift _ _ _ _ Hp256), (M_bind_lift _ _ _ _ Himp),
    (M_bind_lift _ _ _ _ Hss), (M_bind_lift _ _ _ _ Hau), (M_bind_lift _ _ _ _ Heph).
  erewrite M_bind_lift
    by (apply (Uint8Array_set_eq [] _ _ (length rpk + length eph)); [lia|done]).
  erewrite M_bind_lift by (apply (Uint8Array_set_eq _ _ _ (length eph)); [lia|done]).
  erewrite M_bind_lift
    by (apply Uint8Array_set_eq_last; [lia|by rewrite length_app]).
  rewrite <- app_assoc, (M_bind_hkdf _ _ _ _ _ _ _ Hikm).
  unfold mbind at 1, M_bind at 1, randomBytes at 1.
  rewrite (M_bind_hkdf _ _ _ _ _ _ _ Hcek), (M_bind_hkdf _ _ _ _ _ _ _ Hnonce).
  rewrite (M_bind_lift _ _ _ _ Hcekimp).
  cbn [random_calls keygen_calls clock_reads sign_calls].
  erewrite M_bind_lift by (apply (Uint8Array_set_eq [] _ _ 1); [simpl; lia|done]).
  erewrite M_bind_lift by (apply Uint8Array_set_eq_last; [simpl; lia|done]).
  rewrite (M_bind_lift _ _ _ _ Henc).
  set (salt := getRandomValues P (random_calls w) 16) in *.
  erewrite M_bind_lift
    by (apply (Uint8Array_set_eq [] _ _ (4 + 1 + length eph + length enc)); [lia|done]).
  erewrite M_bind_lift
    by (apply (Uint8Array_set_eq _ _ _ (1 + length eph + length enc));
        [simpl; lia|simpl; lia]).
  erewrite M_bind_lift
    by (apply (Uint8Array_set_eq _ _ _ (length eph + length enc));
        [simpl; lia|rewrite !length_app; simpl; lia]).
  erewrite M_bind_lift
    by (apply (Uint8Array_set_eq _ _ _ (length enc));
        [simpl; lia|rewrite !length_app; simpl; lia]).
  erewrite M_bind_lift
    by (apply Uint8Array_set_eq_last; [simpl; lia|rewrite !length_app; simpl; lia]).
  rewrite <- !app_assoc. reflexivity.
Qed.

Lemma encryptPayload_Ok_iff plaintext subscription w frame w' :
  encryptPayload P plaintext subscription w = (Ok frame, w') <->
  encryption_steps P plaintext subscription w frame /\ w' = after_encryption w.
Proof.
  split; [apply encryptPayload_steps|].
  intros [H ->]. by apply steps_encryptPayload.
Qed.

(** The parts of a frame, once the platform's laws fix their sizes. *)
Lemma encryptPayload_parts plaintext subscription w frame w' :
  encryptPayload P plaintext subscription w = (Ok frame, w') ->
  exists sk pk xy ikm cekRaw nonce cek encrypted,
    let salt := getRandomValues P (random_calls w) 16 in
    generateKey_ECDH P (keygen_calls w) = Ok (sk, pk)
    /\ key_pair sk pk
    /\ exportKey_raw P pk = Ok (x04 :: xy) /\ length xy = 64%nat
    /\ length salt = 16%nat
    /\ hkdf_result P salt ikm cekInfo 16 = Ok cekRaw
    /\ hkdf_result P salt ikm nonceInfo 12 = Ok nonce
    /\ importKey_raw_AES_GCM P cekRaw = Ok cek
    /\ encrypt_AES_GCM P nonce [] cek (TextEncoder_encode plaintext ++ [x02]) = Ok encrypted
    /\ length encrypted = (length (TextEncoder_encode plaintext) + 17)%nat
    /\ frame = salt ++ rs ++ [x41] ++ (x04 :: xy) ++ encrypted
    /\ w' = after_encryption w.
Proof.
  intros H. apply encryptPayload_steps in H as [H ->].
  destruct H as [sk pk rpk rk ss au eph ikm cekRaw nonce cek enc
            Hgen Hp256 Himp Hss Hau Heph Hikm Hcek Hnonce Hcekimp Henc ->].
  pose proof (generateKey_key_pair P key_pair laws _ _ _ Hgen) as Hpair.
  destruct (exportKey_raw_point P key_pair laws _ _ _ Hpair Heph) as (xy & -> & Hxy).
  exists sk, pk, xy, ikm, cekRaw, nonce, cek, enc. cbn zeta.
  repeat split; try done.
  - apply (getRandomValues_length P key_pair laws).
  - rewrite (aes_gcm_tag P key_pair laws _ _ _ _ _ Henc), length_app. simpl. lia.
  - simpl length. rewrite Hxy. reflexivity.
Qed.


(** C2. A returned frame is [salt || 00 00 10 00 || 41 || public key || ciphertext]:
    sixteen bytes of salt, the record size 4096 big-endian at offsets 16..19,
    the key length 65 at offset 20, the 65-byte uncompressed ephemeral public
    key starting with 0x04 at offset 21, and from offset 86 on the AES-GCM
    output, tag included. *)
Theorem encryptPayload_frame_layout plaintext subscription w frame w' :
  encryptPayload P plaintext subscription w = (Ok frame, w') ->
  exists salt ephemeralPublicKey ciphertext nonce cek,
    frame = salt ++ [x00; x00; x10; x00] ++ [x41] ++ ephemeralPublicKey ++ ciphertext
    /\ length salt = 16%nat
    /\ be_value [x00; x00; x10; x00] = 4096
    /\ Z_of_byte x41 = 65
    /\ length ephemeralPublicKey = 65%nat
    /\ head ephemeralPublicKey = Some x04
    /\ encrypt_AES_GCM P nonce [] cek (TextEncoder_encode plaintext ++ [x02])
        = Ok ciphertext
    /\ take 16 frame = salt
    /\ take 4 (drop 16 frame) = [x00; x00; x10; x00]
    /\ frame !! 20%nat = Some x41
    /\ frame !! 21%nat = Some x04
    /\ take 65 (drop 21 frame) = ephemeralPublicKey
    /\ drop 86 frame = ciphertext
    /\ length (take 86 frame) = 86%nat.
Proof.
  intros H.
  destruct (encryptPayload_parts _ _ _ _ _ H)
    as (sk & pk & xy & ikm & cekRaw & nonce & cek & enc & Hgen & Hpair & Hexp & Hxy
        & Hsalt & Hcek & Hnonce & Himp & Henc & Hlen & -> & ->).
  set (salt := getRandomValues P (random_calls w) 16) in *.
  exists salt, (x04 :: xy), enc, nonce, cek.
  assert (Hpk : length (x04 :: xy) = 65%nat) by (simpl; lia).
  repeat split; try done.
  - by rewrite take_app_length'.
  - rewrite drop_app_length' by done. reflexivity.
  - rewrite lookup_app_r by lia. rewrite Hsalt. reflexivity.
  - rewrite lookup_app_r by lia. rewrite Hsalt. reflexivity.
  - rewrite (drop_app_add' salt _ 16 5) by done.
    change (drop 5 (rs ++ [x41] ++ (x04 :: xy) ++ enc)) with ((x04 :: xy) ++ enc).
    by rewrite take_app_length'.
  - rewrite (drop_app_add' salt _ 16 70) by done.
    change (drop 70 (rs ++ [x41] ++ (x04 :: xy) ++ enc)) with (drop 64 (xy ++ enc)).
    by rewrite drop_app_length'.
  - rewrite length_take, !length_app. cbn [length]. lia.
Qed.

(** C6. The input of AES-128-GCM is the plaintext followed by the single
    byte 0x02, the key and the nonce are the 16 and 12 bytes HKDF derives
    from the salt, and there is no associated data; so the ciphertext has
    [n + 1 + 16] bytes and the frame [n + 103]. *)
Theorem encryptPayload_padding_and_size plaintext subscription w frame w' :
  encryptPayload P plaintext subscription w = (Ok frame, w') ->
  exists ikm cekRaw nonce cek ciphertext,
    hkdf_result P (take 16 frame) ikm cekInfo 16 = Ok cekRaw
    /\ hkdf_result P (take 16 frame) ikm nonceInfo 12 = Ok nonce
    /\ length cekRaw = 16%nat
    /\ length nonce = 12%nat
    /\ importKey_raw_AES_GCM P cekRaw = Ok cek
    /\ encrypt_AES_GCM P nonce [] cek (TextEncoder_encode plaintext ++ [x02])
        = Ok ciphertext
    /\ drop 86 frame = ciphertext
    /\ length ciphertext = (length (TextEncoder_encode plaintext) + 1 + 16)%nat
    /\ length frame = (length (TextEncoder_encode plaintext) + 103)%nat.
Proof.
  intros H.
  destruct (encryptPayload_parts _ _ _ _ _ H)
    as (sk & pk & xy & ikm & cekRaw & nonce & cek & enc & Hgen & Hpair & Hexp & Hxy
        & Hsalt & Hcek & Hnonce & Himp & Henc & Hlen & -> & ->).
  set (salt := getRandomValues P (random_calls w) 16) in *.
  exists ikm, cekRaw, nonce, cek, enc.
  rewrite take_app_length' by done.
  repeat split; try done.
  - unfold hkdf_result in Hcek. destruct (importKey_raw_HKDF P ikm); [|done].
    apply (hkdf_length P key_pair laws _ _ _ _ _ Hcek).
  - unfold hkdf_result in Hnonce. destruct (importKey_raw_HKDF P ikm); [|done].
    apply (hkdf_length P key_pair laws _ _ _ _ _ Hnonce).
  - rewrite (drop_app_add' salt _ 16 70) by done.
    change (drop 70 (rs ++ [x41] ++ (x04 :: xy) ++ enc)) with (drop 64 (xy ++ enc)).
    by rewrite drop_app_length'.
  - lia.
  - rewrite !length_app. simpl. lia.
Qed.

End EncryptionFacts.

(** ** Encryption: the round trip through the RFC decoder *)

Local Open Scope nat_scope.

Lemma xor_zero_bytes (l : list byte) (n : nat) :
  (length l <= n)%nat -> xor_bytes l (repeat x00 n) = l.
Proof.
  revert n. induction l as [|b l IH]; intros [|n] Hn; simpl in *; try done; try lia.
  unfold xor_bytes in *. simpl. rewrite IH by lia.
  change (Z_of_byte x00) with 0%Z. rewrite Z.lxor_0_r, byte_of_Z_of_byte. done.
Qed.

Lemma record_nonce_0 (nonce : list byte) :
  length nonce = 12%nat -> record_nonce nonce 0 = nonce.
Proof.
  intros H. unfold record_nonce.
  change (seq_bytes 0) with (repeat x00 12). apply xor_zero_bytes. lia.
Qed.

Lemma records_of_single (body : list byte) (size : nat) :
  (0 < length body <= size)%nat -> records_of (length body) size body = [body].
Proof.
  intros H. destruct body as [|b body]; [simpl in H; lia|].
  cbn [length records_of]. rewrite take_ge, drop_ge by (simpl in *; lia).
  by destruct (length body).
Qed.

Lemma drop_zeros_delimiter d l : d <> x00 -> drop_zeros (d :: l) = d :: l.
Proof.
  intros H. simpl. destruct (Byte.eqb d x00) eqn:E; [|done].
  by apply Byte.byte_dec_bl in E.
Qed.

Lemma unpad_last (data : list byte) : unpad true (data ++ [x02]) = Ok data.
Proof.
  unfold unpad. rewrite rev_app_distr. simpl rev at 1.
  simpl app. rewrite drop_zeros_delimiter by done.
  simpl. by rewrite rev_involutive.
Qed.

Lemma rfc8291_decrypt_frame (P : Platform) (ua_private : EcPrivateKey P)
    (ua_public auth_secret salt as_public body : list byte) :
  length salt = 16%nat -> length as_public = 65%nat -> (0 < length body)%nat ->
  rfc8291_decrypt P ua_private ua_public auth_secret
    (salt ++ rs ++ [x41] ++ as_public ++ body)
  = (as_key ← importKey_raw_ECDH P as_public;
     ecdh_secret ← deriveBits_ECDH P as_key ua_private 256;
     ikm ← hkdf_result P auth_secret ecdh_secret (infoPrefix ++ ua_public ++ as_public) 32;
     cekRaw ← hkdf_result P salt ikm cekInfo 16;
     nonce ← hkdf_result P salt ikm nonceInfo 12;
     cek ← importKey_raw_AES_GCM P cekRaw;
     decrypt_records P cek nonce 0 (records_of (length body) 4096 body)).
Proof.
  intros Hsalt Hpub Hbody. unfold rfc8291_decrypt.
  set (frame := salt ++ rs ++ [x41] ++ as_public ++ body).
  assert (H16 : take 16 frame = salt) by (by apply take_app_length').
  assert (H4 : take 4 (drop 16 frame) = rs).
  { unfold frame. by rewrite drop_app_length'. }
  assert (H1 : take 1 (drop 20 frame) = [x41]).
  { unfold frame. by rewrite (drop_app_add' salt _ 16 4). }
  assert (H21 : drop 21 frame = as_public ++ body).
  { unfold frame. by rewrite (drop_app_add' salt _ 16 5). }
  assert (H86 : drop (21 + 65) frame = body).
  { rewrite <- drop_drop, H21. by apply drop_app_length'. }
  assert (Hlen : (length frame <? 21)%nat = false).
  { apply Nat.ltb_ge. unfold frame. rewrite !length_app. cbn [length]. lia. }
  rewrite Hlen, H16, H4, H1.
  change (Z.to_nat (be_value [x41])) with 65%nat.
  change (Z.to_nat (be_value rs)) with 4096%nat.
  rewrite H21, H86, take_app_length' by done.
  rewrite Hpub.
  destruct (length body) eqn:E; [lia|]. reflexivity.
Qed.

Section RoundTrip.
Context (P : Platform) (key_pair : EcPrivateKey P -> EcPublicKey P -> Prop).
Context (laws : WebCryptoLaws P key_pair).

(** C1, as far as it holds.  A plaintext of at most 4079 bytes, encrypted for
    a subscriber whose [p256dh] is the raw public key of [ua_private], is
    what the RFC 8188/8291 decoder returns from the frame, given the
    subscriber's private key and authentication secret. *)
Theorem encryptPayload_roundtrip plaintext subscription w frame w'
    (ua_private : EcPrivateKey P) (ua_key : EcPublicKey P) (ua_public auth_secret : list byte) :
  key_pair ua_private ua_key ->
  exportKey_raw P ua_key = Ok ua_public ->
  base64UrlToArrayBuffer (p256dh (keys subscription)) = Ok ua_public ->
  base64UrlToArrayBuffer (auth (keys subscription)) = Ok auth_secret ->
  (length (TextEncoder_encode plaintext) <= 4079)%nat ->
  encryptPayload P plaintext subscription w = (Ok frame, w') ->
  rfc8291_decrypt P ua_private ua_public auth_secret frame
  = Ok (TextEncoder_encode plaintext).
Proof.
  intros Hua Hexport Hp256 Hauth Hsize H.
  apply (encryptPayload_steps P key_pair laws) in H as [H ->].
  destruct H as [sk pk rpk rk ss au eph ikm cekRaw nonce cek enc
            Hgen Hp256' Himp Hss Hau Heph Hikm Hcek Hnonce Hcekimp Henc ->].
  rewrite Hp256 in Hp256'. injection Hp256' as <-.
  rewrite Hauth in Hau. injection Hau as <-.
  rewrite (importKey_exportKey P key_pair laws _ _ Hexport) in Himp.
  injection Himp as <-.
  pose proof (generateKey_key_pair P key_pair laws _ _ _ Hgen) as Hpair.
  destruct (exportKey_raw_point P key_pair laws _ _ _ Hpair Heph) as (xy & -> & Hxy).
  pose proof (getRandomValues_length P key_pair laws (random_calls w) 16) as Hsalt.
  pose proof (aes_gcm_tag P key_pair laws _ _ _ _ _ Henc) as Hlen.
  rewrite length_app in Hlen. cbn [length] in Hlen.
  set (salt := getRandomValues P (random_calls w) 16) in *.
  assert (Hpk : length (x04 :: xy) = 65%nat) by (simpl; lia).
  rewrite Hpk. change (byte_of_Z (Z.of_nat 65)) with x41.
  rewrite rfc8291_decrypt_frame by (done || lia).
  rewrite (importKey_exportKey P key_pair laws _ _ Heph). cbn [mbind result_bind].
  rewrite <- (ecdh_agreement P key_pair laws _ _ _ _ 256 Hpair Hua), Hss.
  cbn [mbind result_bind]. rewrite Hikm. cbn [mbind result_bind].
  rewrite Hcek. cbn [mbind result_bind]. rewrite Hnonce. cbn [mbind result_bind].
  rewrite Hcekimp. cbn [mbind result_bind].
  rewrite records_of_single by lia.
  cbn [decrypt_records].
  destruct (Nat.leb_spec (length enc) 16) as [Hle|_]; [lia|].
  rewrite record_nonce_0.
  2:{ unfold hkdf_result in Hnonce. destruct (importKey_raw_HKDF P ikm); [|done].
      apply (hkdf_length P key_pair laws _ _ _ _ _ Hnonce). }
  rewrite (aes_gcm_decrypt_encrypt P key_pair laws _ _ _ _ _ Henc).
  cbn [mbind result_bind]. rewrite unpad_last. cbn [mbind result_bind mret result_ret].
  by rewrite app_nil_r.
Qed.
End RoundTrip.

Lemma drop_zeros_length l : length (drop_zeros l) <= length l.
Proof.
  induction l as [|b l IH]; simpl; [done|].
  destruct (Byte.eqb b x00); simpl; lia.
Qed.

Lemma unpad_length last plain data :
  unpad last plain = Ok data -> length data < length plain.
Proof.
  unfold unpad. pose proof (drop_zeros_length (rev plain)) as H.
  destruct (drop_zeros (rev plain)) as [|d rest]; [done|].
  destruct (Byte.eqb d _); [|done]. intros [= <-].
  rewrite length_rev in *. simpl in H. lia.
Qed.

Lemma records_of_concat fuel size body :
  0 < size -> length body <= fuel -> concat (records_of fuel size body) = body.
Proof.
  intros Hsize. revert body.
  induction fuel as [|fuel IH]; intros [|b body] H; simpl in *; try done; try lia.
  destruct size as [|size]; [lia|].
  cbn [take drop]. rewrite IH by (rewrite length_drop; lia).
  cbn [app]. by rewrite take_drop.
Qed.

Lemma records_of_count fuel size body :
  0 < size -> size < length body -> length body <= fuel ->
  2 <= length (records_of fuel size body).
Proof.
  intros Hsize Hlong Hfuel.
  destruct fuel as [|fuel]; [lia|]. destruct body as [|b body]; [simpl in *; lia|].
  cbn [records_of length].
  destruct fuel as [|fuel]; [simpl in *; lia|].
  destruct (drop size (b :: body)) as [|b' body'] eqn:E.
  - apply (f_equal length) in E. rewrite length_drop in E. simpl in *. lia.
  - cbn [records_of length]. lia.
Qed.

Section TooLong.
Context (P : Platform) (key_pair : EcPrivateKey P -> EcPublicKey P -> Prop).
Context (laws : WebCryptoLaws P key_pair).

Lemma decrypt_records_length cek nonce seq records out :
  decrypt_records P cek nonce seq records = Ok out ->
  length out + 17 * length records <= length (concat records).
Proof.
  revert seq out. induction records as [|r records IH]; intros seq out.
  - intros [= <-]. simpl. lia.
  - cbn [decrypt_records]. destruct (length r <=? 16); [done|].
    intros H. apply result_bind_Ok in H as (plain & Hdec & H).
    apply result_bind_Ok in H as (data & Hpad & H).
    apply result_bind_Ok in H as (more & Hmore & H). injection H as <-.
    apply (aes_gcm_decrypt_length P key_pair laws) in Hdec.
    apply unpad_length in Hpad. apply IH in Hmore.
    cbn [concat length]. rewrite !length_app. lia.
Qed.

(** Beyond 4079 bytes the frame holds a record longer than the record size
    it announces: whatever keys the decoder is given, what it returns, if
    anything, is shorter than the plaintext. *)
Theorem encryptPayload_too_long plaintext subscription w frame w'
    (ua_private : EcPrivateKey P) (ua_public auth_secret out : list byte) :
  4079 < length (TextEncoder_encode plaintext) ->
  encryptPayload P plaintext subscription w = (Ok frame, w') ->
  rfc8291_decrypt P ua_private ua_public auth_secret frame = Ok out ->
  length out < length (TextEncoder_encode plaintext).
Proof.
  intros Hsize H Hdec.
  destruct (encryptPayload_parts P key_pair laws _ _ _ _ _ H)
    as (sk & pk & xy & ikm & cekRaw & nonce & cek & enc & Hgen & Hpair & Hexp & Hxy
        & Hsalt & Hcek & Hnonce & Himp & Henc & Hlen & -> & ->).
  rewrite rfc8291_decrypt_frame in Hdec by (simpl; lia).
  apply result_bind_Ok in Hdec as (? & _ & Hdec).
  apply result_bind_Ok in Hdec as (? & _ & Hdec).
  apply result_bind_Ok in Hdec as (? & _ & Hdec).
  apply result_bind_Ok in Hdec as (? & _ & Hdec).
  apply result_bind_Ok in Hdec as (? & _ & Hdec).
  apply result_bind_Ok in Hdec as (? & _ & Hdec).
  apply decrypt_records_length in Hdec.
  rewrite records_of_concat in Hdec by lia.
  pose proof (records_of_count (length enc) 4096 enc) as Hcount. lia.
Qed.
End TooLong.

Local Close Scope nat_scope.

(** ** The deterministic platform *)

Lemma stream_length seed n : length (Fake.stream seed n) = n.
Proof. unfold Fake.stream. by rewrite length_map, length_seq. Qed.

Lemma add_bytes_length a b : length (Fake.add_bytes a b) = Nat.min (length a) (length b).
Proof. apply length_zip_with. Qed.

Lemma sub_add_bytes (data ks : list byte) :
  (length data <= length ks)%nat ->
  Fake.sub_bytes (Fake.add_bytes data ks) ks = data.
Proof.
  revert ks. induction data as [|x data IH]; intros [|k ks] H; simpl in *; try done; try lia.
  unfold Fake.sub_bytes, Fake.add_bytes in *. simpl. rewrite IH by lia. f_equal.
  rewrite <- (byte_of_Z_of_byte x) at 2. apply byte_of_Z_congr.
  rewrite Z_of_byte_of_Z, Zminus_mod_idemp_l. f_equal. lia.
Qed.

Lemma gcm_tag_length iv aad key ct : length (Fake.gcm_tag iv aad key ct) = 16%nat.
Proof. apply stream_length. Qed.

Lemma gcm_decrypt_app iv aad key ct :
  Fake.gcm_decrypt iv aad key (ct ++ Fake.gcm_tag iv aad key ct)
  = Ok (Fake.sub_bytes ct (Fake.stream (Fake.checksum (key ++ iv)) (length ct))).
Proof.
  unfold Fake.gcm_decrypt.
  rewrite length_app, gcm_tag_length.
  replace (length ct + 16 - 16)%nat with (length ct) by lia.
  destruct (Nat.ltb_spec (length ct + 16) 16); [lia|].
  rewrite take_app_length, drop_app_length.
  by rewrite bool_decide_eq_true_2.
Qed.

(** The deterministic platform obeys every law. *)
Lemma Fake_laws : WebCryptoLaws Fake.platform Fake.key_pair.
Proof.
  split;
    cbn [generateKey_ECDH getRandomValues importKey_raw_ECDH exportKey_raw
         deriveBits_ECDH importKey_raw_HKDF deriveBits_HKDF_SHA256
         importKey_raw_AES_GCM encrypt_AES_GCM decrypt_AES_GCM Fake.platform
         EcPrivateKey EcPublicKey HkdfKey AesGcmKey].
  - intros i sk pk [= <- <-]. reflexivity.
  - intros sk pk raw _. unfold Fake.export_point.
    destruct ((0 <=? pk) && (pk <? Fake.q)); [|done].
    intros [= <-]. eexists. split; reflexivity.
  - intros pk raw. unfold Fake.export_point.
    destruct ((0 <=? pk) && (pk <? Fake.q)) eqn:E; [|done].
    intros [= <-]. unfold Fake.import_point.
    cbn [length Nat.eqb andb List.last].
    rewrite Z_of_byte_of_Z.
    apply andb_true_iff in E as [E1 E2]. apply Z.leb_le in E1. apply Z.ltb_lt in E2.
    unfold Fake.q in *. rewrite Z.mod_small by lia.
    destruct (Z.ltb_spec pk 251); [done|lia].
  - intros sk1 pk1 sk2 pk2 bits -> ->. unfold Fake.public_of. do 2 f_equal.
    rewrite !Z.mul_mod_idemp_r by done. f_equal. lia.
  - intros. apply stream_length.
  - intros salt info key n out H. injection H as <-. rewrite stream_length.
    change (Nat.divmod (n * 8) 7 0 7).1 with ((n * 8) / 8)%nat. by apply Nat.div_mul.
  - intros iv aad key data ct [= <-].
    rewrite length_app, add_bytes_length, gcm_tag_length, stream_length. lia.
  - intros iv aad key data ct [= <-]. rewrite gcm_decrypt_app.
    rewrite add_bytes_length, stream_length, Nat.min_id.
    by rewrite sub_add_bytes by (rewrite stream_length; lia).
  - intros iv aad key ct data. unfold Fake.gcm_decrypt.
    destruct (Nat.ltb_spec (length ct) 16); [done|].
    case_bool_decide; [|done]. intros [= <-].
    unfold Fake.sub_bytes. rewrite length_zip_with, length_take, stream_length. lia.
Qed.

(** ** Encryption: fresh salt and key *)

Section Fresh.
Context (P : Platform) (key_pair : EcPrivateKey P -> EcPublicKey P -> Prop).
Context (laws : WebCryptoLaws P key_pair).

Lemma frame_salt (salt rest : list byte) : length salt = 16%nat -> take 16 (salt ++ rest) = salt.
Proof. intros H. by apply take_app_length'. Qed.

Lemma frame_key (salt key enc : list byte) :
  length salt = 16%nat -> length key = 65%nat ->
  take 65 (drop 21 (salt ++ rs ++ [x41] ++ key ++ enc)) = key.
Proof.
  intros Hs Hk. rewrite (drop_app_add' salt _ 16 5) by done.
  change (drop 5 (rs ++ [x41] ++ key ++ enc)) with (key ++ enc).
  by apply take_app_length'.
Qed.

(** C5. Every call of [encryptPayload] asks the key generator and the
    random generator one question each, a question no earlier call asked,
    and puts the answers into the frame: the salt at offsets 0..15, the
    public key at offsets 21..85.  So on a platform whose generators do not
    repeat themselves, two calls, for the same or for another plaintext and
    subscriber and whatever happened in between, never return frames with
    the same salt or with the same ephemeral public key. *)
Theorem encryptPayload_fresh_salt_and_key n plaintext subscription plaintext' subscription'
    w frame1 w1 w1' frame2 w2 :
  Freshness P n ->
  encryptPayload P plaintext subscription w = (Ok frame1, w1) ->
  (keygen_calls w1 <= keygen_calls w1' < n)%nat ->
  (random_calls w1 <= random_calls w1' < n)%nat ->
  encryptPayload P plaintext' subscription' w1' = (Ok frame2, w2) ->
  random_calls w1 = S (random_calls w)
  /\ keygen_calls w1 = S (keygen_calls w)
  /\ (random_calls w < random_calls w1')%nat
  /\ (keygen_calls w < keygen_calls w1')%nat
  /\ take 16 frame1 = getRandomValues P (random_calls w) 16
  /\ take 16 frame2 = getRandomValues P (random_calls w1') 16
  /\ take 16 frame1 <> take 16 frame2
  /\ take 65 (drop 21 frame1) <> take 65 (drop 21 frame2)
  /\ frame1 <> frame2.
Proof.
  intros [Hsalts Hkeys] H1 Hk Hr H2.
  destruct (encryptPayload_parts P key_pair laws _ _ _ _ _ H1)
    as (sk1 & pk1 & xy1 & ? & ? & ? & ? & enc1 & Hgen1 & _ & Hexp1 & Hxy1
        & Hsalt1 & _ & _ & _ & _ & _ & -> & ->).
  destruct (encryptPayload_parts P key_pair laws _ _ _ _ _ H2)
    as (sk2 & pk2 & xy2 & ? & ? & ? & ? & enc2 & Hgen2 & _ & Hexp2 & Hxy2
        & Hsalt2 & _ & _ & _ & _ & _ & -> & ->).
  cbn [after_encryption keygen_calls random_calls] in Hk, Hr.
  specialize (Hsalts (random_calls w) (random_calls w1') ltac:(lia)).
  specialize (Hkeys (keygen_calls w) (keygen_calls w1') ltac:(lia)).
  rewrite !frame_salt, !frame_key by (done || simpl; lia).
  assert (Hne : take 16
            (getRandomValues P (random_calls w) 16 ++ rs ++ [x41] ++ (x04 :: xy1) ++ enc1)
          <> take 16
            (getRandomValues P (random_calls w1') 16 ++ rs ++ [x41] ++ (x04 :: xy2) ++ enc2)).
  { by rewrite !frame_salt. }
  repeat split; try done; try lia.
  - apply (Hkeys _ _ _ _ _ _ Hgen1 Hgen2 Hexp1 Hexp2).
  - intros E. apply Hne. by rewrite E.
Qed.
End Fresh.

(** ** Encryption: failures *)

Lemma atob_Throw s e : atob s = Throw e -> e = InvalidCharacterError.
Proof.
  unfold atob. destruct (_ =? 1)%nat; [by intros [= <-]|].
  destruct (b64_digits _); [done|by intros [= <-]].
Qed.

Lemma base64UrlToArrayBuffer_Throw s e :
  base64UrlToArrayBuffer s = Throw e -> e = InvalidCharacterError.
Proof. apply atob_Throw. Qed.

Section Failures.
Context (P : Platform) (key_pair : EcPrivateKey P -> EcPublicKey P -> Prop).
Context (laws : WebCryptoLaws P key_pair).

Lemma hkdf_result_Throw salt ikm info n e :
  hkdf_result P salt ikm info n = Throw e -> primitive_failure P e.
Proof.
  unfold hkdf_result. intros H. apply result_bind_Throw in H as [H|(k & _ & H)];
    unfold primitive_failure; eauto 12.
Qed.

Lemma lift_set_Throw (pre a : list byte) (m n off : nat) w e w' :
  m = (length a + n)%nat -> off = length pre ->
  lift (Uint8Array_set (pre ++ Uint8Array_new m) a off) w = (Throw e, w') -> False.
Proof.
  intros Hm Hoff H. apply lift_Throw in H as [H _].
  by rewrite (Uint8Array_set_eq pre a m n off Hm Hoff) in H.
Qed.

Lemma encryptPayload_Throw plaintext subscription w e w' :
  encryptPayload P plaintext subscription w = (Throw e, w') ->
  base64UrlToArrayBuffer (p256dh (keys subscription)) = Throw e
  \/ base64UrlToArrayBuffer (auth (keys subscription)) = Throw e
  \/ primitive_failure P e.
Proof.
  unfold encryptPayload. intros H.
  apply M_bind_Throw in H as [H|([sk pk] & w1 & Hgen & H)].
  { unfold generateKey in H. injection H as H _. unfold primitive_failure. eauto 12. }
  unfold generateKey in Hgen. injection Hgen as _ <-.
  apply M_bind_Throw in H as [H|(rpk & ? & H1 & H)].
  { apply lift_Throw in H as [H _]. auto. }
  apply lift_Ok in H1 as [Hp256 ->].
  apply M_bind_Throw in H as [H|(rk & ? & H1 & H)].
  { apply lift_Throw in H as [H _]. unfold primitive_failure. eauto 12. }
  apply lift_Ok in H1 as [_ ->].
  apply M_bind_Throw in H as [H|(ss & ? & H1 & H)].
  { apply lift_Throw in H as [H _]. unfold primitive_failure. eauto 12. }
  apply lift_Ok in H1 as [_ ->].
  apply M_bind_Throw in H as [H|(au & ? & H1 & H)].
  { apply lift_Throw in H as [H _]. auto. }
  apply lift_Ok in H1 as [_ ->].
  apply M_bind_Throw in H as [H|(eph & ? & H1 & H)].
  { apply lift_Throw in H as [H _]. unfold primitive_failure. eauto 12. }
  apply lift_Ok in H1 as [_ ->].
  apply M_bind_Throw in H as [H|(i1 & ? & H1 & H)].
  { by apply (lift_set_Throw [] _ _ (length rpk + length eph)) in H. }
  apply lift_Ok in H1 as [H1 ->].
  apply (Uint8Array_set_inv [] _ _ (length rpk + length eph)) in H1; [|lia|done]. subst i1.
  apply M_bind_Throw in H as [H|(i2 & ? & H1 & H)].
  { by apply (lift_set_Throw _ _ _ (length eph)) in H. }
  apply lift_Ok in H1 as [H1 ->].
  apply (Uint8Array_set_inv _ _ _ (length eph)) in H1; [|lia|done]. subst i2.
  apply M_bind_Throw in H as [H|(i3 & ? & H1 & H)].
  { apply (lift_set_Throw _ _ _ 0) in H; [done|lia|by rewrite length_app]. }
  apply lift_Ok in H1 as [_ ->].
  apply M_bind_Throw in H as [H|(ikm & ? & H1 & H)].
  { rewrite hkdf_run in H. injection H as H _. eauto using hkdf_result_Throw. }
  rewrite hkdf_run in H1. injection H1 as _ <-.
  apply M_bind_Throw in H as [H|(salt & ? & H1 & H)].
  { unfold randomBytes in H. done. }
  unfold randomBytes in H1. injection H1 as <- <-.
  apply M_bind_Throw in H as [H|(cekRaw & ? & H1 & H)].
  { rewrite hkdf_run in H. injection H as H _. eauto using hkdf_result_Throw. }
  rewrite hkdf_run in H1. injection H1 as _ <-.
  apply M_bind_Throw in H as [H|(nonce & ? & H1 & H)].
  { rewrite hkdf_run in H. injection H as H _. eauto using hkdf_result_Throw. }
  rewrite hkdf_run in H1. injection H1 as _ <-.
  apply M_bind_Throw in H as [H|(cek & ? & H1 & H)].
  { apply lift_Throw in H as [H _]. unfold primitive_failure. eauto 12. }
  apply lift_Ok in H1 as [_ ->].
  apply M_bind_Throw in H as [H|(in1 & ? & H1 & H)].
  { by apply (lift_set_Throw [] _ _ 1) in H. }
  apply lift_Ok in H1 as [H1 ->].
  apply (Uint8Array_set_inv [] _ _ 1) in H1; [|simpl; lia|done]. subst in1.
  apply M_bind_Throw in H as [H|(in2 & ? & H1 & H)].
  { by apply (lift_set_Throw _ _ _ 0) in H. }
  apply lift_Ok in H1 as [_ ->].
  apply M_bind_Throw in H as [H|(enc & ? & H1 & H)].
  { apply lift_Throw in H as [H _]. unfold primitive_failure. eauto 15. }
  apply lift_Ok in H1 as [_ ->].
  pose proof (getRandomValues_length P key_pair laws (random_calls w) 16) as Hsalt.
  cbn [random_calls] in H.
  set (salt := getRandomValues P (random_calls w) 16) in *.
  apply M_bind_Throw in H as [H|(r1 & ? & H1 & H)].
  { apply (lift_set_Throw [] _ _ (4 + 1 + length eph + length enc)) in H; [done|lia|done]. }
  apply lift_Ok in H1 as [H1 ->].
  apply (Uint8Array_set_inv [] _ _ (4 + 1 + length eph + length enc)) in H1; [|lia|done].
  subst r1.
  apply M_bind_Throw in H as [H|(r2 & ? & H1 & H)].
  { apply (lift_set_Throw _ _ _ (1 + length eph + length enc)) in H;
      [done|simpl; lia|simpl; lia]. }
  apply lift_Ok in H1 as [H1 ->].
  apply (Uint8Array_set_inv _ _ _ (1 + length eph + length enc)) in H1;
    [|simpl; lia|simpl; lia]. subst r2.
  apply M_bind_Throw in H as [H|(r3 & ? & H1 & H)].
  { apply (lift_set_Throw _ _ _ (length eph + length enc)) in H;
      [done|simpl; lia|rewrite !length_app; simpl; lia]. }
  apply lift_Ok in H1 as [H1 ->].
  apply (Uint8Array_set_inv _ _ _ (length eph + length enc)) in H1;
    [|simpl; lia|rewrite !length_app; simpl; lia]. subst r3.
  apply M_bind_Throw in H as [H|(r4 & ? & H1 & H)].
  { apply (lift_set_Throw _ _ _ (length enc)) in H;
      [done|simpl; lia|rewrite !length_app; simpl; lia]. }
  apply lift_Ok in H1 as [H1 ->].
  apply (Uint8Array_set_inv _ _ _ (length enc)) in H1;
    [|simpl; lia|rewrite !length_app; simpl; lia]. subst r4.
  apply M_bind_Throw in H as [H|(r5 & ? & H1 & H)].
  { apply (lift_set_Throw _ _ _ 0) in H;
      [done|simpl; lia|rewrite !length_app; simpl; lia]. }
  done.
Qed.
(** C4, as far as it holds.  [encryptPayload] fails when [p256dh] or [auth]
    is not decodable base64 and when the raw-key import rejects the decoded
    [p256dh]; what it throws is what [atob] threw ([InvalidCharacterError])
    or what a Web Crypto primitive threw, unwrapped; and it returns a frame
    only if every primitive it called succeeded.  The length of the decoded
    [auth] plays no part. *)
Theorem encryptPayload_failures plaintext subscription w :
  (is_Ok (base64UrlToArrayBuffer (p256dh (keys subscription))) = false ->
   is_Ok (fst (encryptPayload P plaintext subscription w)) = false)
  /\ (is_Ok (base64UrlToArrayBuffer (auth (keys subscription))) = false ->
      is_Ok (fst (encryptPayload P plaintext subscription w)) = false)
  /\ (forall raw,
        base64UrlToArrayBuffer (p256dh (keys subscription)) = Ok raw ->
        is_Ok (importKey_raw_ECDH P raw) = false ->
        is_Ok (fst (encryptPayload P plaintext subscription w)) = false)
  /\ (forall e,
        fst (encryptPayload P plaintext subscription w) = Throw e ->
        (e = InvalidCharacterError
         /\ (base64UrlToArrayBuffer (p256dh (keys subscription)) = Throw e
             \/ base64UrlToArrayBuffer (auth (keys subscription)) = Throw e))
        \/ primitive_failure P e)
  /\ (forall frame,
        fst (encryptPayload P plaintext subscription w) = Ok frame ->
        encryption_steps P plaintext subscription w frame).
Proof.
  destruct (encryptPayload P plaintext subscription w) as [[frame|e] w'] eqn:E;
    cbn [fst is_Ok].
  - destruct (encryptPayload_steps P key_pair laws _ _ _ _ _ E) as [Hsteps _].
    pose proof Hsteps as Hsteps'.
    destruct Hsteps' as [sk pk rpk rk ss au eph ikm cekRaw nonce cek enc
            Hgen Hp256 Himp Hss Hau Heph Hikm Hcek Hnonce Hcekimp Henc Hframe].
    repeat split.
    + by rewrite Hp256.
    + by rewrite Hau.
    + intros raw Hraw. rewrite Hp256 in Hraw. injection Hraw as <-. by rewrite Himp.
    + done.
    + by intros ? [= <-].
  - repeat split; try done.
    intros e' [= <-].
    destruct (encryptPayload_Throw _ _ _ _ _ E) as [H|[H|H]]; [left|left|right; done].
    + split; [by apply base64UrlToArrayBuffer_Throw in H|auto].
    + split; [by apply base64UrlToArrayBuffer_Throw in H|auto].
Qed.

End Failures.

(** ** Encryption: closed examples *)

Lemma encryptPayload_roundtrip_counterexample :
  WebCryptoLaws Fake.platform Fake.key_pair
  /\ Fake.key_pair Fake.subscriber_private 14%Z
  /\ exportKey_raw Fake.platform 14%Z = Ok Fake.subscriber_public
  /\ base64UrlToArrayBuffer (p256dh (keys Fake.subscriber)) = Ok Fake.subscriber_public
  /\ length Fake.subscriber_public = 65%nat
  /\ base64UrlToArrayBuffer (auth (keys Fake.subscriber)) = Ok Fake.subscriber_auth
  /\ length Fake.subscriber_auth = 16%nat
  /\ length (TextEncoder_encode long_plaintext) = 4080%nat
  /\ is_Ok (fst (encryptPayload Fake.platform long_plaintext Fake.subscriber world0)) = true
  /\ (fst (encryptPayload Fake.platform long_plaintext Fake.subscriber world0)
      ≫= rfc8291_decrypt Fake.platform Fake.subscriber_private Fake.subscriber_public
            Fake.subscriber_auth)
     = Throw Fake.OperationError.
Proof.
  split; [exact Fake_laws|].
  repeat split; vm_compute; reflexivity.
Qed.

Lemma encryptPayload_roundtrip_witness :
  (length (TextEncoder_encode "hi") <= 4079)%nat
  /\ encryptPayload Fake.platform "hi" Fake.subscriber world0
     = (Ok example_frame, after_encryption world0)
  /\ rfc8291_decrypt Fake.platform Fake.subscriber_private Fake.subscriber_public
       Fake.subscriber_auth example_frame = Ok (TextEncoder_encode "hi").
Proof.
  assert (H : encryptPayload Fake.platform "hi" Fake.subscriber world0
              = (Ok example_frame, after_encryption world0)) by (vm_compute; reflexivity).
  assert (Hsize : (length (TextEncoder_encode "hi") <= 4079)%nat) by (vm_compute; lia).
  split; [exact Hsize|]. split; [exact H|].
  apply (encryptPayload_roundtrip Fake.platform Fake.key_pair Fake_laws
           "hi" Fake.subscriber world0 example_frame (after_encryption world0)
           Fake.subscriber_private 14%Z Fake.subscriber_public Fake.subscriber_auth);
    [reflexivity | reflexivity | vm_compute; reflexivity | vm_compute; reflexivity
    | exact Hsize | exact H].
Defined.

Lemma encryptPayload_frame_layout_witness :
  encryptPayload Fake.platform "hi" Fake.subscriber world0
  = (Ok example_frame, after_encryption world0)
  /\ exists salt ephemeralPublicKey ciphertext nonce cek,
      example_frame
      = salt ++ [x00; x00; x10; x00] ++ [x41] ++ ephemeralPublicKey ++ ciphertext
      /\ length salt = 16%nat
      /\ be_value [x00; x00; x10; x00] = 4096
      /\ Z_of_byte x41 = 65
      /\ length ephemeralPublicKey = 65%nat
      /\ head ephemeralPublicKey = Some x04
      /\ encrypt_AES_GCM Fake.platform nonce [] cek (TextEncoder_encode "hi" ++ [x02])
          = Ok ciphertext
      /\ take 16 example_frame = salt
      /\ take 4 (drop 16 example_frame) = [x00; x00; x10; x00]
      /\ example_frame !! 20%nat = Some x41
      /\ example_frame !! 21%nat = Some x04
      /\ take 65 (drop 21 example_frame) = ephemeralPublicKey
      /\ drop 86 example_frame = ciphertext
      /\ length (take 86 example_frame) = 86%nat.
Proof.
  assert (H : encryptPayload Fake.platform "hi" Fake.subscriber world0
              = (Ok example_frame, after_encryption world0)) by (vm_compute; reflexivity).
  split; [exact H|].
  exact (encryptPayload_frame_layout Fake.platform Fake.key_pair Fake_laws
           "hi" Fake.subscriber world0 example_frame (after_encryption world0) H).
Defined.

Lemma encryptPayload_padding_and_size_witness :
  encryptPayload Fake.platform "hi" Fake.subscriber world0
  = (Ok example_frame, after_encryption world0)
  /\ exists ikm cekRaw nonce cek ciphertext,
      hkdf_result Fake.platform (take 16 example_frame) ikm cekInfo 16 = Ok cekRaw
      /\ hkdf_result Fake.platform (take 16 example_frame) ikm nonceInfo 12 = Ok nonce
      /\ length cekRaw = 16%nat
      /\ length nonce = 12%nat
      /\ importKey_raw_AES_GCM Fake.platform cekRaw = Ok cek
      /\ encrypt_AES_GCM Fake.platform nonce [] cek (TextEncoder_encode "hi" ++ [x02])
          = Ok ciphertext
      /\ drop 86 example_frame = ciphertext
      /\ length ciphertext = (length (TextEncoder_encode "hi") + 1 + 16)%nat
      /\ length example_frame = (length (TextEncoder_encode "hi") + 103)%nat.
Proof.
  assert (H : encryptPayload Fake.platform "hi" Fake.subscriber world0
              = (Ok example_frame, after_encryption world0)) by (vm_compute; reflexivity).
  split; [exact H|].
  exact (encryptPayload_padding_and_size Fake.platform Fake.key_pair Fake_laws
           "hi" Fake.subscriber world0 example_frame (after_encryption world0) H).
Defined.

(** The generators of the deterministic platform do not repeat themselves
    in their first eight answers. *)
Lemma Fake_fresh : Freshness Fake.platform 8.
Proof.
  split; intros i j [Hij Hj].
  - destruct j as [|[|[|[|[|[|[|[|j]]]]]]]]; try lia;
      destruct i as [|[|[|[|[|[|[|[|i]]]]]]]]; try lia;
      vm_compute; discriminate.
  - intros sk1 pk1 sk2 pk2 raw1 raw2 G1 G2 E1 E2.
    destruct j as [|[|[|[|[|[|[|[|j]]]]]]]]; try lia;
      destruct i as [|[|[|[|[|[|[|[|i]]]]]]]]; try lia;
      vm_compute in G1, G2; injection G1 as <- <-; injection G2 as <- <-;
      vm_compute in E1, E2; injection E1 as <-; injection E2 as <-; discriminate.
Qed.

(** The frame of a second call, made right after the first one. *)
Lemma encryptPayload_fresh_salt_and_key_witness :
  exists frame2 w2,
    Freshness Fake.platform 8
    /\ encryptPayload Fake.platform "hi" Fake.subscriber world0
       = (Ok example_frame, after_encryption world0)
    /\ encryptPayload Fake.platform "hi" Fake.subscriber (after_encryption world0)
       = (Ok frame2, w2)
    /\ take 16 example_frame <> take 16 frame2
    /\ take 65 (drop 21 example_frame) <> take 65 (drop 21 frame2)
    /\ example_frame <> frame2.
Proof.
  assert (H1 : encryptPayload Fake.platform "hi" Fake.subscriber world0
               = (Ok example_frame, after_encryption world0)) by (vm_compute; reflexivity).
  destruct (encryptPayload Fake.platform "hi" Fake.subscriber (after_encryption world0))
    as [[frame2|e] w2] eqn:H2; [|vm_compute in H2; discriminate].
  exists frame2, w2. split; [exact Fake_fresh|]. split; [exact H1|].
  split; [reflexivity|].
  apply (encryptPayload_fresh_salt_and_key Fake.platform Fake.key_pair Fake_laws 8
           "hi" Fake.subscriber "hi" Fake.subscriber world0 example_frame
           (after_encryption world0) (after_encryption world0) frame2 w2
           Fake_fresh H1 ltac:(cbn; lia) ltac:(cbn; lia) H2).
Defined.

(** C4 fails as stated: an [auth] that decodes to three bytes is accepted,
    and a frame is returned. *)
Lemma encryptPayload_accepts_short_auth :
  base64UrlToArrayBuffer (auth (keys short_auth_subscriber)) = Ok [x00; x00; x00]
  /\ base64UrlToArrayBuffer (p256dh (keys short_auth_subscriber))
     = Ok Fake.subscriber_public
  /\ is_Ok (fst (encryptPayload Fake.platform "hi" short_auth_subscriber world0)) = true.
Proof. repeat split; vm_compute; reflexivity. Qed.

Lemma encryptPayload_failures_witness :
  is_Ok (fst (encryptPayload Fake.platform "hi" short_auth_subscriber world0)) = true
  /\ forall frame,
      fst (encryptPayload Fake.platform "hi" short_auth_subscriber world0) = Ok frame ->
      encryption_steps Fake.platform "hi" short_auth_subscriber world0 frame.
Proof.
  split; [vm_compute; reflexivity|].
  apply (encryptPayload_failures Fake.platform Fake.key_pair Fake_laws
           "hi" short_auth_subscriber world0).
Defined.

(** ** The VAPID token *)

Lemma prefix_spec (p s : string) :
  String.prefix p s = true <-> exists rest, s = String.append p rest.
Proof.
  revert s. induction p as [|c p IH]; intros s; simpl.
  - destruct s; simpl; (split; [intros _; by eexists | done]).
  - destruct s as [|d s]; simpl; [split; [done|intros [rest H]; done]|].
    destruct (Ascii.ascii_dec c d) as [->|Hne].
    + rewrite IH. split; intros [rest H]; exists rest; [by rewrite H | by injection H].
    + split; [done|]. intros [rest H]. injection H as H1 H2. by destruct Hne.
Qed.

Lemma includes_spec (s needle : string) :
  includes s needle = true <->
  exists before after, s = String.append before (String.append needle after).
Proof.
  induction s as [|c s IH]; cbn [includes].
  - rewrite orb_false_r, prefix_spec. split.
    + intros [rest H]. by exists "", rest.
    + intros (before & after & H). destruct before; [by exists after|done].
  - rewrite orb_true_iff, prefix_spec, IH. split.
    + intros [[rest H]|(before & after & H)].
      * by exists "", rest.
      * exists (String c before), after. simpl. by rewrite H.
    + intros (before & after & H). destruct before as [|d before].
      * left. by exists after.
      * right. simpl in H. injection H as _ H. by exists before, after.
Qed.

(** C8, as the code has it.  The subject written into the token's payload
    is the given subject with [mailto:] put in front exactly when it
    contains [@] and starts with neither [mailto:] nor [https://]; so
    [user@example.com] becomes [mailto:user@example.com], while
    [https://example.com/contact] and [mailto:user@example.com] stay as they
    are. *)
Theorem createVapidJwt_subject_normalization (audience subject : string) (now_ms : Z) :
  ((exists before after, subject = String.append before (String.append "@" after))
   /\ ~ (exists rest, subject = String.append "mailto:" rest)
   /\ ~ (exists rest, subject = String.append "https://" rest)
   -> sub (vapidPayload audience subject now_ms) = String.append "mailto:" subject)
  /\ (~ ((exists before after, subject = String.append before (String.append "@" after))
         /\ ~ (exists rest, subject = String.append "mailto:" rest)
         /\ ~ (exists rest, subject = String.append "https://" rest))
      -> sub (vapidPayload audience subject now_ms) = subject)
  /\ sub (vapidPayload audience "user@example.com" now_ms) = "mailto:user@example.com"
  /\ sub (vapidPayload audience "https://example.com/contact" now_ms)
     = "https://example.com/contact"
  /\ sub (vapidPayload audience "mailto:user@example.com" now_ms)
     = "mailto:user@example.com".
Proof.
  cbn [sub vapidPayload]. unfold finalSubject, startsWith.
  split; [|split; [|repeat split]].
  - intros (Hat & Hm & Hh).
    apply includes_spec in Hat. rewrite <- prefix_spec in Hm, Hh.
    rewrite Hat. destruct (String.prefix "mailto:" subject); [done|].
    by destruct (String.prefix "https://" subject).
  - intros Hn.
    destruct (includes subject "@") eqn:Hat; [|done].
    destruct (String.prefix "mailto:" subject) eqn:Hm; [done|].
    destruct (String.prefix "https://" subject) eqn:Hh; [done|].
    destruct Hn. rewrite <- includes_spec, <- !prefix_spec. rewrite Hm, Hh. done.
Qed.

Section Jwt.
Context (P : Platform).

(** X2. The token is [header.payload.signature]: the header is the base64url of
    the JSON text of [{alg: ES256, typ: JWT}], the signature is the
    base64url of what the platform's ECDSA signs over the UTF-8 bytes of
    [header.payload] with the given private key, and the [publicKey]
    argument is not used.  A call reads the clock once and signs once. *)
Theorem createVapidJwt_signed_token audience subject publicKey privateKey w token w' :
  createVapidJwt P audience subject publicKey privateKey w = (Ok token, w') ->
  exists encodedPayload signature,
    let unsigned :=
      String.concat "" ["eyJhbGciOiJFUzI1NiIsInR5cCI6IkpXVCJ9"; "."; encodedPayload] in
    token = String.concat "" [unsigned; "."; arrayBufferToBase64Url signature]
    /\ JSON_stringify_header vapidHeader
       = String.concat dquote ["{"; "alg"; ":"; "ES256"; ","; "typ"; ":"; "JWT"; "}"]
    /\ base64UrlEncode (JSON_stringify_header vapidHeader)
       = Ok "eyJhbGciOiJFUzI1NiIsInR5cCI6IkpXVCJ9"
    /\ base64UrlEncode
         (JSON_stringify_payload
            (vapidPayload audience subject (Date_now P (clock_reads w))))
       = Ok encodedPayload
    /\ sign_ECDSA_SHA256 P (sign_calls w) privateKey (TextEncoder_encode unsigned)
       = Ok signature
    /\ (forall otherKey,
          createVapidJwt P audience subject otherKey privateKey w = (Ok token, w'))
    /\ w' = {| keygen_calls := keygen_calls w; random_calls := random_calls w;
               clock_reads := S (clock_reads w); sign_calls := S (sign_calls w) |}.
Proof.
  intros H. pose proof H as H0. unfold createVapidJwt in H.
  apply M_bind_Ok in H as (now_ms & w1 & Hnow & H).
  unfold now in Hnow. injection Hnow as <- <-.
  apply M_bind_Ok in H as (eh & ? & H1 & H). apply lift_Ok in H1 as [Hh ->].
  apply M_bind_Ok in H as (ep & ? & H1 & H). apply lift_Ok in H1 as [Hp ->].
  apply M_bind_Ok in H as (sg & ? & H1 & H). injection H as <- <-.
  unfold sign in H1. injection H1 as Hs <-.
  assert (eh = "eyJhbGciOiJFUzI1NiIsInR5cCI6IkpXVCJ9") as ->
    by (vm_compute in Hh; congruence).
  exists ep, sg. cbn zeta. repeat split; try done.
Qed.
End Jwt.


(** ** Delivery *)

(** An interleaving has the events of all tasks, each as often as the
    tasks produced it. *)
Lemma interleaving_Permutation {A} (ls : list (list A)) (tr : list A) :
  interleaving ls tr -> tr ≡ₚ concat ls.
Proof.
  induction 1 as [ls Hnil | ls1 x l ls2 tr _ IH].
  - induction Hnil as [|l ls -> _ IH]; [done|]. simpl. exact IH.
  - rewrite IH, !concat_app. cbn [concat app].
    by rewrite <- !Permutation_middle.
Qed.

Lemma interleaving_idle {A} (ls : list (list A)) (tr : list A) :
  interleaving ls tr -> interleaving ([] :: ls) tr.
Proof.
  induction 1 as [ls Hnil | ls1 x l ls2 tr _ IH].
  - apply interleaving_done. by constructor.
  - apply (interleaving_step ([] :: ls1) x l ls2 tr IH).
Qed.

(** Running the tasks one after the other is one of the interleavings. *)
Lemma interleaving_in_order {A} (ls : list (list A)) : interleaving ls (concat ls).
Proof.
  induction ls as [|l ls IH]; [by apply interleaving_done|].
  induction l as [|x l IHl]; cbn [concat app].
  - by apply interleaving_idle.
  - apply (interleaving_step [] x l ls). exact IHl.
Qed.

Lemma tally_from (results : list bool) (acc : Counts) :
  fold_left
    (fun acc (success : bool) =>
       if success then {| sent := sent acc + 1; failed := failed acc |}
       else {| sent := sent acc; failed := failed acc + 1 |})
    results acc
  = {| sent := sent acc + Z.of_nat (length (filter (fun b => b = true) results));
       failed := failed acc + Z.of_nat (length (filter (fun b => b = false) results)) |}.
Proof.
  revert acc. induction results as [|b results IH]; intros acc.
  - destruct acc. cbn. f_equal; lia.
  - cbn [fold_left]. rewrite IH. destruct b.
    + rewrite filter_cons_True, filter_cons_False by done. cbn [sent failed length].
      f_equal; lia.
    + rewrite filter_cons_False, filter_cons_True by done. cbn [sent failed length].
      f_equal; lia.
Qed.

Lemma tally_spec (results : list bool) :
  tally results
  = {| sent := Z.of_nat (length (filter (fun b => b = true) results));
       failed := Z.of_nat (length (filter (fun b => b = false) results)) |}.
Proof. unfold tally. by rewrite tally_from. Qed.

Lemma filter_map_length {A} (f : A -> bool) (b : bool) (l : list A) :
  length (filter (fun x => x = b) (map f l)) = length (filter (fun a => f a = b) l).
Proof.
  induction l as [|a l IH]; [done|]. cbn [map].
  destruct (decide (f a = b)) as [E|E].
  - rewrite !filter_cons_True by done. simpl. by rewrite IH.
  - by rewrite !filter_cons_False.
Qed.

Lemma count_partition (results : list bool) :
  (length (filter (fun b => b = true) results)
   + length (filter (fun b => b = false) results) = length results)%nat.
Proof.
  induction results as [|[] results IH]; [done| |].
  - rewrite filter_cons_True, filter_cons_False by done. simpl. lia.
  - rewrite filter_cons_False, filter_cons_True by done. simpl. lia.
Qed.

Section DispatcherFacts.
Context (R : Runtime).

Lemma deactivations_app tr1 tr2 :
  deactivations (tr1 ++ tr2) = deactivations tr1 ++ deactivations tr2.
Proof. apply omap_app. Qed.

Lemma fetches_app tr1 tr2 : fetches (tr1 ++ tr2) = fetches tr1 ++ fetches tr2.
Proof. apply omap_app. Qed.

(** [sendPush] touches the outside world at most once, by a request to the
    subscriber's endpoint. *)
Lemma sendPush_events subscription payloadString env :
  deactivations (fst (sendPush R subscription payloadString env)) = []
  /\ (fetches (fst (sendPush R subscription payloadString env)) = []
      \/ fetches (fst (sendPush R subscription payloadString env))
         = [endpoint subscription]).
Proof.
  unfold sendPush, call, fetch, emit.
  destruct (getAudience R _); cbn; [|by auto].
  destruct (Push.importVapidPrivateKey R _); cbn; [|by auto].
  destruct (Push.createVapidJwt R _ _ _ _); cbn; [|by auto].
  destruct (Push.encryptPayload R _ _); cbn; [|by auto].
  destruct (push_service R _ _); cbn; auto.
Qed.

(** X3. The one request [sendPush] makes is a POST to the subscriber's endpoint
    whose body is the frame of [encryptPayload] and whose [Authorization]
    header carries the token of [createVapidJwt], made for the endpoint's
    audience and the contact address, and the public key; [sendPush]
    resolves or rejects with what [fetch] does. *)
Theorem sendPush_request subscription payloadString env url request :
  In (Fetch url request) (fst (sendPush R subscription payloadString env)) ->
  url = endpoint subscription
  /\ exists audience vapidPrivateKey vapidJwt encryptedPayload,
       getAudience R (endpoint subscription) = Ok audience
       /\ Push.importVapidPrivateKey R (VAPID_PRIVATE_KEY env) = Ok vapidPrivateKey
       /\ Push.createVapidJwt R audience (CONTACT_EMAIL env) (VAPID_PUBLIC_KEY env)
            vapidPrivateKey = Ok vapidJwt
       /\ Push.encryptPayload R payloadString subscription = Ok encryptedPayload
       /\ request
          = {| method := "POST";
               headers :=
                 [("TTL", "86400");
                  ("Content-Type", "application/octet-stream");
                  ("Content-Encoding", "aes128gcm");
                  ("Urgency", "normal");
                  ("Authorization",
                   String.concat "" ["vapid t="; vapidJwt; ", k="; VAPID_PUBLIC_KEY env])];
               body := encryptedPayload |}
       /\ sendPush R subscription payloadString env
          = ([Fetch url request], push_service R url request).
Proof.
  unfold sendPush, call, fetch, emit.
  destruct (getAudience R _) as [audience|] eqn:Ha; cbn; [|done].
  destruct (Push.importVapidPrivateKey R _) as [key|] eqn:Hk; cbn; [|done].
  destruct (Push.createVapidJwt R _ _ _ _) as [jwt|] eqn:Hj; cbn; [|done].
  destruct (Push.encryptPayload R _ _) as [frame|] eqn:He; cbn; [|done].
  destruct (push_service R _ _) as [response|e] eqn:Hr; cbn;
    (intros [[= <- <-]|[]]; split; [done|]; exists audience, key, jwt, frame;
     rewrite ?Hr; done).
Qed.

Lemma processSubscription_spec record payloadString env :
  exists tr,
    processSubscription R record payloadString env
    = (tr, Ok (delivered R payloadString env record))
    /\ deactivations tr
       = (if gone R payloadString env record then [Db.endpoint record] else [])
    /\ fetches tr
       = fetches (fst (sendPush R (Db.recordToSubscription record) payloadString env)).
Proof.
  unfold processSubscription, delivered, gone, response_of.
  destruct (sendPush_events (Db.recordToSubscription record) payloadString env)
    as [Hd _].
  destruct (sendPush R (Db.recordToSubscription record) payloadString env)
    as [tr [r|e]] eqn:E; cbn [fst snd] in *.
  - cbn [mbind Task_bind].
    destruct ((status r =? 200) || (status r =? 201)) eqn:E200.
    + cbn. rewrite app_nil_r. eexists. split; [reflexivity|].
      rewrite Hd. split; [|done].
      destruct (status r =? 410) eqn:E410; [|done].
      apply Z.eqb_eq in E410. rewrite E410 in E200. done.
    + destruct (status r =? 410) eqn:E410.
      * unfold deactivateSubscription, emit, call.
        destruct (d1_run R _) as [[]|e]; cbn; eexists; (split; [reflexivity|]);
          rewrite ?deactivations_app, ?fetches_app, Hd; cbn;
          rewrite ?app_nil_r; done.
      * unfold call, console_error, emit.
        destruct (text r) as [t|e]; cbn; eexists; (split; [reflexivity|]);
          rewrite ?deactivations_app, ?fetches_app, Hd; cbn;
          rewrite ?app_nil_r; done.
  - cbn. eexists. split; [reflexivity|].
    rewrite ?deactivations_app, ?fetches_app, Hd. cbn. by rewrite app_nil_r.
Qed.

Lemma processSubscription_never_throws record payloadString env :
  snd (processSubscription R record payloadString env)
  = Ok (delivered R payloadString env record).
Proof.
  destruct (processSubscription_spec record payloadString env) as (tr & -> & _). done.
Qed.

Lemma tasks_results db payloadString env :
  all_results (map snd (tasks R db payloadString env))
  = Ok (map (delivered R payloadString env) (Db.getActiveSubscriptions db)).
Proof.
  unfold tasks. induction (Db.getActiveSubscriptions db) as [|record records IH]; [done|].
  cbn [map all_results]. rewrite processSubscription_never_throws, IH. done.
Qed.

Lemma tasks_deactivations db payloadString env :
  deactivations (concat (map fst (tasks R db payloadString env)))
  = map Db.endpoint (filter (fun record => gone R payloadString env record = true)
                            (Db.getActiveSubscriptions db)).
Proof.
  unfold tasks. induction (Db.getActiveSubscriptions db) as [|record records IH]; [done|].
  cbn [map concat]. rewrite deactivations_app, IH.
  destruct (processSubscription_spec record payloadString env) as (tr & E1 & E2 & _).
  rewrite E1. cbn [fst]. rewrite E2.
  destruct (gone R payloadString env record) eqn:E.
  - by rewrite filter_cons_True.
  - rewrite filter_cons_False; [done|]. by rewrite E.
Qed.

Lemma tasks_fetches db payloadString env :
  fetches (concat (map fst (tasks R db payloadString env)))
  = concat (map (fun record =>
                   fetches (fst (sendPush R (Db.recordToSubscription record)
                                   payloadString env)))
                (Db.getActiveSubscriptions db)).
Proof.
  unfold tasks. induction (Db.getActiveSubscriptions db) as [|record records IH]; [done|].
  cbn [map concat]. rewrite fetches_app, IH.
  destruct (processSubscription_spec record payloadString env) as (tr & E1 & _ & E2).
  rewrite E1. cbn [fst]. by rewrite E2.
Qed.

(** The run in which the tasks finish one after the other is a run. *)
Lemma sendPushToAll_in_order_run db payload env :
  sendPushToAll R db payload env (sendPushToAll_in_order R db payload env).
Proof.
  unfold sendPushToAll, sendPushToAll_in_order.
  destruct (JSON_stringify R payload); [|done].
  split; [apply interleaving_in_order|done].
Qed.

(** C3. Whatever the interleaving of the tasks, [sendPushToAll] resolves
    (it never rejects because of a subscriber) with [sent] the number of
    subscribers whose response is 200 or 201 and [failed] the number of all
    others, a 410 or an exception included; the two add up to the number of
    subscribers; the deactivation calls are the endpoints of the subscribers
    that answered 410, one call each; and the requests are those of one
    [sendPush] per subscriber. *)
Theorem sendPushToAll_isolation db payload env payloadString run :
  JSON_stringify R payload = Ok payloadString ->
  sendPushToAll R db payload env run ->
  exists counts,
    snd run = Ok counts
    /\ sent counts
       = Z.of_nat (length (filter (fun record => delivered R payloadString env record = true)
                                  (Db.getActiveSubscriptions db)))
    /\ failed counts
       = Z.of_nat (length (filter (fun record => delivered R payloadString env record = false)
                                  (Db.getActiveSubscriptions db)))
    /\ sent counts + failed counts = Z.of_nat (length (Db.getActiveSubscriptions db))
    /\ deactivations (fst run)
       ≡ₚ map Db.endpoint (filter (fun record => gone R payloadString env record = true)
                                  (Db.getActiveSubscriptions db))
    /\ fetches (fst run)
       ≡ₚ concat (map (fun record =>
                         fetches (fst (sendPush R (Db.recordToSubscription record)
                                         payloadString env)))
                      (Db.getActiveSubscriptions db)).
Proof.
  intros Hjson Hrun. unfold sendPushToAll in Hrun. rewrite Hjson in Hrun.
  destruct Hrun as [Htr Hres].
  apply interleaving_Permutation in Htr.
  rewrite tasks_results in Hres. cbn in Hres. rewrite tally_spec in Hres.
  eexists. split; [exact Hres|]. cbn [sent failed].
  set (subs := Db.getActiveSubscriptions db).
  pose proof (filter_map_length (delivered R payloadString env) true subs) as Ht.
  pose proof (filter_map_length (delivered R payloadString env) false subs) as Hf.
  pose proof (count_partition (map (delivered R payloadString env) subs)) as Hpart.
  rewrite length_map in Hpart. subst subs.
  repeat split.
  - by rewrite Ht.
  - by rewrite Hf.
  - lia.
  - rewrite <- tasks_deactivations. unfold deactivations. by rewrite Htr.
  - rewrite <- tasks_fetches. unfold fetches. by rewrite Htr.
Qed.

(** One iteration of the legacy loop does what one task does, and updates
    the counter the task's result selects. *)
Lemma legacy_iteration_spec record payloadString env counts :
  Legacy.iteration R record payloadString env counts
  = (fst (processSubscription R record payloadString env),
     Ok (if delivered R payloadString env record
         then {| sent := sent counts + 1; failed := failed counts |}
         else {| sent := sent counts; failed := failed counts + 1 |})).
Proof.
  unfold Legacy.iteration, processSubscription, delivered, response_of.
  destruct (sendPush R (Db.recordToSubscription record) payloadString env)
    as [tr [r|e]]; cbn [fst snd mbind Task_bind]; [|done].
  destruct ((status r =? 200) || (status r =? 201)); [done|].
  destruct (status r =? 410).
  - unfold deactivateSubscription, emit, call. by destruct (d1_run R _) as [[]|e].
  - unfold call, console_error, emit. by destruct (text r).
Qed.

Lemma legacy_loop_spec records payloadString env counts :
  Legacy.loop R records payloadString env counts
  = (concat (map (fun record => fst (processSubscription R record payloadString env))
                 records),
     Ok (fold_left
           (fun acc (success : bool) =>
              if success then {| sent := sent acc + 1; failed := failed acc |}
              else {| sent := sent acc; failed := failed acc + 1 |})
           (map (delivered R payloadString env) records) counts)).
Proof.
  revert counts. induction records as [|record records IH]; intros counts; [done|].
  cbn [Legacy.loop map concat fold_left].
  rewrite legacy_iteration_spec. cbn [mbind Task_bind]. by rewrite IH.
Qed.

(** The legacy function is the run of the current one in which the tasks
    finish one after the other. *)
Lemma sendPushToAll_legacy_in_order db payload env :
  Legacy.sendPushToAll R db payload env = sendPushToAll_in_order R db payload env.
Proof.
  unfold Legacy.sendPushToAll, sendPushToAll_in_order, call.
  destruct (JSON_stringify R payload) as [payloadString|e]; [|done].
  cbn [mbind Task_bind]. rewrite legacy_loop_spec, tasks_results. cbn [app].
  unfold tasks, tally. by rewrite map_map.
Qed.

(** C10. Every run of the current [sendPushToAll] resolves or rejects with
    what the legacy, sequential function does, and deactivates the same
    endpoints as often (hence the same set); the legacy function's own run
    is one of the runs of the current one. *)
Theorem sendPushToAll_legacy_agrees db payload env run :
  sendPushToAll R db payload env run ->
  snd run = snd (Legacy.sendPushToAll R db payload env)
  /\ deactivations (fst run) ≡ₚ deactivations (fst (Legacy.sendPushToAll R db payload env))
  /\ (list_to_set (deactivations (fst run)) : gset string)
     = list_to_set (deactivations (fst (Legacy.sendPushToAll R db payload env)))
  /\ sendPushToAll R db payload env (Legacy.sendPushToAll R db payload env).
Proof.
  intros Hrun. rewrite sendPushToAll_legacy_in_order.
  assert (Hperm : deactivations (fst run)
                  ≡ₚ deactivations (fst (sendPushToAll_in_order R db payload env))).
  { unfold sendPushToAll, sendPushToAll_in_order in *.
    destruct (JSON_stringify R payload) as [payloadString|e]; [|by subst run].
    destruct Hrun as [Htr _]. apply interleaving_Permutation in Htr.
    cbn [fst]. unfold deactivations. by rewrite Htr. }
  split; [|split; [exact Hperm|split]].
  - unfold sendPushToAll, sendPushToAll_in_order in *.
    destruct (JSON_stringify R payload) as [payloadString|e]; [|by subst run].
    by destruct Hrun as [_ ->].
  - apply set_eq. intros x. rewrite !elem_of_list_to_set. by rewrite Hperm.
  - apply sendPushToAll_in_order_run.
Qed.

(** C9, as the code has it.  For an endpoint with no active row in the
    store, [sendNotificationToSubscription] logs one line and resolves with
    [{success: false, status: 404, statusText: "Subscription not found in
    DB"}]; it sends no request and writes nothing to the store. *)
Theorem sendNotificationToSubscription_unknown db endpoint payload env :
  (forall record, record ∈ db -> Db.endpoint record = endpoint -> Db.active record <> 1) ->
  sendNotificationToSubscription R db endpoint payload env
  = ([ConsoleError (String.append "Subscription not found: " endpoint) None],
     Ok {| Outcome.success := false; Outcome.status := 404;
           Outcome.statusText := "Subscription not found in DB" |})
  /\ fetches (fst (sendNotificationToSubscription R db endpoint payload env)) = []
  /\ deactivations (fst (sendNotificationToSubscription R db endpoint payload env)) = [].
Proof.
  intros Habsent.
  assert (Hnone : Db.getSubscriptionByEndpoint db endpoint = None).
  { unfold Db.getSubscriptionByEndpoint.
    destruct (filter _ db) as [|record rest] eqn:E; [done|].
    assert (Hin : record ∈ filter (fun r => Db.endpoint r = endpoint /\ Db.active r = 1) db)
      by (rewrite E; left).
    apply list_elem_of_filter in Hin as [[He Ha] Hin].
    by destruct (Habsent record Hin He). }
  unfold sendNotificationToSubscription. rewrite Hnone. done.
Qed.
End DispatcherFacts.

(** ** Delivery and token: closed examples *)

(** Five subscribers, number 3 answers 410 and number 5 cannot be reached:
    every run returns three sent and two failed, deactivates the endpoint
    of number 3 and nothing else, and made one request per subscriber. *)
Lemma sendPushToAll_isolation_witness :
  JSON_stringify Demo.runtime "{}" = Ok "{}"
  /\ sendPushToAll Demo.runtime Demo.db "{}" Demo.env
       (sendPushToAll_in_order Demo.runtime Demo.db "{}" Demo.env)
  /\ forall run,
      sendPushToAll Demo.runtime Demo.db "{}" Demo.env run ->
      snd run = Ok {| sent := 3; failed := 2 |}
      /\ deactivations (fst run) = ["https://push.example.net/send/3"]
      /\ length (fetches (fst run)) = 5%nat.
Proof.
  split; [reflexivity|]. split; [apply sendPushToAll_in_order_run|].
  intros run Hrun.
  destruct (sendPushToAll_isolation Demo.runtime Demo.db "{}" Demo.env "{}" run
              eq_refl Hrun)
    as ([s f] & Hres & Hs & Hf & _ & Hd & Hfetch).
  cbn [sent failed] in Hs, Hf.
  vm_compute in Hs. vm_compute in Hf. subst s f.
  split; [exact Hres|]. split.
  - apply Permutation_singleton_r. etrans; [exact Hd|]. vm_compute. reflexivity.
  - rewrite Hfetch. vm_compute. reflexivity.
Defined.

Lemma sendPushToAll_legacy_agrees_witness :
  sendPushToAll Demo.runtime Demo.db "{}" Demo.env
    (sendPushToAll_in_order Demo.runtime Demo.db "{}" Demo.env)
  /\ snd (Legacy.sendPushToAll Demo.runtime Demo.db "{}" Demo.env)
     = Ok {| sent := 3; failed := 2 |}
  /\ deactivations (fst (Legacy.sendPushToAll Demo.runtime Demo.db "{}" Demo.env))
     = ["https://push.example.net/send/3"]
  /\ snd (sendPushToAll_in_order Demo.runtime Demo.db "{}" Demo.env)
     = snd (Legacy.sendPushToAll Demo.runtime Demo.db "{}" Demo.env)
  /\ deactivations (fst (sendPushToAll_in_order Demo.runtime Demo.db "{}" Demo.env))
     ≡ₚ deactivations (fst (Legacy.sendPushToAll Demo.runtime Demo.db "{}" Demo.env)).
Proof.
  pose proof (sendPushToAll_in_order_run Demo.runtime Demo.db "{}" Demo.env) as Hrun.
  split; [exact Hrun|].
  split; [vm_compute; reflexivity|]. split; [vm_compute; reflexivity|].
  destruct (sendPushToAll_legacy_agrees Demo.runtime Demo.db "{}" Demo.env _ Hrun)
    as (Hres & Hperm & _ & _).
  split; [exact Hres | exact Hperm].
Defined.

(** C9 fails as stated: the detail of the answer is not ["not found"]. *)
Lemma sendNotificationToSubscription_detail_counterexample :
  Db.getSubscriptionByEndpoint Demo.db "https://push.example.net/send/none" = None
  /\ snd (sendNotificationToSubscription Demo.runtime Demo.db
            "https://push.example.net/send/none" "{}" Demo.env)
     = Ok {| Outcome.success := false; Outcome.status := 404;
             Outcome.statusText := "Subscription not found in DB" |}
  /\ String.eqb "Subscription not found in DB" "not found" = false.
Proof. repeat split; vm_compute; reflexivity. Qed.

Lemma sendNotificationToSubscription_unknown_witness :
  (forall record, record ∈ Demo.db ->
     Db.endpoint record = "https://push.example.net/send/none" -> Db.active record <> 1)
  /\ sendNotificationToSubscription Demo.runtime Demo.db
       "https://push.example.net/send/none" "{}" Demo.env
     = ([ConsoleError "Subscription not found: https://push.example.net/send/none" None],
        Ok {| Outcome.success := false; Outcome.status := 404;
              Outcome.statusText := "Subscription not found in DB" |})
  /\ fetches (fst (sendNotificationToSubscription Demo.runtime Demo.db
                     "https://push.example.net/send/none" "{}" Demo.env)) = []
  /\ deactivations (fst (sendNotificationToSubscription Demo.runtime Demo.db
                           "https://push.example.net/send/none" "{}" Demo.env)) = [].
Proof.
  assert (H : forall record, record ∈ Demo.db ->
     Db.endpoint record = "https://push.example.net/send/none" -> Db.active record <> 1).
  { intros record Hin He. unfold Demo.db in Hin.
    repeat (apply elem_of_cons in Hin as [->|Hin]; [vm_compute in He; discriminate|]).
    by apply elem_of_nil in Hin. }
  split; [exact H|].
  exact (sendNotificationToSubscription_unknown Demo.runtime Demo.db
           "https://push.example.net/send/none" "{}" Demo.env H).
Defined.

(** C8 fails as stated: a subject that starts with [https:] but not with
    [https://] and contains [@] gets the [mailto:] prefix. *)
Lemma finalSubject_https_colon_counterexample :
  includes "https:a@b" "@" = true
  /\ startsWith "https:a@b" "https:" = true
  /\ startsWith "https:a@b" "mailto:" = false
  /\ finalSubject "https:a@b" = "mailto:https:a@b"
  /\ sub (vapidPayload "https://push.example.net" "https:a@b" 0) = "mailto:https:a@b".
Proof. repeat split; reflexivity. Qed.

Lemma interleaving_two_one {A} (a b c : A) : interleaving [[a; b]; [c]] [a; c; b].
Proof.
  apply (interleaving_step [] a [b] [[c]]).
  apply (interleaving_step [[b]] c [] []).
  apply (interleaving_step [] b [] [[]]).
  apply interleaving_done. repeat constructor.
Qed.

(** X4. A run that is not sequential: the request to the second subscriber goes
    out between the first subscriber's response and its deactivation. *)
Example sendPushToAll_interleaved_run :
  exists request3 request1,
    map fst (tasks Demo.runtime [Demo.record "3"; Demo.record "1"] "{}" Demo.env)
    = [[Fetch "https://push.example.net/send/3" request3;
        Deactivate "https://push.example.net/send/3"];
       [Fetch "https://push.example.net/send/1" request1]]
    /\ sendPushToAll Demo.runtime [Demo.record "3"; Demo.record "1"] "{}" Demo.env
         ([Fetch "https://push.example.net/send/3" request3;
           Fetch "https://push.example.net/send/1" request1;
           Deactivate "https://push.example.net/send/3"],
          Ok {| sent := 1; failed := 1 |}).
Proof.
  eexists _, _.
  assert (H : map fst (tasks Demo.runtime [Demo.record "3"; Demo.record "1"] "{}" Demo.env)
              = [[Fetch "https://push.example.net/send/3" _;
                  Deactivate "https://push.example.net/send/3"];
                 [Fetch "https://push.example.net/send/1" _]])
    by (vm_compute; reflexivity).
  split; [exact H|].
  unfold sendPushToAll. cbn [JSON_stringify Demo.runtime fst snd]. split.
  - rewrite H. apply interleaving_two_one.
  - vm_compute. reflexivity.
Qed.

Lemma createVapidJwt_signed_token_witness :
  createVapidJwt Fake.platform "https://push.example.net" "user@example.com"
    "BPublicKey" [x01; x02; x03] world0
  = (Ok example_token,
     {| keygen_calls := 0; random_calls := 0; clock_reads := 1; sign_calls := 1 |})
  /\ exists encodedPayload signature,
      example_token
      = String.concat ""
          [String.concat "" ["eyJhbGciOiJFUzI1NiIsInR5cCI6IkpXVCJ9"; "."; encodedPayload];
           "."; arrayBufferToBase64Url signature].
Proof.
  assert (H : createVapidJwt Fake.platform "https://push.example.net" "user@example.com"
                "BPublicKey" [x01; x02; x03] world0
              = (Ok example_token,
                 {| keygen_calls := 0; random_calls := 0; clock_reads := 1;
                    sign_calls := 1 |})) by (vm_compute; reflexivity).
  split; [exact H|].
  destruct (createVapidJwt_signed_token Fake.platform _ _ _ _ _ _ _ H)
    as (ep & sg & Htoken & _).
  exists ep, sg. exact Htoken.
Defined.

Lemma sendPush_request_witness :
  exists request,
    In (Fetch "https://push.example.net/send/1" request)
       (fst (sendPush Demo.runtime (Db.recordToSubscription (Demo.record "1")) "{}"
               Demo.env))
    /\ method request = "POST"
    /\ sendPush Demo.runtime (Db.recordToSubscription (Demo.record "1")) "{}" Demo.env
       = ([Fetch "https://push.example.net/send/1" request],
          Ok {| status := 201; statusText := "Created"; text := Ok "" |}).
Proof.
  assert (H : { request |
    fst (sendPush Demo.runtime (Db.recordToSubscription (Demo.record "1")) "{}" Demo.env)
    = [Fetch "https://push.example.net/send/1" request] }).
  { eexists. vm_compute. reflexivity. }
  destruct H as [request H]. exists request.
  assert (Hin : In (Fetch "https://push.example.net/send/1" request)
                   (fst (sendPush Demo.runtime (Db.recordToSubscription (Demo.record "1"))
                           "{}" Demo.env))) by (rewrite H; by left).
  split; [exact Hin|].
  destruct (sendPush_request Demo.runtime _ _ _ _ _ Hin)
    as (_ & audience & key & jwt & frame & _ & _ & _ & _ & -> & ->).
  split; reflexivity.
Defined.

(** ** One subscriber *)

Section Single.
Context (R : Runtime).

Lemma getSubscriptionByEndpoint_Some db e record :
  Db.getSubscriptionByEndpoint db e = Some record ->
  record ∈ db /\ Db.endpoint record = e /\ Db.active record = 1.
Proof.
  unfold Db.getSubscriptionByEndpoint. intros H.
  destruct (filter _ db) as [|r rest] eqn:E; [done|]. injection H as ->.
  assert (Hin : record ∈ filter (fun r => Db.endpoint r = e /\ Db.active r = 1) db)
    by (rewrite E; left).
  apply list_elem_of_filter in Hin as [[He Ha] Hin]. done.
Qed.

(** X5. Once the lookup has answered with an active row,
    [sendNotificationToSubscription] does not reject: when
    [JSON.stringify], [sendPush] or the reading of the response's body
    fails, the outcome is [success: false], status 500 and the error's
    message, or its text when it has none; otherwise the outcome passes on
    the response's status and status text, followed by the body when there
    is one, and reports success for the statuses 200 and 201 only.  At most
    one request is sent, to the endpoint, and the store is left alone, also
    when the push service answers 410. *)
Theorem sendNotificationToSubscription_found db endpoint payload env record :
  Db.getSubscriptionByEndpoint db endpoint = Some record ->
  exists outcome,
    snd (sendNotificationToSubscription R db endpoint payload env) = Ok outcome
    /\ outcome
       = match (payloadString ← JSON_stringify R payload;
                response ← response_of R record payloadString env;
                body ← text response;
                mret (response, body)) with
         | Ok (response, body) =>
             {| Outcome.success := (status response =? 200)%Z || (status response =? 201)%Z;
                Outcome.status := status response;
                Outcome.statusText :=
                  String.append (statusText response)
                    (if String.eqb body "" then "" else String.append " - " body) |}
         | Throw error =>
             {| Outcome.success := false;
                Outcome.status := 500;
                Outcome.statusText :=
                  if String.eqb (exn_message error) "" then Exception_toString error
                  else exn_message error |}
         end
    /\ (Outcome.success outcome = true
        <-> Outcome.status outcome = 200%Z \/ Outcome.status outcome = 201%Z)
    /\ (forall payloadString response,
          JSON_stringify R payload = Ok payloadString ->
          response_of R record payloadString env = Ok response ->
          is_Ok (text response) = true ->
          Outcome.status outcome = status response)
    /\ (forall payloadString e,
          JSON_stringify R payload = Ok payloadString ->
          response_of R record payloadString env = Throw e ->
          Outcome.status outcome = 500%Z)
    /\ deactivations (fst (sendNotificationToSubscription R db endpoint payload env)) = []
    /\ (fetches (fst (sendNotificationToSubscription R db endpoint payload env)) = []
        \/ fetches (fst (sendNotificationToSubscription R db endpoint payload env))
           = [endpoint]).
Proof.
  intros Hfound.
  destruct (getSubscriptionByEndpoint_Some _ _ _ Hfound) as (_ & He & _).
  unfold sendNotificationToSubscription, response_of. rewrite Hfound.
  replace {| Types.endpoint := Db.endpoint record;
             expirationTime := Db.expiration_time record;
             keys := {| p256dh := Db.p256dh record; auth := Db.auth record |} |}
    with (Db.recordToSubscription record) by reflexivity.
  destruct (JSON_stringify R payload) as [payloadString|e0].
  2:{ cbn. eexists. split; [reflexivity|]. cbn.
      repeat split; try done; try (intros [|]; done). auto. }
  unfold call, console_error, emit, try_catch.
  cbn [mbind Task_bind mret Task_ret app result_bind result_ret].
  destruct (sendPush_events R (Db.recordToSubscription record) payloadString env)
    as [Hd Hf].
  cbn [Db.recordToSubscription Types.endpoint] in Hf. rewrite He in Hf.
  assert (Hsame : forall s, Ok payloadString = Ok s ->
            sendPush R (Db.recordToSubscription record) s env
            = sendPush R (Db.recordToSubscription record) payloadString env)
    by (by intros s [= <-]).
  destruct (sendPush R (Db.recordToSubscription record) payloadString env)
    as [tr [r|e]]; cbn [fst snd] in Hd, Hf;
    unfold call, console_error, emit, try_catch;
    cbn [mbind Task_bind mret Task_ret fst snd app result_bind result_ret].
  - destruct (text r) as [t|e] eqn:Ht; [destruct (ok r)|];
      cbn [mbind Task_bind mret Task_ret fst snd app result_bind result_ret];
      (eexists; split; [reflexivity|]); (split; [reflexivity|]);
      cbn [Outcome.success Outcome.status];
      rewrite ?deactivations_app, ?fetches_app, Hd; cbn [deactivations fetches omap app];
      rewrite ?app_nil_r.
    + split; [rewrite orb_true_iff, !Z.eqb_eq; done|].
      split; [intros s response Hsr; rewrite (Hsame s Hsr); by intros [= <-]|].
      split; [intros s e Hsr; rewrite (Hsame s Hsr); by intros [=]|]. done.
    + split; [rewrite orb_true_iff, !Z.eqb_eq; done|].
      split; [intros s response Hsr; rewrite (Hsame s Hsr); by intros [= <-]|].
      split; [intros s e Hsr; rewrite (Hsame s Hsr); by intros [=]|]. done.
    + split; [split; [done|intros [|]; done]|].
      split; [intros s response Hsr; rewrite (Hsame s Hsr); intros [= <-];
              by rewrite Ht|].
      split; [done|]. done.
  - eexists; split; [reflexivity|]. split; [reflexivity|].
    cbn [Outcome.success Outcome.status].
    rewrite ?deactivations_app, ?fetches_app, Hd; cbn [deactivations fetches omap app].
    rewrite ?app_nil_r.
    split; [split; [done|intros [|]; done]|].
    split; [intros s response Hsr; rewrite (Hsame s Hsr); by intros [=]|].
    split; [done|]. done.
Qed.
End Single.

(** ** The store *)

Lemma getSubscriptionByEndpoint_cons db r e :
  Db.getSubscriptionByEndpoint (r :: db) e
  = if decide (Db.endpoint r = e /\ Db.active r = 1) then Some r
    else Db.getSubscriptionByEndpoint db e.
Proof.
  unfold Db.getSubscriptionByEndpoint, Db.D1Database. rewrite filter_cons.
  by destruct (decide _).
Qed.

Lemma getSubscriptionByEndpoint_app_absent db r e :
  (forall r0, r0 ∈ db -> Db.endpoint r0 <> e) ->
  Db.getSubscriptionByEndpoint (db ++ [r]) e
  = if decide (Db.endpoint r = e /\ Db.active r = 1) then Some r else None.
Proof.
  induction db as [|r0 db IH]; intros H.
  - rewrite app_nil_l, getSubscriptionByEndpoint_cons. done.
  - cbn [app]. rewrite getSubscriptionByEndpoint_cons.
    destruct (decide (Db.endpoint r0 = e /\ Db.active r0 = 1)) as [[He _]|_].
    + exfalso. apply (H r0); [left|done].
    + apply IH. intros r1 Hin. apply H. by right.
Qed.

Lemma existsb_endpoint db e :
  existsb (fun r => String.eqb (Db.endpoint r) e) db = true
  <-> exists r, r ∈ db /\ Db.endpoint r = e.
Proof.
  rewrite existsb_exists. split.
  - intros (r & Hin & He). exists r. split; [by apply list_elem_of_In|].
    by apply String.eqb_eq.
  - intros (r & Hin & He). exists r. split; [by apply list_elem_of_In|].
    by apply String.eqb_eq.
Qed.

Lemma recordToSubscription_saved_row subscription userAgent created updated :
  Db.recordToSubscription (Db.saved_row subscription userAgent created updated)
  = {| Types.endpoint := Types.endpoint subscription;
       expirationTime := Db.number_or_null (expirationTime subscription);
       keys := keys subscription |}.
Proof. by destruct subscription as [e t [p a]]. Qed.

Lemma getSubscriptionByEndpoint_update db subscription userAgent updated :
  Db.getSubscriptionByEndpoint
    (map (fun r =>
            if String.eqb (Db.endpoint r) (Types.endpoint subscription)
            then Db.saved_row subscription userAgent (Db.created_at r) updated
            else r) db)
    (Types.endpoint subscription)
  = (fun old => Db.saved_row subscription userAgent (Db.created_at old) updated)
    <$> List.find (fun r => String.eqb (Db.endpoint r) (Types.endpoint subscription)) db.
Proof.
  induction db as [|r db IH]; [done|].
  cbn [map List.find]. rewrite getSubscriptionByEndpoint_cons.
  destruct (String.eqb_spec (Db.endpoint r) (Types.endpoint subscription)) as [He|He].
  - by rewrite decide_True.
  - rewrite decide_False by (by intros [? _]). exact IH.
Qed.

Lemma find_endpoint db e :
  existsb (fun r => String.eqb (Db.endpoint r) e) db
  = bool_decide (is_Some (List.find (fun r => String.eqb (Db.endpoint r) e) db)).
Proof.
  induction db as [|r db IH]; [done|]. cbn [existsb List.find].
  destruct (String.eqb (Db.endpoint r) e); [|exact IH].
  symmetry. apply bool_decide_eq_true. by eexists.
Qed.

(** X6. A subscription that was saved is found under its endpoint, active, with
    the keys that were sent, also when the endpoint had been deactivated
    before.  An expiration time of zero and an empty user agent are stored
    as [NULL]; a row that exists keeps its [created_at]. *)
Theorem saveSubscription_getSubscriptionByEndpoint db subscription userAgent
    created updated :
  exists row,
    Db.getSubscriptionByEndpoint
      (Db.saveSubscription db subscription userAgent created updated)
      (Types.endpoint subscription) = Some row
    /\ Db.recordToSubscription row
       = {| Types.endpoint := Types.endpoint subscription;
            expirationTime := Db.number_or_null (expirationTime subscription);
            keys := keys subscription |}
    /\ Db.user_agent row = Db.string_or_null userAgent
    /\ Db.updated_at row = updated
    /\ Db.active row = 1
    /\ Db.created_at row
       = match List.find (fun r => String.eqb (Db.endpoint r) (Types.endpoint subscription))
                 db with
         | Some old => Db.created_at old
         | None => created
         end.
Proof.
  unfold Db.saveSubscription. rewrite find_endpoint.
  destruct (List.find _ db) as [old|] eqn:Hfind.
  - rewrite bool_decide_eq_true_2 by (by eexists).
    rewrite getSubscriptionByEndpoint_update, Hfind. cbn [fmap option_fmap option_map].
    eexists. split; [reflexivity|].
    rewrite recordToSubscription_saved_row. done.
  - rewrite bool_decide_eq_false_2 by (by intros [? [=]]).
    rewrite getSubscriptionByEndpoint_app_absent.
    + rewrite decide_True by done. eexists. split; [reflexivity|].
      rewrite recordToSubscription_saved_row. done.
    + intros r0 Hin He. apply list_elem_of_In in Hin.
      eapply find_none in Hin; [|exact Hfind]. cbn in Hin.
      by apply String.eqb_neq in Hin.
Qed.

Lemma getSubscriptionByEndpoint_map_other (f : Db.SubscriptionRecord -> Db.SubscriptionRecord)
    db e e' :
  e' <> e ->
  (forall r, Db.endpoint (f r) = Db.endpoint r) ->
  (forall r, Db.endpoint r <> e -> f r = r) ->
  Db.getSubscriptionByEndpoint (map f db) e' = Db.getSubscriptionByEndpoint db e'.
Proof.
  intros Hne Hend Hother. induction db as [|r db IH]; [done|].
  cbn [map]. rewrite !getSubscriptionByEndpoint_cons, IH, Hend.
  destruct (decide (Db.endpoint r = e)) as [He|He].
  - rewrite !decide_False; [done| |]; intros [? _]; congruence.
  - by rewrite Hother.
Qed.

(** X7. Saving a subscription leaves every other endpoint as it is, removes no
    row and keeps the endpoints of the table distinct, as the [UNIQUE]
    column requires. *)
Theorem saveSubscription_others db subscription userAgent created updated :
  NoDup (map Db.endpoint db) ->
  NoDup (map Db.endpoint
           (Db.saveSubscription db subscription userAgent created updated))
  /\ (length db
      <= length (Db.saveSubscription db subscription userAgent created updated))%nat
  /\ forall e, e <> Types.endpoint subscription ->
       Db.getSubscriptionByEndpoint
         (Db.saveSubscription db subscription userAgent created updated) e
       = Db.getSubscriptionByEndpoint db e.
Proof.
  intros Hnodup. unfold Db.saveSubscription.
  destruct (existsb _ db) eqn:Hex.
  - assert (Hend : forall r,
      Db.endpoint (if String.eqb (Db.endpoint r) (Types.endpoint subscription)
                   then Db.saved_row subscription userAgent (Db.created_at r) updated
                   else r) = Db.endpoint r).
    { intros r. destruct (String.eqb_spec (Db.endpoint r) (Types.endpoint subscription));
        done. }
    split; [|split].
    + rewrite map_map. erewrite map_ext; [exact Hnodup|]. intros r. apply Hend.
    + by rewrite length_map.
    + intros e He. apply (getSubscriptionByEndpoint_map_other _ _ _ _ He Hend).
      intros r Hr. by apply String.eqb_neq in Hr as ->.
  - split; [|split].
    + rewrite map_app. cbn [map]. apply NoDup_app. split; [done|].
      split; [|apply NoDup_singleton].
      intros e Hin ->%list_elem_of_singleton.
      apply list_elem_of_fmap in Hin as (r & He & Hin).
      assert (existsb (fun r => String.eqb (Db.endpoint r) (Types.endpoint subscription)) db
              = true) by (apply existsb_endpoint; eauto).
      congruence.
    + rewrite length_app. lia.
    + intros e He.
      unfold Db.getSubscriptionByEndpoint, Db.D1Database.
      rewrite filter_app, filter_cons, decide_False, filter_nil, app_nil_r; [done|].
      intros [? _]. done.
Qed.

(** ** Deactivation *)

Lemma getSubscriptionByEndpoint_deactivated db e now :
  Db.getSubscriptionByEndpoint (Db.deactivateSubscription db e now) e = None.
Proof.
  unfold Db.deactivateSubscription.
  induction db as [|r db IH]; [done|].
  cbn [map]. rewrite getSubscriptionByEndpoint_cons, IH.
  apply decide_False. intros [He Ha].
  destruct (String.eqb_spec (Db.endpoint r) e) as [Hr|Hr]; [done|]. done.
Qed.

Lemma getActiveSubscriptions_deactivated db e now :
  Db.getActiveSubscriptions (Db.deactivateSubscription db e now)
  = filter (fun r => Db.endpoint r <> e) (Db.getActiveSubscriptions db).
Proof.
  unfold Db.getActiveSubscriptions, Db.deactivateSubscription, Db.D1Database.
  induction db as [|r db IH]; [done|].
  cbn [map]. rewrite !filter_cons, IH.
  destruct (String.eqb_spec (Db.endpoint r) e) as [Hr|Hr].
  - rewrite decide_False by done.
    destruct (decide (Db.active r = 1)); [|done].
    by rewrite filter_cons, decide_False by (by intros ?).
  - destruct (decide (Db.active r = 1)); [|done].
    by rewrite filter_cons, decide_True.
Qed.

(** X8. A deactivated endpoint is no longer found and no longer among the
    active subscriptions; the other endpoints are as before, and the row
    stays in the table. *)
Theorem deactivateSubscription_spec db e now :
  Db.getSubscriptionByEndpoint (Db.deactivateSubscription db e now) e = None
  /\ Db.getActiveSubscriptions (Db.deactivateSubscription db e now)
     = filter (fun r => Db.endpoint r <> e) (Db.getActiveSubscriptions db)
  /\ map Db.endpoint (Db.deactivateSubscription db e now) = map Db.endpoint db
  /\ forall e', e' <> e ->
       Db.getSubscriptionByEndpoint (Db.deactivateSubscription db e now) e'
       = Db.getSubscriptionByEndpoint db e'.
Proof.
  split; [apply getSubscriptionByEndpoint_deactivated|].
  split; [apply getActiveSubscriptions_deactivated|].
  assert (Hend : forall r,
    Db.endpoint (if String.eqb (Db.endpoint r) e then Db.deactivated r now else r)
    = Db.endpoint r).
  { intros r. by destruct (String.eqb (Db.endpoint r) e). }
  split.
  - unfold Db.deactivateSubscription. rewrite map_map. apply map_ext, Hend.
  - intros e' He'. apply (getSubscriptionByEndpoint_map_other _ _ _ _ He' Hend).
    intros r Hr. by apply String.eqb_neq in Hr as ->.
Qed.

(** ** Expiry *)

Lemma getSubscriptionCount_length db :
  Db.getSubscriptionCount db = Z.of_nat (length (Db.getActiveSubscriptions db)).
Proof.
  unfold Db.getSubscriptionCount, Db.getActiveSubscriptions, Db.D1Database.
  f_equal. induction db as [|r db IH]; [done|].
  cbn [List.filter]. rewrite filter_cons.
  destruct (Z.eqb_spec (Db.active r) 1); [rewrite decide_True by done|
                                          rewrite decide_False by done];
    cbn [length]; by rewrite IH.
Qed.

Lemma expired_expire now r : Db.expired now (Db.expire now r) = false.
Proof.
  unfold Db.expire. destruct (Db.expired now r) eqn:E; [|done]. done.
Qed.

Lemma active_expire now r :
  Db.active (Db.expire now r) = 1 <-> Db.active r = 1 /\ Db.expired now r = false.
Proof.
  unfold Db.expire. destruct (Db.expired now r) eqn:E; cbn; [|tauto].
  split; [done|]. by intros [_ ?].
Qed.

Lemma cleanup_snd db now :
  snd (Db.cleanupExpiredSubscriptions db now) = map (Db.expire now) db.
Proof. reflexivity. Qed.

Lemma getActiveSubscriptions_expire db now :
  Db.getActiveSubscriptions (map (Db.expire now) db)
  = filter (fun r => Db.expired now r = false) (Db.getActiveSubscriptions db).
Proof.
  unfold Db.getActiveSubscriptions, Db.D1Database.
  induction db as [|r db IH]; [done|].
  cbn [map]. rewrite !filter_cons, IH.
  destruct (decide (Db.active (Db.expire now r) = 1)) as [Ha|Ha].
  - apply active_expire in Ha as [Ha He].
    rewrite decide_True, filter_cons, decide_True by done.
    unfold Db.expire. by rewrite He.
  - destruct (decide (Db.active r = 1)) as [Hr|Hr]; [|done].
    rewrite filter_cons, decide_False; [done|].
    intros He. apply Ha, active_expire. done.
Qed.

Lemma length_filter_expired db now :
  (length (List.filter (Db.expired now) db)
   + length (Db.getActiveSubscriptions (map (Db.expire now) db))
   = length (Db.getActiveSubscriptions db))%nat.
Proof.
  rewrite getActiveSubscriptions_expire.
  unfold Db.getActiveSubscriptions, Db.D1Database.
  induction db as [|r db IH]; [done|].
  cbn [List.filter]. rewrite filter_cons.
  destruct (Db.expired now r) eqn:He.
  - assert (Db.active r = 1) as Ha.
    { unfold Db.expired in He. apply andb_true_iff in He as [He _]. lia. }
    rewrite decide_True, filter_cons, decide_False by (done || congruence).
    cbn [length]. lia.
  - destruct (decide (Db.active r = 1)).
    + rewrite filter_cons, decide_True by done. cbn [length]. lia.
    + exact IH.
Qed.

Lemma filter_ext_elem_of {A} (P Q : A -> Prop) `{!forall x, Decision (P x)}
    `{!forall x, Decision (Q x)} (l : list A) :
  (forall x, x ∈ l -> P x <-> Q x) -> filter P l = filter Q l.
Proof.
  induction l as [|x l IH]; intros Hext; [done|].
  rewrite !filter_cons, IH by (intros y Hy; apply Hext; by right).
  destruct (decide (P x)) as [Hp|Hp].
  - rewrite decide_True; [done|]. apply Hext; [left|done].
  - rewrite decide_False; [done|]. intros Hq. apply Hp, Hext; [left|done].
Qed.

(** X9. [cleanupExpiredSubscriptions] changes the rows that are active and
    have an expiration time before [now], and no others: each of these rows
    gets [active = 0] and [updated_at = now], every other row stays as it
    is, in its place.  So a row is active afterwards if and only if it was
    active and has no expiration time or one that is not before [now].  The
    number returned is the number of rows changed, which is the drop of
    [getSubscriptionCount]; no row is removed, and a second run at the same
    time changes nothing and returns zero. *)
Theorem cleanupExpiredSubscriptions_spec db now :
  (forall i r,
     db !! i = Some r ->
     snd (Db.cleanupExpiredSubscriptions db now) !! i
     = Some (if (Db.active r =? 1)
                && match Db.expiration_time r with
                   | Some t => t <? now
                   | None => false
                   end
             then {| Db.endpoint := Db.endpoint r; Db.p256dh := Db.p256dh r;
                     Db.auth := Db.auth r; Db.expiration_time := Db.expiration_time r;
                     Db.user_agent := Db.user_agent r; Db.created_at := Db.created_at r;
                     Db.updated_at := now; Db.active := 0 |}
             else r))
  /\ length (snd (Db.cleanupExpiredSubscriptions db now)) = length db
  /\ (forall r,
        r ∈ Db.getActiveSubscriptions (snd (Db.cleanupExpiredSubscriptions db now))
        <-> r ∈ Db.getActiveSubscriptions db
            /\ forall t, Db.expiration_time r = Some t -> now <= t)
  /\ Db.getActiveSubscriptions (snd (Db.cleanupExpiredSubscriptions db now))
     = filter (fun r => match Db.expiration_time r with
                        | Some t => now <=? t
                        | None => true
                        end = true)
         (Db.getActiveSubscriptions db)
  /\ fst (Db.cleanupExpiredSubscriptions db now)
     = Z.of_nat (length (List.filter
                           (fun r => (Db.active r =? 1)
                                     && match Db.expiration_time r with
                                        | Some t => t <? now
                                        | None => false
                                        end) db))
  /\ fst (Db.cleanupExpiredSubscriptions db now)
     = Db.getSubscriptionCount db
       - Db.getSubscriptionCount (snd (Db.cleanupExpiredSubscriptions db now))
  /\ map Db.endpoint (snd (Db.cleanupExpiredSubscriptions db now)) = map Db.endpoint db
  /\ Db.cleanupExpiredSubscriptions (snd (Db.cleanupExpiredSubscriptions db now)) now
     = (0, snd (Db.cleanupExpiredSubscriptions db now)).
Proof.
  assert (Hkept : forall r,
            r ∈ Db.getActiveSubscriptions db ->
            (Db.expired now r = false
             <-> match Db.expiration_time r with
                 | Some t => now <=? t
                 | None => true
                 end = true)).
  { intros r [Ha _]%list_elem_of_filter. unfold Db.expired. rewrite Ha.
    destruct (Db.expiration_time r) as [t|]; cbn; [|done].
    destruct (Z.ltb_spec t now), (Z.leb_spec now t); split; (done || lia). }
  assert (Hactive : Db.getActiveSubscriptions (map (Db.expire now) db)
                    = filter (fun r => match Db.expiration_time r with
                                       | Some t => now <=? t
                                       | None => true
                                       end = true)
                        (Db.getActiveSubscriptions db)).
  { rewrite getActiveSubscriptions_expire. apply filter_ext_elem_of. exact Hkept. }
  rewrite !cleanup_snd.
  split.
  { clear Hkept Hactive. intros i r Hi. revert i Hi.
    induction db as [|r0 db IH]; intros [|i] Hi; try done.
    - cbn in Hi. injection Hi as ->. reflexivity.
    - cbn in *. by apply IH. }
  split; [apply length_map|].
  split.
  { intros r. rewrite Hactive, list_elem_of_filter. split.
    - intros [Ht Hin]. split; [done|]. intros t E. rewrite E in Ht. lia.
    - intros [Hin Ht]. split; [|done].
      destruct (Db.expiration_time r) as [t|]; [|done].
      specialize (Ht t eq_refl). lia. }
  split; [exact Hactive|].
  split; [reflexivity|].
  split.
  { rewrite !getSubscriptionCount_length.
    pose proof (length_filter_expired db now). cbn [fst Db.cleanupExpiredSubscriptions].
    lia. }
  split.
  { rewrite map_map. apply map_ext. intros r. unfold Db.expire.
    by destruct (Db.expired now r). }
  clear Hkept Hactive. unfold Db.cleanupExpiredSubscriptions. f_equal.
  - induction db as [|r db IH]; [done|].
    cbn [map List.filter]. by rewrite expired_expire.
  - change (map (Db.expire now) (map (Db.expire now) db) = map (Db.expire now) db).
    rewrite map_map. apply map_ext. intros r.
    unfold Db.expire at 1. by rewrite expired_expire.
Qed.



Section StoreAfter.
Context (R : Runtime).

Lemma getActiveSubscriptions_store_after clock k tr db :
  Db.getActiveSubscriptions (store_after R clock k tr db)
  = filter (fun r => ~ (Db.endpoint r ∈ deactivations tr
                        /\ is_Ok (d1_run R (Db.endpoint r)) = true))
           (Db.getActiveSubscriptions db).
Proof.
  revert k db. induction tr as [|ev tr IH]; intros k db.
  - cbn [store_after deactivations omap].
    induction (Db.getActiveSubscriptions db) as [|r l IHl]; [done|].
    rewrite filter_cons, decide_True; [by rewrite <- IHl|].
    intros [Hin _]. by apply elem_of_nil in Hin.
  - destruct ev as [url request|e|message error]; cbn [store_after]; rewrite IH;
      try done.
    change (deactivations (Deactivate e :: tr)) with (e :: deactivations tr).
    destruct (is_Ok (d1_run R e)) eqn:Hok.
    + rewrite getActiveSubscriptions_deactivated, list_filter_filter.
      apply list_filter_iff. intros r. rewrite elem_of_cons. split.
      * intros [H1 H2] [[He|Hin] Hr]; [done|]. apply H1. done.
      * intros H. split.
        -- intros [Hin Hr]. apply H. auto.
        -- intros He. apply H. rewrite He. auto.
    + apply list_filter_iff. intros r. rewrite elem_of_cons. split.
      * intros H [[He|Hin] Hr]; [congruence|]. apply H. done.
      * intros H [Hin Hr]. apply H. auto.
Qed.

(** X10. After a run of [sendPushToAll], the subscribers that answered 410 are
    no longer active, provided their statement ran through; every other
    subscriber is as active as before, in whatever order the tasks ran. *)
Theorem sendPushToAll_store_after db payload env payloadString run clock :
  NoDup (map Db.endpoint db) ->
  JSON_stringify R payload = Ok payloadString ->
  sendPushToAll R db payload env run ->
  Db.getActiveSubscriptions (store_after R clock 0 (fst run) db)
  = filter (fun r => ~ (gone R payloadString env r = true
                        /\ is_Ok (d1_run R (Db.endpoint r)) = true))
           (Db.getActiveSubscriptions db).
Proof.
  intros Hnodup Hjson Hrun. unfold sendPushToAll in Hrun. rewrite Hjson in Hrun.
  destruct Hrun as [Htr _]. apply interleaving_Permutation in Htr.
  rewrite getActiveSubscriptions_store_after.
  assert (Hd : deactivations (fst run)
               ≡ₚ map Db.endpoint
                    (filter (fun record => gone R payloadString env record = true)
                            (Db.getActiveSubscriptions db))).
  { rewrite <- tasks_deactivations. unfold deactivations. by rewrite Htr. }
  assert (Hinj : forall r1 r2, r1 ∈ db -> r2 ∈ db ->
                   Db.endpoint r1 = Db.endpoint r2 -> r1 = r2).
  { clear -Hnodup. induction db as [|r db IH]; intros r1 r2 H1 H2 He.
    - by apply elem_of_nil in H1.
    - cbn [map] in Hnodup. apply NoDup_cons in Hnodup as [Hnot Hnodup].
      apply elem_of_cons in H1 as [->|H1]; apply elem_of_cons in H2 as [->|H2].
      + done.
      + destruct Hnot. rewrite He. by apply list_elem_of_fmap_2.
      + destruct Hnot. rewrite <- He. by apply list_elem_of_fmap_2.
      + by apply IH. }
  apply filter_ext_elem_of. intros r Hr.
  assert (Hiff : Db.endpoint r ∈ deactivations (fst run)
                 <-> gone R payloadString env r = true).
  { rewrite Hd, list_elem_of_fmap. split.
    - intros (r' & He & Hin). apply list_elem_of_filter in Hin as [Hg Hin].
      rewrite (Hinj r r'); [done| | |done].
      + by apply list_elem_of_filter in Hr as [_ ?].
      + by apply list_elem_of_filter in Hin as [_ ?].
    - intros Hg. exists r. split; [done|]. by apply list_elem_of_filter. }
  by rewrite Hiff.
Qed.
End StoreAfter.

Example replace_ex1 :
  Js.replace [[Js.Class Js.lower]; [Js.Class Js.upper]] Js.group1_space_group2 "MovieAdded"
  = "Movie Added".
Proof. reflexivity. Qed.

Example replace_ex2 :
  Js.replace [[Js.Plus Js.upper]; [Js.Class Js.upper; Js.Class Js.lower]]
    Js.group1_space_group2 "XMLHttp TVShow ABC"
  = "XML Http TV Show ABC".
Proof. reflexivity. Qed.

Example padStart_ex : Js.padStart "5" 2 "0" = "05" /\ Js.padStart "123" 2 "0" = "123"
  /\ Js.padStart "7" 5 "ab" = "abab7".
Proof. repeat split; reflexivity. Qed.

(** ** Formatting *)

Lemma append_nonempty_l (a b : string) : a <> "" -> String.append a b <> "".
Proof. by destruct a. Qed.

Lemma or_else_nonempty x d : d <> "" -> Js.or_else x d <> "".
Proof. intros Hd. by destruct x as [[|c s]|]. Qed.

Lemma formatEpisodeMessage_nonempty webhook : Format.formatEpisodeMessage webhook <> "".
Proof.
  unfold Format.formatEpisodeMessage.
  assert (H : Js.or_else (Series.title <$> ArrWebhookPayload.series webhook)
                "Unknown Series" <> "") by (by apply or_else_nonempty).
  destruct (ArrWebhookPayload.episode webhook); [by apply append_nonempty_l|].
  destruct (ArrWebhookPayload.episodes webhook) as [[|ep others]|]; try done.
  by apply append_nonempty_l.
Qed.

Lemma concat_nonempty sep (l : list string) :
  l <> [] -> Forall (fun s => s <> "") l -> String.concat sep l <> "".
Proof.
  intros Hl Hall. destruct l as [|a l]; [done|].
  apply Forall_cons in Hall as [Ha _]. cbn [String.concat].
  destruct l; [done|]. by apply append_nonempty_l.
Qed.

Lemma formatHealthMessage_nonempty webhook : Format.formatHealthMessage webhook <> "".
Proof.
  unfold Format.formatHealthMessage.
  destruct (default [] (ArrWebhookPayload.messages webhook)) as [|m ms]; [done|].
  cbn [length Nat.ltb Nat.leb]. apply concat_nonempty; [done|].
  apply Forall_forall. intros s (m' & -> & _)%list_elem_of_fmap.
  apply or_else_nonempty, or_else_nonempty. done.
Qed.

(** *** The regular expressions *)

Lemma append_cons c (a b : string) :
  String.append (String c a) b = String c (String.append a b).
Proof. reflexivity. Qed.

Lemma append_nil_r (s : string) : String.append s "" = s.
Proof. induction s as [|c s IH]; [done|]. by rewrite append_cons, IH. Qed.

Lemma append_assoc (a b c : string) :
  String.append (String.append a b) c = String.append a (String.append b c).
Proof. induction a as [|x a IH]; [done|]. by rewrite !append_cons, IH. Qed.

Lemma length_append (a b : string) :
  String.length (String.append a b) = (String.length a + String.length b)%nat.
Proof.
  induction a as [|x a IH]; [done|]. rewrite append_cons. cbn [String.length plus].
  by rewrite IH.
Qed.

Lemma substring_prefix (a b : string) :
  String.substring 0 (String.length a) (String.append a b) = a.
Proof.
  induction a as [|x a IH]; [by destruct b|].
  rewrite append_cons. cbn [String.length String.substring]. by rewrite IH.
Qed.

Lemma match_plus_split {R} p (k : string -> option R) s r :
  Js.match_plus p k s = Some r ->
  exists pre rest, s = String.append pre rest /\ k rest = Some r.
Proof.
  revert r. induction s as [|c s IH]; intros r; [done|]. cbn [Js.match_plus].
  destruct (p c); [|done].
  destruct (Js.match_plus p k s) as [r'|] eqn:E.
  - intros [= <-]. destruct (IH r' eq_refl) as (pre & rest & -> & Hk).
    by exists (String c pre), rest.
  - intros Hk. by exists (String c ""), s.
Qed.

Lemma match_atoms_split {R} atoms (k : string -> option R) s r :
  Js.match_atoms atoms k s = Some r ->
  exists pre rest, s = String.append pre rest /\ k rest = Some r.
Proof.
  revert k s r. induction atoms as [|[p|p] atoms IH]; intros k s r; cbn [Js.match_atoms].
  - intros Hk. by exists "", s.
  - destruct s as [|c s]; [done|]. destruct (p c); [|done].
    intros (pre & rest & -> & Hk)%IH. by exists (String c pre), rest.
  - intros (pre & mid & -> & (pre' & rest & -> & Hk)%IH)%match_plus_split.
    exists (String.append pre pre'), rest. by rewrite append_assoc.
Qed.

Lemma concat_cons (x : string) (l : list string) :
  String.concat "" (x :: l) = String.append x (String.concat "" l).
Proof. destruct l; [cbn [String.concat]; by rewrite append_nil_r|done]. Qed.

Lemma match_groups_split re s captures after :
  Js.match_groups re s = Some (captures, after) ->
  s = String.append (String.concat "" captures) after /\ length captures = length re.
Proof.
  revert s captures after. induction re as [|g gs IH]; intros s captures after.
  - by intros [= <- <-].
  - cbn [Js.match_groups].
    intros (pre & rest & -> & Hk)%match_atoms_split.
    destruct (Js.match_groups gs rest) as [[captures' after']|] eqn:E; [|done].
    cbn in Hk. injection Hk as <- <-.
    destruct (IH _ _ _ E) as [-> Hlen].
    rewrite !length_append.
    replace (String.length pre + (String.length (String.concat "" captures')
               + String.length after')
             - (String.length (String.concat "" captures') + String.length after'))%nat
      with (String.length pre) by lia.
    rewrite substring_prefix, concat_cons, append_assoc. cbn [length]. auto.
Qed.

Lemma remove_all_append c (a b : string) :
  Codec.remove_all c (String.append a b)
  = String.append (Codec.remove_all c a) (Codec.remove_all c b).
Proof.
  induction a as [|x a IH]; [done|]. rewrite append_cons. cbn [Codec.remove_all].
  destruct (Ascii.eqb x c); [done|]. by rewrite append_cons, IH.
Qed.

Lemma remove_space_template (captures : list string) :
  Codec.remove_all " " (Js.group1_space_group2 captures)
  = Codec.remove_all " " (String.append (nth 0 captures "") (nth 1 captures "")).
Proof.
  unfold Js.group1_space_group2. rewrite !remove_all_append. done.
Qed.

Lemma captures_two (captures : list string) :
  length captures = 2%nat ->
  String.concat "" captures = String.append (nth 0 captures "") (nth 1 captures "").
Proof. destruct captures as [|a [|b [|c l]]]; done. Qed.

Lemma replace_from_spaces re skip s pre post :
  length re = 2%nat ->
  s = String.append pre post -> String.length pre = skip ->
  Codec.remove_all " " (Js.replace_from re Js.group1_space_group2 skip s)
  = Codec.remove_all " " post.
Proof.
  intros Hre. revert skip pre post.
  induction s as [|c s IH]; intros skip pre post Hs Hskip.
  - destruct pre; [|done]. change (String.append "" post) with post in Hs.
    subst post. cbn in Hskip. subst skip.
    cbn [Js.replace_from].
    destruct (Js.match_groups re "") as [[captures after]|] eqn:E; [|done].
    apply match_groups_split in E as [Hsplit Hlen]. rewrite Hre in Hlen.
    rewrite remove_space_template, <- captures_two by done.
    destruct (String.concat "" captures); [done|done].
  - cbn [Js.replace_from]. destruct skip as [|n].
    + destruct pre; [|done]. change (String.append "" post) with post in Hs.
      subst post.
      assert (Hnone :
        Codec.remove_all " " (String c (Js.replace_from re Js.group1_space_group2 0 s))
        = Codec.remove_all " " (String c s)).
      { cbn [Codec.remove_all]. rewrite (IH 0%nat "" s) by done. done. }
      destruct (Js.match_groups re (String c s)) as [[captures after]|] eqn:E; [|done].
      apply match_groups_split in E as [Hsplit Hlen]. rewrite Hre in Hlen.
      rewrite Hsplit at 1. rewrite length_append.
      replace (String.length (String.concat "" captures) + String.length after
               - String.length after)%nat
        with (String.length (String.concat "" captures)) by lia.
      destruct (String.concat "" captures) as [|c' matched] eqn:Hm.
      * cbn [String.length]. rewrite remove_all_append, remove_space_template.
        rewrite <- captures_two, Hm by done. exact Hnone.
      * cbn [String.length]. rewrite remove_all_append, remove_space_template.
        rewrite <- captures_two, Hm by done.
        rewrite Hsplit, append_cons in *. injection Hsplit as -> ->.
        rewrite (IH _ matched after) by done.
        by rewrite <- remove_all_append.
    + destruct pre as [|c' pre]; [done|]. rewrite append_cons in Hs.
      injection Hs as -> ->. cbn in Hskip. injection Hskip as <-.
      by apply (IH _ pre post).
Qed.

Lemma replace_spaces re s :
  length re = 2%nat ->
  Codec.remove_all " " (Js.replace re Js.group1_space_group2 s)
  = Codec.remove_all " " s.
Proof. intros Hre. by apply (replace_from_spaces re 0 s "" s). Qed.

Lemma replace_nonempty re s :
  s <> "" -> Js.replace re Js.group1_space_group2 s <> "".
Proof.
  destruct s as [|c s]; [done|]. intros _. unfold Js.replace. cbn [Js.replace_from].
  assert (Ht : forall captures rest,
            String.append (Js.group1_space_group2 captures) rest <> "").
  { intros captures rest. unfold Js.group1_space_group2.
    destruct (nth 0 captures ""); done. }
  destruct (Js.match_groups re (String c s)) as [[captures after]|]; [|done].
  destruct (String.length (String c s) - String.length after)%nat; apply Ht.
Qed.

(** X13. [formatEventTypeTitle] changes no character of the event type and
    drops none: it only inserts spaces. *)
Theorem formatEventTypeTitle_spaces eventType :
  Codec.remove_all " " (Format.formatEventTypeTitle eventType)
  = Codec.remove_all " " eventType.
Proof. unfold Format.formatEventTypeTitle. by rewrite !replace_spaces. Qed.

Lemma formatEventTypeTitle_nonempty eventType :
  eventType <> "" -> Format.formatEventTypeTitle eventType <> "".
Proof. intros H. unfold Format.formatEventTypeTitle. by do 2 apply replace_nonempty. Qed.

Example formatEventTypeTitle_documented :
  Format.formatEventTypeTitle "MovieAdded" = "Movie Added"
  /\ Format.formatEventTypeTitle "EpisodeFileDelete" = "Episode File Delete"
  /\ Format.formatEventTypeTitle "TVShowAdded" = "TV Show Added"
  /\ Format.formatEventTypeTitle "manualInteractionRequired" = "manual Interaction Required".
Proof. repeat split; reflexivity. Qed.

(** *** Messages *)

Lemma concat_head_nonempty sep (a : string) (l : list string) :
  a <> "" -> String.concat sep (a :: l) <> "".
Proof. intros Ha. destruct l; [done|]. cbn [String.concat]. by apply append_nonempty_l. Qed.

Lemma truthy_Some x : Js.truthy x = true -> exists s, x = Some s /\ s <> "".
Proof. destruct x as [[|c s]|]; try done. intros _. by eexists. Qed.

Lemma extractBestBody_nonempty webhook : Format.extractBestBody webhook <> "".
Proof.
  unfold Format.extractBestBody.
  destruct (Js.truthy (Movie.title <$> ArrWebhookPayload.movie webhook)) eqn:Hm.
  { apply truthy_Some in Hm as (s & Hs & Hne).
    destruct (ArrWebhookPayload.movie webhook) as [m|]; [|done].
    injection Hs as <-. by apply append_nonempty_l. }
  destruct (Js.truthy (Series.title <$> ArrWebhookPayload.series webhook));
    [apply formatEpisodeMessage_nonempty|].
  destruct (match ArrWebhookPayload.messages webhook with
            | Some ms => (0 <? length ms)%nat
            | None => false
            end); [apply formatHealthMessage_nonempty|].
  destruct (Js.truthy (ArrWebhookPayload.package webhook ≫= Package.packageAuthor))
    eqn:Hp; [|done].
  apply truthy_Some in Hp as (s & Hs & Hne).
  destruct (ArrWebhookPayload.package webhook) as [p|]; [|done].
  cbn in Hs. rewrite Hs. by apply append_nonempty_l.
Qed.

(** X11. For a webhook of the declared type, with the fields the interface
    requires and any of the optional ones, a formatted message always has a
    body, and a title unless the event type is empty; the event type is
    passed on as it came, and [data] holds the one key [type]. *)
Theorem formatArrMessage_never_blank webhook :
  FormattedMessage.body (Format.formatArrMessage webhook) <> ""
  /\ (ArrWebhookPayload.eventType webhook <> ""
      -> FormattedMessage.title (Format.formatArrMessage webhook) <> "")
  /\ FormattedMessage.eventType (Format.formatArrMessage webhook)
     = ArrWebhookPayload.eventType webhook
  /\ exists type, FormattedMessage.data (Format.formatArrMessage webhook) = [("type", type)]
                  /\ String.prefix "arr-" type = true.
Proof.
  pose proof (formatEpisodeMessage_nonempty webhook) as Hep.
  pose proof (formatHealthMessage_nonempty webhook) as Hhealth.
  pose proof (extractBestBody_nonempty webhook) as Hbest.
  pose proof (formatEventTypeTitle_nonempty (ArrWebhookPayload.eventType webhook)) as Htitle.
  assert (Hseries : Js.or_else (Series.title <$> ArrWebhookPayload.series webhook)
                      "Unknown Series" <> "") by (by apply or_else_nonempty).
  assert (Hmovie : Js.or_else (Movie.title <$> ArrWebhookPayload.movie webhook)
                     "Unknown Movie" <> "") by (by apply or_else_nonempty).
  assert (Happ : Js.or_else (ArrWebhookPayload.package webhook ≫= Package.packageAuthor)
                   "App" <> "") by (by apply or_else_nonempty).
  unfold Format.formatArrMessage.
  repeat (match goal with
          | |- context [if ?b then _ else _] =>
              lazymatch b with
              | context [String.eqb (ArrWebhookPayload.eventType webhook) _] =>
                  destruct b
              end
          end);
    cbn [Format.message FormattedMessage.body FormattedMessage.title
         FormattedMessage.eventType FormattedMessage.data];
    (split; [first [done | by apply concat_head_nonempty | by apply append_nonempty_l]|]);
    (split; [first [done | by auto]|]);
    (split; [done|]); eexists; split; reflexivity.
Qed.

(** X12. On the event types the legacy formatter has a case for, the current
    formatter gives the same message; on every other event type the legacy
    one falls back to the bare event type as title and the raw JSON text as
    body, which the current one replaces by a readable title and summary.
    The two always agree on the event type they pass on. *)
Theorem formatArrMessage_legacy_agrees JSON_stringify webhook :
  (ArrWebhookPayload.eventType webhook ∈ legacy_event_types ->
   LegacyFormat.formatArrMessage JSON_stringify webhook = Format.formatArrMessage webhook)
  /\ (ArrWebhookPayload.eventType webhook ∉ legacy_event_types ->
      LegacyFormat.formatArrMessage JSON_stringify webhook
      = Format.message (ArrWebhookPayload.eventType webhook) (JSON_stringify webhook)
          (ArrWebhookPayload.eventType webhook) "arr-other")
  /\ FormattedMessage.eventType (LegacyFormat.formatArrMessage JSON_stringify webhook)
     = FormattedMessage.eventType (Format.formatArrMessage webhook).
Proof.
  split; [|split].
  - intros Hin. unfold legacy_event_types in Hin.
    unfold LegacyFormat.formatArrMessage, Format.formatArrMessage.
    repeat (apply elem_of_cons in Hin as [->|Hin]; [reflexivity|]).
    by apply elem_of_nil in Hin.
  - intros Hnot. unfold LegacyFormat.formatArrMessage.
    repeat (match goal with
            | |- context [String.eqb (ArrWebhookPayload.eventType webhook) ?name] =>
                destruct (String.eqb_spec (ArrWebhookPayload.eventType webhook) name)
                  as [Heq|_];
                [destruct Hnot; rewrite Heq; unfold legacy_event_types;
                 repeat first [by left | right]|]
            end).
    reflexivity.
  - unfold LegacyFormat.formatArrMessage, Format.formatArrMessage.
    repeat (match goal with
            | |- context [if ?b then _ else _] =>
                lazymatch b with
                | context [String.eqb (ArrWebhookPayload.eventType webhook) _] =>
                    destruct b
                end
            end); reflexivity.
Qed.

Example parseInt16_ex :
  Frontend.parseInt16 "ff" = Some 255 /\ Frontend.parseInt16 "0x" = None
  /\ Frontend.parseInt16 "-f" = Some (-15) /\ Frontend.parseInt16 " 7" = Some 7
  /\ Frontend.parseInt16 "g1" = None /\ Frontend.parseInt16 "1g" = Some 1.
Proof. repeat split; reflexivity. Qed.

Example hexToUint8Array_ex :
  Frontend.hexToUint8Array "04ff1" = [x04; xff]
  /\ hex_of "0123456789abcdef" [x04; xff; x1a] = "04ff1a".
Proof. split; reflexivity. Qed.


(** ** The page's key *)

Lemma length_replace_all a b s : String.length (replace_all a b s) = String.length s.
Proof. induction s as [|c s IH]; [done|]. cbn. by rewrite IH. Qed.

Lemma substring_string_repeat (c : ascii) (n : nat) :
  String.substring 0 n (string_repeat (String c "") n) = string_repeat (String c "") n.
Proof.
  induction n as [|n IH]; [done|].
  cbn [string_repeat]. change (String.append (String c "") ?s) with (String c s).
  cbn [String.substring]. by rewrite IH.
Qed.

Lemma padEnd_equals s k :
  Frontend.padEnd s (String.length s + k) "=" = String.append s (string_repeat "=" k).
Proof.
  unfold Frontend.padEnd.
  replace (String.length s + k - String.length s)%nat with k by lia.
  destruct k as [|k].
  - cbn [Nat.eqb orb string_repeat]. by rewrite append_nil_r.
  - change ((S k =? 0)%nat || String.eqb "=" "") with false.
    cbv iota. by rewrite substring_string_repeat.
Qed.

(** When the key is not taken for hexadecimal, the page decodes it as
    [base64UrlToArrayBuffer] does. *)
Lemma keyBytes_base64url key :
  Frontend.is_hex key && (128 <=? String.length key)%nat = false ->
  Frontend.keyBytes key = base64UrlToArrayBuffer key.
Proof.
  intros H. unfold Frontend.keyBytes. rewrite H.
  unfold base64UrlToArrayBuffer, base64UrlToBase64.
  pose proof (padEnd_equals (replace_all "_" "/" (replace_all "-" "+" key))
                ((4 - String.length key mod 4) mod 4)) as Hpad.
  rewrite !length_replace_all in Hpad. by rewrite Hpad.
Qed.


(** *** Reading base64 back *)

Lemma atob_btoa_units (buffer : list byte) :
  atob (string_of_list_ascii (btoa_units buffer)) = Ok buffer.
Proof.
  rewrite btoa_units_sextets.
  unfold atob. rewrite list_ascii_of_string_of_list_ascii.
  destruct (length_sextets_mod buffer) as (H1 & H2 & H3).
  assert (Hchars : Forall (fun c => c <> "="%char) (map b64_char (sextets buffer))).
  { apply List.Forall_forall. intros c (v & <- & _)%in_map_iff.
    apply (b64_char_facts v). }
  rewrite filter_no_whitespace.
  2:{ apply Forall_app. split.
      - apply List.Forall_forall. intros c (v & <- & _)%in_map_iff.
        apply (b64_char_facts v).
      - apply List.Forall_forall. by intros c ->%repeat_spec. }
  rewrite strip_padding_padded by (rewrite ?length_map; done).
  rewrite length_map. apply Nat.eqb_neq in H3 as ->.
  by rewrite b64_digits_chars, decode_sextets.
Qed.

Lemma base64Url_decode_encode (buffer : list byte) :
  base64UrlToArrayBuffer (arrayBufferToBase64Url buffer) = Ok buffer.
Proof.
  rewrite arrayBufferToBase64Url_chars.
  unfold base64UrlToArrayBuffer, base64UrlToBase64.
  rewrite length_string_of_list_ascii, !length_map, padding_of_length.
  rewrite !replace_all_list, !map_map, append_padding.
  rewrite (map_ext _ b64_char) by (intros v; apply (b64_char_facts v)).
  rewrite <- btoa_units_sextets. apply atob_btoa_units.
Qed.

Lemma length_sextets_bound (l : list byte) :
  (3 * length (sextets l) <= 4 * length l + 2)%nat.
Proof.
  induction l as [|a|a b|a b c rest IH] using list_ind3; cbn [sextets length]; lia.
Qed.

Lemma length_arrayBufferToBase64Url (buffer : list byte) :
  String.length (arrayBufferToBase64Url buffer) = length (sextets buffer).
Proof.
  by rewrite arrayBufferToBase64Url_chars, length_string_of_list_ascii, !length_map.
Qed.

(** *** From the script to the worker and the page *)

(** X14. The public key text the script prints is read back as the same 65
    bytes, 0x04 and the two coordinates, by the worker and by the page, and
    the private key text as the PKCS#8 bytes that were exported. *)
Theorem generated_keys_read_back (x y : list byte) (page_head page_tail : string) :
  length x = 32%nat -> length y = 32%nat ->
  exportVapidPublicKey (GenerateKeys.toBase64Url (GenerateKeys.rawPublic x y))
  = Ok (GenerateKeys.rawPublic x y)
  /\ Frontend.getFrontendHtml page_head page_tail
       (GenerateKeys.toBase64Url (GenerateKeys.rawPublic x y))
     = Ok (String.concat ""
             [page_head; Frontend.keyArrayStr (GenerateKeys.rawPublic x y); page_tail])
  /\ forall (P : Platform) (pkcs8 : list byte) (w : World),
       importVapidPrivateKey P (GenerateKeys.toBase64Url pkcs8) w
       = (importKey_pkcs8_ECDSA P pkcs8, w).
Proof.
  intros Hx Hy.
  change GenerateKeys.toBase64Url with arrayBufferToBase64Url.
  split; [apply base64Url_decode_encode|]. split.
  - unfold Frontend.getFrontendHtml. rewrite keyBytes_base64url.
    + by rewrite base64Url_decode_encode.
    + apply andb_false_iff. right. apply Nat.leb_gt.
      rewrite length_arrayBufferToBase64Url.
      pose proof (length_sextets_bound (GenerateKeys.rawPublic x y)) as Hb.
      unfold GenerateKeys.rawPublic in Hb. cbn [length] in Hb.
      rewrite length_app, Hx, Hy in Hb. unfold GenerateKeys.rawPublic. lia.
  - intros P pkcs8 w. unfold importVapidPrivateKey, lift.
    cbn [mbind M_bind]. by rewrite base64Url_decode_encode.
Qed.

(** *** Hexadecimal keys *)

Lemma hex_pair_facts alphabet b :
  alphabet ∈ hex_alphabets ->
  Frontend.ToUint8 (Frontend.parseInt16 (hex_pair alphabet b)) = b
  /\ forallb Frontend.is_hex_digit (list_ascii_of_string (hex_pair alphabet b)) = true
  /\ (String.prefix "04" (hex_pair alphabet b) = true <-> b = x04).
Proof.
  intros Ha. unfold hex_alphabets in Ha.
  apply elem_of_cons in Ha as [->|Ha];
    [|apply elem_of_cons in Ha as [->|Ha]; [|by apply elem_of_nil in Ha]];
    destruct b; vm_compute; (split; [reflexivity|]); (split; [reflexivity|]);
    split; congruence.
Qed.

Lemma hex_of_cons alphabet b l :
  hex_of alphabet (b :: l) = String.append (hex_pair alphabet b) (hex_of alphabet l).
Proof. unfold hex_of. cbn [map]. apply concat_cons. Qed.

Lemma pairs_hex_of alphabet l :
  Frontend.pairs (hex_of alphabet l) = map (hex_pair alphabet) l.
Proof.
  induction l as [|b l IH]; [done|]. rewrite hex_of_cons. cbn [map].
  unfold hex_pair at 1. rewrite !append_cons.
  change (String.append "" ?s) with s. cbn [Frontend.pairs]. by rewrite IH.
Qed.

Lemma length_hex_of alphabet l :
  String.length (hex_of alphabet l) = (2 * length l)%nat.
Proof.
  induction l as [|b l IH]; [done|]. rewrite hex_of_cons, length_append, IH.
  cbn [length hex_pair String.length]. lia.
Qed.

Lemma list_ascii_of_string_append a b :
  list_ascii_of_string (String.append a b)
  = list_ascii_of_string a ++ list_ascii_of_string b.
Proof.
  induction a as [|c a IH]; [done|]. rewrite append_cons.
  cbn [list_ascii_of_string app]. by rewrite IH.
Qed.

Lemma is_hex_hex_of alphabet l :
  alphabet ∈ hex_alphabets -> l <> [] -> Frontend.is_hex (hex_of alphabet l) = true.
Proof.
  intros Ha Hl. unfold Frontend.is_hex. apply andb_true_iff. split.
  - destruct l as [|b l]; [done|]. rewrite hex_of_cons. unfold hex_pair.
    by rewrite append_cons.
  - clear Hl. induction l as [|b l IH]; [done|].
    rewrite hex_of_cons, list_ascii_of_string_append, forallb_app, IH, andb_true_r.
    by apply hex_pair_facts.
Qed.

Lemma hexToUint8Array_hex_of alphabet l :
  alphabet ∈ hex_alphabets ->
  Frontend.hexToUint8Array (hex_of alphabet l)
  = if decide (head l = Some x04) then l
    else if decide (length l = 65%nat) then x04 :: l
    else l.
Proof.
  intros Ha.
  assert (Hdecode : forall l', map (fun pair => Frontend.ToUint8 (Frontend.parseInt16 pair))
                       (firstn (String.length (hex_of alphabet l') / 2)
                          (Frontend.pairs (hex_of alphabet l'))) = l').
  { intros l'. rewrite pairs_hex_of, length_hex_of.
    replace (2 * length l' / 2)%nat with (length l')
      by (by rewrite Nat.mul_comm, Nat.div_mul).
    rewrite <- (length_map (hex_pair alphabet) l'), firstn_all, map_map.
    rewrite <- (map_id l') at 2. apply map_ext. intros b.
    by apply hex_pair_facts. }
  assert (Hstart : startsWith (hex_of alphabet l) "04" = true <-> head l = Some x04).
  { unfold startsWith. destruct l as [|b l]; [by split|].
    rewrite hex_of_cons. cbn [head].
    destruct (hex_pair_facts alphabet b Ha) as (_ & _ & H04).
    assert (Hpre : String.prefix "04" (String.append (hex_pair alphabet b) (hex_of alphabet l))
                   = String.prefix "04" (hex_pair alphabet b)).
    { unfold hex_pair. rewrite !append_cons. change (String.append "" ?s) with s.
      cbn [String.prefix]. repeat destruct (Ascii.ascii_dec _ _); try done.
      by destruct (hex_of alphabet l). }
    rewrite Hpre, H04. split; [by intros ->|by intros [= ->]]. }
  unfold Frontend.hexToUint8Array.
  destruct (decide (head l = Some x04)) as [Hh|Hh].
  - apply Hstart in Hh as ->. apply Hdecode.
  - destruct (startsWith (hex_of alphabet l) "04") eqn:Hs;
      [destruct Hh; by apply Hstart|].
    rewrite length_hex_of.
    destruct (decide (length l = 65%nat)) as [Hl|Hl].
    + rewrite Hl. cbn [Nat.mul Nat.add Nat.eqb].
      change (String.append "04" (hex_of alphabet l))
        with (String.append "04" (hex_of alphabet l)).
      assert (H04 : String.append "04" (hex_of alphabet l) = hex_of alphabet (x04 :: l)).
      { rewrite hex_of_cons. f_equal.
        unfold hex_alphabets in Ha.
        apply elem_of_cons in Ha as [->|Ha];
          [|apply elem_of_cons in Ha as [->|Ha]; [|by apply elem_of_nil in Ha]];
          reflexivity. }
      rewrite H04. apply Hdecode.
    + replace (2 * length l =? 130)%nat with false
        by (symmetry; apply Nat.eqb_neq; lia).
      apply Hdecode.
Qed.

(** X15. A key in hexadecimal digits, of 64 bytes or more, is decoded to its
    bytes.  0x04 is put in front of a key of 64 bytes, and also of a key of
    65 bytes that does not start with 0x04, which then has 66 bytes.  A
    shorter key is read as base64, whatever its digits meant. *)
Theorem getFrontendHtml_hex_key alphabet (raw : list byte) :
  alphabet ∈ hex_alphabets ->
  ((64 <= length raw)%nat ->
   Frontend.keyBytes (hex_of alphabet raw)
   = Ok (if decide (length raw = 64%nat
                    \/ (length raw = 65%nat /\ head raw <> Some x04))
         then x04 :: raw else raw))
  /\ ((length raw < 64)%nat ->
      Frontend.keyBytes (hex_of alphabet raw)
      = base64UrlToArrayBuffer (hex_of alphabet raw)).
Proof.
  intros Ha. split.
  - intros Hlen. unfold Frontend.keyBytes.
    assert (raw <> []) by (intros ->; cbn in Hlen; lia).
    rewrite is_hex_hex_of, length_hex_of by done.
    replace (128 <=? 2 * length raw)%nat with true
      by (symmetry; apply Nat.leb_le; lia).
    cbn [andb]. f_equal.
    assert (H04 : String.append "04" (hex_of alphabet raw) = hex_of alphabet (x04 :: raw)).
    { rewrite hex_of_cons. f_equal.
      unfold hex_alphabets in Ha.
      apply elem_of_cons in Ha as [->|Ha];
        [|apply elem_of_cons in Ha as [->|Ha]; [|by apply elem_of_nil in Ha]];
        reflexivity. }
    destruct (Nat.eqb_spec (2 * length raw) 128) as [H128|H128].
    + rewrite H04, hexToUint8Array_hex_of, decide_True by done.
      rewrite decide_True; [done|]. left. lia.
    + rewrite hexToUint8Array_hex_of by done.
      destruct (decide (head raw = Some x04)) as [Hh|Hh].
      * rewrite decide_False; [done|]. intros [?|[_ ?]]; [lia|done].
      * destruct (decide (length raw = 65%nat)) as [Hl|Hl].
        -- rewrite decide_True; [done|]. by right.
        -- rewrite decide_False; [done|]. intros [?|[? _]]; lia.
  - intros Hlen. apply keyBytes_base64url. apply andb_false_iff. right.
    apply Nat.leb_gt. rewrite length_hex_of. lia.
Qed.

(** ** The token and characters beyond Latin-1 *)

Lemma latin1_units_beyond (l : list byte) :
  Exists (fun b => 196 <= Z_of_byte b) l -> latin1_units l = None.
Proof.
  assert (H : forall n l, (length l <= n)%nat ->
            Exists (fun b => 196 <= Z_of_byte b) l -> latin1_units l = None).
  { clear l. induction n as [|n IH]; intros l Hlen Hex.
    - destruct l; [by apply Exists_nil in Hex|cbn in Hlen; lia].
    - destruct l as [|b rest]; [by apply Exists_nil in Hex|].
      cbn [latin1_units]. cbn [length] in Hlen.
      destruct (Z.ltb_spec (Z_of_byte b) 128) as [Hb|Hb].
      + apply Exists_cons in Hex as [Hex|Hex]; [lia|].
        rewrite (IH rest) by (lia || done). done.
      + destruct rest as [|c rest']; [done|].
        destruct (((Z_of_byte b =? 194) || (Z_of_byte b =? 195))
                  && (128 <=? Z_of_byte c) && (Z_of_byte c <? 192)) eqn:Hc; [|done].
        apply andb_true_iff in Hc as [Hc Hc3]. apply andb_true_iff in Hc as [Hc1 Hc2].
        apply Exists_cons in Hex as [Hex|Hex]; [lia|].
        apply Exists_cons in Hex as [Hex|Hex]; [lia|].
        cbn [length] in Hlen. rewrite (IH rest') by (lia || done). done. }
  intros Hex. by apply (H (length l) l).
Qed.

Lemma latin1_units_ascii (l : list byte) :
  Forall (fun b => Z_of_byte b < 128) l -> latin1_units l = Some l.
Proof.
  induction 1 as [|b l Hb _ IH]; [done|]. cbn [latin1_units].
  destruct (Z.ltb_spec (Z_of_byte b) 128); [|lia]. by rewrite IH.
Qed.

Lemma list_byte_of_string_append a b :
  list_byte_of_string (String.append a b) = list_byte_of_string a ++ list_byte_of_string b.
Proof.
  unfold list_byte_of_string. by rewrite list_ascii_of_string_append, map_app.
Qed.

Lemma beyond_latin1_append a b :
  beyond_latin1 (String.append a b) <-> beyond_latin1 a \/ beyond_latin1 b.
Proof.
  unfold beyond_latin1, TextEncoder_encode.
  by rewrite list_byte_of_string_append, Exists_app.
Qed.

Lemma ascii_only_append a b :
  ascii_only (String.append a b) <-> ascii_only a /\ ascii_only b.
Proof.
  unfold ascii_only, TextEncoder_encode.
  by rewrite list_byte_of_string_append, Forall_app.
Qed.

Lemma beyond_latin1_concat sep (l : list string) s :
  s ∈ l -> beyond_latin1 s -> beyond_latin1 (String.concat sep l).
Proof.
  induction l as [|x l IH]; intros Hin Hs; [by apply elem_of_nil in Hin|].
  destruct l as [|y l].
  - apply list_elem_of_singleton in Hin as ->. done.
  - change (String.concat sep (x :: y :: l))
      with (String.append x (String.append sep (String.concat sep (y :: l)))).
    rewrite !beyond_latin1_append.
    apply elem_of_cons in Hin as [->|Hin]; [by left|]. right. right. by apply IH.
Qed.

Lemma ascii_only_concat sep (l : list string) :
  ascii_only sep -> Forall ascii_only l -> ascii_only (String.concat sep l).
Proof.
  intros Hsep. induction 1 as [|x l Hx Hl IH]; [by constructor|].
  destruct l as [|y l]; [done|].
  change (String.concat sep (x :: y :: l))
    with (String.append x (String.append sep (String.concat sep (y :: l)))).
  rewrite !ascii_only_append. auto.
Qed.

Lemma Z_of_byte_of_ascii c : Z_of_byte (byte_of_ascii c) = Z.of_nat (nat_of_ascii c).
Proof. destruct c as [[] [] [] [] [] [] [] []]; reflexivity. Qed.

Lemma JSON_escape_cons c rest :
  JSON_escape (String c rest)
  = String.append (JSON_escape (String c "")) (JSON_escape rest).
Proof. cbn [JSON_escape]. by rewrite append_nil_r. Qed.

Lemma JSON_escape_char c :
  (196 <= Z.of_nat (nat_of_ascii c) -> JSON_escape (String c "") = String c "")
  /\ (Z.of_nat (nat_of_ascii c) < 128 -> ascii_only (JSON_escape (String c ""))).
Proof.
  destruct c as [[] [] [] [] [] [] [] []];
    (split; [first [reflexivity | (vm_compute; by intros [])]
            |first [(vm_compute; by intros [=]) | (intros _; vm_compute; repeat constructor)]]).
Qed.

Lemma beyond_latin1_cons c s :
  beyond_latin1 (String c s) <-> 196 <= Z.of_nat (nat_of_ascii c) \/ beyond_latin1 s.
Proof.
  unfold beyond_latin1, TextEncoder_encode, list_byte_of_string.
  cbn [list_ascii_of_string map]. by rewrite Exists_cons, Z_of_byte_of_ascii.
Qed.

Lemma ascii_only_cons c s :
  ascii_only (String c s) <-> Z.of_nat (nat_of_ascii c) < 128 /\ ascii_only s.
Proof.
  unfold ascii_only, TextEncoder_encode, list_byte_of_string.
  cbn [list_ascii_of_string map]. by rewrite Forall_cons, Z_of_byte_of_ascii.
Qed.

Lemma beyond_latin1_JSON_escape s : beyond_latin1 s -> beyond_latin1 (JSON_escape s).
Proof.
  induction s as [|c s IH]; [done|].
  rewrite JSON_escape_cons, beyond_latin1_append, beyond_latin1_cons.
  intros [Hc|Hs]; [left|right; by apply IH].
  destruct (JSON_escape_char c) as [H _]. rewrite (H Hc).
  apply beyond_latin1_cons. by left.
Qed.

Lemma ascii_only_JSON_escape s : ascii_only s -> ascii_only (JSON_escape s).
Proof.
  induction s as [|c s IH]; [done|].
  rewrite JSON_escape_cons, ascii_only_append, ascii_only_cons.
  intros [Hc Hs]. split; [by apply JSON_escape_char|by apply IH].
Qed.

Lemma ascii_only_literal s :
  forallb (fun c => (nat_of_ascii c <? 128)%nat) (list_ascii_of_string s) = true ->
  ascii_only s.
Proof.
  induction s as [|c s IH]; [intros _; by constructor|].
  cbn [list_ascii_of_string forallb]. intros [Hc Hs]%andb_true_iff.
  apply ascii_only_cons. split; [|by apply IH]. apply Nat.ltb_lt in Hc. lia.
Qed.

Lemma ascii_only_pretty_N_go x s : ascii_only s -> ascii_only (pretty_N_go x s).
Proof.
  revert s. induction (N.lt_wf_0 x) as [x _ IH]; intros s Hs.
  assert (x = 0 \/ 0 < x)%N as [->|Hx] by lia.
  - by rewrite pretty_N_go_0.
  - rewrite pretty_N_go_step by done. apply IH; [by apply N.div_lt|].
    apply ascii_only_cons. split; [|done].
    unfold pretty_N_char. by repeat case_match.
Qed.

Lemma ascii_only_pretty (z : Z) : ascii_only (pretty z).
Proof.
  assert (HN : forall p, ascii_only (pretty (Npos p))).
  { intros p. unfold pretty, pretty_N. rewrite decide_False by done.
    apply ascii_only_pretty_N_go. constructor. }
  destruct z as [|p|p]; unfold pretty, pretty_Z.
  - by apply ascii_only_literal.
  - apply HN.
  - apply ascii_only_append. split; [by apply ascii_only_literal|apply HN].
Qed.

Lemma ascii_only_JSON_string s : ascii_only s -> ascii_only (JSON_string s).
Proof.
  intros Hs. unfold JSON_string. rewrite !ascii_only_append.
  split; [by apply ascii_only_literal|].
  split; [by apply ascii_only_JSON_escape|by apply ascii_only_literal].
Qed.

Lemma beyond_latin1_JSON_string s : beyond_latin1 s -> beyond_latin1 (JSON_string s).
Proof.
  intros Hs. unfold JSON_string. rewrite !beyond_latin1_append.
  right. left. by apply beyond_latin1_JSON_escape.
Qed.

Lemma finalSubject_cases subject :
  finalSubject subject = subject
  \/ finalSubject subject = String.append "mailto:" subject.
Proof. unfold finalSubject. destruct (_ && _); auto. Qed.

Lemma base64UrlEncode_beyond s :
  beyond_latin1 s -> base64UrlEncode s = Throw InvalidCharacterError.
Proof.
  intros Hs. unfold base64UrlEncode, btoa. unfold beyond_latin1, TextEncoder_encode in Hs.
  by rewrite (latin1_units_beyond _ Hs).
Qed.

Lemma base64UrlEncode_ascii s :
  ascii_only s -> base64UrlEncode s = Ok (arrayBufferToBase64Url (TextEncoder_encode s)).
Proof.
  intros Hs. unfold base64UrlEncode, btoa. unfold ascii_only in Hs.
  unfold TextEncoder_encode in *. by rewrite (latin1_units_ascii _ Hs).
Qed.

Section TokenText.
Context (P : Platform).

(** X16. When the audience or the subject holds a character above U+00FF,
    [btoa] rejects the payload's JSON text: [createVapidJwt] rejects with
    [InvalidCharacterError], after it read the clock and before it signs. *)
Theorem createVapidJwt_beyond_latin1 audience subject publicKey privateKey w :
  beyond_latin1 audience \/ beyond_latin1 subject ->
  createVapidJwt P audience subject publicKey privateKey w
  = (Throw InvalidCharacterError,
     {| keygen_calls := keygen_calls w; random_calls := random_calls w;
        clock_reads := S (clock_reads w); sign_calls := sign_calls w |}).
Proof.
  intros Hb.
  assert (Hpayload : beyond_latin1
            (JSON_stringify_payload
               (vapidPayload audience subject (Date_now P (clock_reads w))))).
  { unfold JSON_stringify_payload, vapidPayload. cbn [aud sub exp].
    destruct Hb as [Ha|Hs].
    - apply (beyond_latin1_concat _ _ (JSON_string audience));
        [|by apply beyond_latin1_JSON_string].
      repeat first [by left | right].
    - apply (beyond_latin1_concat _ _ (JSON_string (finalSubject subject))).
      + repeat first [by left | right].
      + apply beyond_latin1_JSON_string.
        destruct (finalSubject_cases subject) as [->| ->]; [done|].
        apply beyond_latin1_append. by right. }
  assert (Hheader : base64UrlEncode (JSON_stringify_header vapidHeader)
                    = Ok "eyJhbGciOiJFUzI1NiIsInR5cCI6IkpXVCJ9") by reflexivity.
  unfold createVapidJwt, now, lift, mbind, M_bind. cbv beta iota.
  rewrite Hheader. cbv iota beta.
  by rewrite (base64UrlEncode_beyond _ Hpayload).
Qed.

(** X17. For an audience and a subject in ASCII, the token can fail to be made
    only because the platform fails to sign: it is the unsigned text, a
    dot and the signature in base64url. *)
Theorem createVapidJwt_ascii audience subject publicKey privateKey w :
  ascii_only audience -> ascii_only subject ->
  exists unsigned,
    fst (createVapidJwt P audience subject publicKey privateKey w)
    = (fun signature =>
         String.concat "" [unsigned; "."; arrayBufferToBase64Url signature])
      <$> sign_ECDSA_SHA256 P (sign_calls w) privateKey (TextEncoder_encode unsigned).
Proof.
  intros Ha Hs.
  assert (Hfinal : ascii_only (finalSubject subject)).
  { destruct (finalSubject_cases subject) as [->| ->]; [done|].
    apply ascii_only_append. split; [by apply ascii_only_literal|done]. }
  assert (Hpayload : ascii_only
            (JSON_stringify_payload
               (vapidPayload audience subject (Date_now P (clock_reads w))))).
  { unfold JSON_stringify_payload, vapidPayload. cbn [aud sub exp].
    apply ascii_only_concat; [by constructor|].
    repeat (apply Forall_cons; split;
            [first [by apply ascii_only_literal | by apply ascii_only_JSON_string
                   | apply ascii_only_pretty]|]).
    constructor. }
  assert (Hheader : base64UrlEncode (JSON_stringify_header vapidHeader)
                    = Ok "eyJhbGciOiJFUzI1NiIsInR5cCI6IkpXVCJ9") by reflexivity.
  unfold createVapidJwt, now, lift, sign, mbind, M_bind. cbv beta iota.
  rewrite Hheader. cbv iota beta.
  rewrite (base64UrlEncode_ascii _ Hpayload). cbv iota beta. cbn [sign_calls].
  exists (String.concat ""
            ["eyJhbGciOiJFUzI1NiIsInR5cCI6IkpXVCJ9"; ".";
             arrayBufferToBase64Url
               (TextEncoder_encode
                  (JSON_stringify_payload
                     (vapidPayload audience subject (Date_now P (clock_reads w)))))]).
  destruct (sign_ECDSA_SHA256 P _ _ _); reflexivity.
Qed.
End TokenText.

(** ** Base64url text *)

Lemma b64_alphabet_url k :
  (k < 64)%nat ->
  let c := nth k b64_alphabet "="%char in
  url_safe (to_url c) = true /\ of_url c = c.
Proof.
  intros Hk.
  do 64 (destruct k as [|k]; [vm_compute; split; reflexivity|]).
  lia.
Qed.

Lemma b64_char_url v : url_safe (to_url (b64_char v)) = true /\ of_url (b64_char v) = b64_char v.
Proof.
  unfold b64_char. rewrite land_63.
  pose proof (mod_64_range v) as Hv.
  apply b64_alphabet_url. lia.
Qed.

(** X18. The text [arrayBufferToBase64Url] makes holds letters, digits, [-] and
    [_] only, no padding, and four characters for every three bytes, rounded
    up. *)
Theorem arrayBufferToBase64Url_url_safe (buffer : list byte) :
  forallb url_safe (list_ascii_of_string (arrayBufferToBase64Url buffer)) = true
  /\ (3 * String.length (arrayBufferToBase64Url buffer) <= 4 * length buffer + 2)%nat
  /\ (4 * length buffer <= 3 * String.length (arrayBufferToBase64Url buffer))%nat.
Proof.
  split; [|split].
  - rewrite arrayBufferToBase64Url_chars, list_ascii_of_string_of_list_ascii.
    apply forallb_forall. intros c (c' & <- & (v & <- & _)%in_map_iff)%in_map_iff.
    apply b64_char_url.
  - rewrite length_arrayBufferToBase64Url. apply length_sextets_bound.
  - rewrite length_arrayBufferToBase64Url.
    induction buffer as [|a|a b|a b c rest IH] using list_ind3;
      cbn [sextets length]; lia.
Qed.

(** X19. [base64UrlToArrayBuffer] also reads the standard alphabet with its
    padding: the text [btoa] makes of bytes is decoded to these bytes. *)
Theorem base64UrlToArrayBuffer_standard (buffer : list byte) :
  base64UrlToArrayBuffer (string_of_list_ascii (btoa_units buffer)) = Ok buffer.
Proof.
  unfold base64UrlToArrayBuffer, base64UrlToBase64.
  rewrite length_string_of_list_ascii.
  assert (Hlen : (length (btoa_units buffer) mod 4 = 0)%nat).
  { rewrite btoa_units_sextets, length_app, length_map, repeat_length.
    apply length_sextets_mod. }
  rewrite Hlen. cbn [Nat.sub Nat.modulo Nat.divmod snd string_repeat].
  rewrite append_nil_r, !replace_all_list, map_map.
  rewrite (map_ext_in _ id), map_id; [apply atob_btoa_units|].
  intros c Hin. rewrite btoa_units_sextets in Hin.
  apply in_app_or in Hin as [(v & <- & _)%in_map_iff| ->%repeat_spec]; [|done].
  apply (b64_char_url v).
Qed.

(** ** Store, formats and keys: closed examples *)

Lemma sendNotificationToSubscription_found_witness :
  Db.getSubscriptionByEndpoint Demo.db "https://push.example.net/send/3"
  = Some (Demo.record "3")
  /\ exists outcome,
      snd (sendNotificationToSubscription Demo.runtime Demo.db
             "https://push.example.net/send/3" "{}" Demo.env) = Ok outcome
      /\ Outcome.status outcome = 410
      /\ deactivations (fst (sendNotificationToSubscription Demo.runtime Demo.db
                               "https://push.example.net/send/3" "{}" Demo.env)) = [].
Proof.
  assert (H : Db.getSubscriptionByEndpoint Demo.db "https://push.example.net/send/3"
              = Some (Demo.record "3")) by (vm_compute; reflexivity).
  split; [exact H|].
  destruct (sendNotificationToSubscription_found Demo.runtime _ _ "{}" Demo.env _ H)
    as (outcome & Hres & _ & _ & Hstatus & _ & Hd & _).
  exists outcome. split; [exact Hres|]. split; [|exact Hd].
  apply (Hstatus "{}"
           {| status := 410; statusText := "Gone";
              text := Ok "push subscription has unsubscribed" |});
    vm_compute; reflexivity.
Defined.

Lemma saveSubscription_others_witness :
  NoDup (map Db.endpoint Demo.db)
  /\ NoDup (map Db.endpoint
              (Db.saveSubscription Demo.db short_auth_subscriber None 5 6))
  /\ Db.getSubscriptionByEndpoint
       (Db.saveSubscription Demo.db short_auth_subscriber None 5 6)
       "https://push.example.net/send/1"
     = Some (Demo.record "1").
Proof.
  assert (H : NoDup (map Db.endpoint Demo.db))
    by (apply (bool_decide_unpack _); vm_compute; exact I).
  split; [exact H|].
  destruct (saveSubscription_others Demo.db short_auth_subscriber None 5 6 H)
    as (Hnodup & _ & Hother).
  split; [exact Hnodup|].
  rewrite Hother by (vm_compute; discriminate). vm_compute. reflexivity.
Defined.

Lemma sendPushToAll_store_after_witness :
  NoDup (map Db.endpoint Demo.db)
  /\ sendPushToAll Demo.runtime Demo.db "{}" Demo.env
       (sendPushToAll_in_order Demo.runtime Demo.db "{}" Demo.env)
  /\ map Db.endpoint
       (Db.getActiveSubscriptions
          (store_after Demo.runtime (fun _ => 7) 0
             (fst (sendPushToAll_in_order Demo.runtime Demo.db "{}" Demo.env)) Demo.db))
     = ["https://push.example.net/send/1"; "https://push.example.net/send/2";
        "https://push.example.net/send/4"; "https://push.example.net/send/5"].
Proof.
  assert (H : NoDup (map Db.endpoint Demo.db))
    by (apply (bool_decide_unpack _); vm_compute; exact I).
  pose proof (sendPushToAll_in_order_run Demo.runtime Demo.db "{}" Demo.env) as Hrun.
  split; [exact H|]. split; [exact Hrun|].
  rewrite (sendPushToAll_store_after Demo.runtime Demo.db "{}" Demo.env "{}" _
             (fun _ => 7) H eq_refl Hrun).
  vm_compute. reflexivity.
Defined.

Lemma generated_keys_read_back_witness :
  length (repeat x01 32) = 32%nat
  /\ exportVapidPublicKey
       (GenerateKeys.toBase64Url (GenerateKeys.rawPublic (repeat x01 32) (repeat x02 32)))
     = Ok (x04 :: repeat x01 32 ++ repeat x02 32).
Proof.
  split; [reflexivity|].
  exact (proj1 (generated_keys_read_back (repeat x01 32) (repeat x02 32) "" ""
                  eq_refl eq_refl)).
Defined.

Lemma getFrontendHtml_hex_key_witness :
  "0123456789abcdef" ∈ hex_alphabets
  /\ Frontend.keyBytes (hex_of "0123456789abcdef" (repeat xab 64))
     = Ok (x04 :: repeat xab 64).
Proof.
  assert (H : "0123456789abcdef" ∈ hex_alphabets) by (unfold hex_alphabets; left).
  split; [exact H|].
  destruct (getFrontendHtml_hex_key "0123456789abcdef" (repeat xab 64) H) as [Hhex _].
  rewrite Hhex by (cbn; lia). reflexivity.
Defined.

Lemma createVapidJwt_beyond_latin1_witness :
  beyond_latin1 wide_subject
  /\ fst (createVapidJwt Fake.platform "https://push.example.net" wide_subject
            "BPublicKey" [x01; x02; x03] world0)
     = Throw InvalidCharacterError.
Proof.
  assert (H : beyond_latin1 wide_subject).
  { unfold beyond_latin1. apply Exists_cons. left. vm_compute. discriminate. }
  split; [exact H|].
  by rewrite (createVapidJwt_beyond_latin1 Fake.platform "https://push.example.net"
                wide_subject "BPublicKey" [x01; x02; x03] world0 (or_intror H)).
Defined.

Lemma createVapidJwt_ascii_witness :
  ascii_only "https://push.example.net" /\ ascii_only "user@example.com"
  /\ exists unsigned,
      fst (createVapidJwt Fake.platform "https://push.example.net" "user@example.com"
             "BPublicKey" [x01; x02; x03] world0)
      = (fun signature =>
           String.concat "" [unsigned; "."; arrayBufferToBase64Url signature])
        <$> sign_ECDSA_SHA256 Fake.platform (sign_calls world0) [x01; x02; x03]
              (TextEncoder_encode unsigned).
Proof.
  assert (Ha : ascii_only "https://push.example.net")
    by (by apply ascii_only_literal).
  assert (Hs : ascii_only "user@example.com") by (by apply ascii_only_literal).
  split; [exact Ha|]. split; [exact Hs|].
  exact (createVapidJwt_ascii Fake.platform "https://push.example.net"
           "user@example.com" "BPublicKey" [x01; x02; x03] world0 Ha Hs).
Defined.

(** ** The worker *)

Local Open Scope Z_scope.

Lemma WorkerError_not_Delivery e (tr : list Push.Event) :
  Worker.WorkerError e ∉ map Worker.Delivery tr.
Proof. intros (ev & [=] & _)%list_elem_of_fmap. Qed.

Ltac no_worker_error :=
  let e := fresh "e" in
  let Hin := fresh "Hin" in
  intros e Hin; cbn in Hin;
  repeat first
    [ apply elem_of_app in Hin as [Hin|Hin]
    | apply elem_of_cons in Hin as [Hin|Hin]; [discriminate Hin|]
    | by apply elem_of_nil in Hin
    | by apply WorkerError_not_Delivery in Hin ].

Ltac settle_unrescued :=
  split; [no_worker_error | intros ? [= <-]; cbn; done].

Section WorkerFacts.
Context (R : Worker.Runtime).

Lemma handleHealth_unrescued : unrescued Worker.handleHealth.
Proof. settle_unrescued. Qed.

Lemma handleFrontend_unrescued env : unrescued (Worker.handleFrontend R env).
Proof.
  unfold Worker.handleFrontend, Worker.call.
  destruct (Frontend.getFrontendHtml _ _ _); cbn; [settle_unrescued|].
  split; [no_worker_error|done].
Qed.

Lemma handleSubscribe_unrescued req : unrescued (Worker.handleSubscribe R req).
Proof.
  unfold Worker.handleSubscribe, Worker.call, Worker.emit.
  destruct (Worker.json req); cbn; [|split; [no_worker_error|done]].
  destruct (Worker.d1_save_subscription R _ _); cbn;
    [settle_unrescued|split; [no_worker_error|done]].
Qed.

Lemma handleUnsubscribe_unrescued req : unrescued (Worker.handleUnsubscribe R req).
Proof.
  unfold Worker.handleUnsubscribe, Worker.call, Worker.emit.
  destruct (Worker.json req); cbn; [|split; [no_worker_error|done]].
  destruct (Worker.get _ _); cbn; [|split; [no_worker_error|done]].
  destruct (Worker.d1_unsubscribe R _); cbn;
    [settle_unrescued|split; [no_worker_error|done]].
Qed.

Lemma handleLog_unrescued req : unrescued (Worker.handleLog req).
Proof.
  unfold Worker.handleLog, Worker.call, Worker.emit.
  destruct (Worker.get _ _); cbn; [settle_unrescued|split; [no_worker_error|done]].
Qed.

Lemma handleNotifications_unrescued req : unrescued (Worker.handleNotifications R req).
Proof.
  unfold Worker.handleNotifications, Worker.call.
  destruct (Worker.recent_notifications R _); cbn;
    [settle_unrescued|split; [no_worker_error|done]].
Qed.

Lemma handleWebhook_unrescued formatArrMessage sendPushToAll req env db run :
  Worker.handleWebhook R formatArrMessage sendPushToAll req env db run -> unrescued run.
Proof.
  unfold Worker.handleWebhook.
  destruct (Worker.received R req) as [webhook|e].
  2:{ intros ->. split; [no_worker_error|done]. }
  unfold Worker.emit, Worker.call. cbn [mbind Worker.Task_bind app].
  destruct (Worker.d1_save_notification R _ _ _ _) as [[]|e].
  - intros (sent_run & _ & ->). destruct sent_run as [tr [counts|e]]; cbn;
      [settle_unrescued|split; [no_worker_error|done]].
  - intros ->. split; [no_worker_error|done].
Qed.

Lemma handleTest_unrescued sendPushToAll req env db run :
  Worker.handleTest R sendPushToAll req env db run -> unrescued run.
Proof.
  unfold Worker.handleTest.
  destruct (Worker.get _ _) as [targetEndpoint|e].
  2:{ intros ->. split; [no_worker_error|done]. }
  destruct (Worker.truthy targetEndpoint).
  - intros ->. unfold Worker.delivery, Worker.call.
    destruct (match targetEndpoint with Some _ => _ | None => _ end) as [endpoint|e];
      cbn [mbind Worker.Task_bind app]; [|split; [no_worker_error|done]].
    destruct (Push.sendNotificationToSubscription _ _ _ _ _) as [tr [detail|e]]; cbn;
      [rewrite app_nil_r; settle_unrescued|split; [no_worker_error|done]].
  - intros (sent_run & _ & ->). destruct sent_run as [tr [counts|e]]; cbn;
      [settle_unrescued|split; [no_worker_error|done]].
Qed.

(** X20. The current worker never answers for a failure: in no run is the
    [catch] block of [handleRequest] entered.  A handler that rejects makes
    the worker reject, and a response is never the block's 500. *)
Theorem handleRequest_never_rescues req env db run :
  Worker.handleRequest R req env db run -> unrescued run.
Proof.
  unfold Worker.handleRequest, Worker.try_return.
  repeat (match goal with
          | |- context [if ?b then _ else _] => destruct b
          end);
    first
      [ apply handleWebhook_unrescued
      | apply handleTest_unrescued
      | (unfold Worker.exactly; intros ->;
         first [ apply handleHealth_unrescued | apply handleFrontend_unrescued
               | apply handleSubscribe_unrescued | apply handleUnsubscribe_unrescued
               | apply handleLog_unrescued | apply handleNotifications_unrescued
               | settle_unrescued ]) ].
Qed.

(** What the [catch] block answers with. *)
Lemma rescue_run e :
  Worker.rescue e
  = ([Worker.WorkerError e],
     Ok {| Worker.status := 500; Worker.headers := Worker.json_headers;
           Worker.body :=
             Worker.Stringified
               (Worker.JObject
                  [("error",
                    Worker.JString (if String.eqb (exn_message e) ""
                                    then Exception_toString e else exn_message e))]) |}).
Proof. reflexivity. Qed.

Lemma legacy_routes_unrescued req env db r :
  Worker.legacy_routes R req env db r -> unrescued r.
Proof.
  unfold Worker.legacy_routes. cbv zeta.
  repeat (match goal with
          | |- context [if ?b then _ else _] => destruct b
          end);
    first
      [ apply handleWebhook_unrescued
      | apply handleTest_unrescued
      | (unfold Worker.exactly; intros ->;
         first [ apply handleHealth_unrescued | apply handleFrontend_unrescued
               | apply handleSubscribe_unrescued | apply handleUnsubscribe_unrescued
               | apply handleLog_unrescued | apply handleNotifications_unrescued
               | settle_unrescued ]) ].
Qed.

(** X21. The legacy worker always answers: no run rejects.  When the code of a
    route fails, the failure is logged and the answer is a 500 with the
    error's message, or its text when it has none, as JSON; otherwise the
    answer is the route's own, which is never a 500. *)
Theorem legacy_fetch_always_answers req env db run :
  Worker.legacy_fetch R req env db run ->
  exists response,
    snd run = Ok response
    /\ ((Worker.status response <> 500 /\ forall e, Worker.WorkerError e ∉ fst run)
        \/ exists e tr,
             fst run = tr ++ [Worker.WorkerError e]
             /\ (forall e', Worker.WorkerError e' ∉ tr)
             /\ response
                = {| Worker.status := 500; Worker.headers := Worker.json_headers;
                     Worker.body :=
                       Worker.Stringified
                         (Worker.JObject
                            [("error",
                              Worker.JString (if String.eqb (exn_message e) ""
                                              then Exception_toString e
                                              else exn_message e))]) |}).
Proof.
  unfold Worker.legacy_fetch, Worker.try_await.
  intros (r & Hblock & ->). apply legacy_routes_unrescued in Hblock as [Hlog Hstatus].
  destruct r as [tr [response|e]]; cbn [fst snd] in *.
  - exists response. split; [done|]. left. split; [by apply Hstatus|done].
  - rewrite rescue_run. eexists. split; [reflexivity|]. right.
    exists e, tr. done.
Qed.

Lemma route_webhook req env db :
  Worker.pathname req = "/webhook" -> Worker.method req = "POST" ->
  Worker.handleRequest R req env db
  = Worker.handleWebhook R Format.formatArrMessage (Push.sendPushToAll (Worker.push R))
      req env db.
Proof. intros Hp Hm. unfold Worker.handleRequest. rewrite Hp, Hm. reflexivity. Qed.


(** The counters of a run of [sendPushToAll] that resolves. *)
Lemma sendPushToAll_counts db payload env tr counts :
  Push.sendPushToAll (Worker.push R) db payload env (tr, Ok counts) ->
  0 <= sent counts /\ 0 <= failed counts
  /\ sent counts + failed counts = Z.of_nat (length (Db.getActiveSubscriptions db)).
Proof.
  unfold Push.sendPushToAll.
  destruct (Push.JSON_stringify (Worker.push R) payload) as [payloadString|e]; [|done].
  intros [_ Hres]. cbn [snd] in Hres. rewrite tasks_results in Hres. cbn in Hres.
  injection Hres as ->. rewrite tally_spec. cbn [sent failed].
  pose proof (count_partition
                (map (delivered (Worker.push R) payloadString env)
                   (Db.getActiveSubscriptions db))) as Hpart.
  rewrite length_map in Hpart. lia.
Qed.

(** A run of [sendPushToAll] that rejects did nothing. *)
Lemma sendPushToAll_rejects db payload env tr e :
  Push.sendPushToAll (Worker.push R) db payload env (tr, Throw e) -> tr = [].
Proof.
  unfold Push.sendPushToAll.
  destruct (Push.JSON_stringify (Worker.push R) payload) as [payloadString|e'].
  - intros [_ Hres]. cbn [snd] in Hres. rewrite tasks_results in Hres. done.
  - by intros [= -> _].
Qed.

(** X22. A webhook is written to the history before anything is sent, and
    when that fails nothing is sent: the first event of every run is the call
    of [saveNotification] with the formatted title, body and event type and
    the webhook as text, and what follows are the events of one run of
    [sendPushToAll] with the payload made of the message.  A run that
    resolves answers [{success: true, sent, failed}], whatever the push
    services said, and the two counters add up to the number of active
    subscribers. *)
Theorem handleRequest_webhook req env db webhook run :
  Worker.pathname req = "/webhook" -> Worker.method req = "POST" ->
  Worker.received R req = Ok webhook ->
  Worker.handleRequest R req env db run ->
  exists tr,
    fst run = Worker.history R webhook (Format.formatArrMessage webhook)
              :: map Worker.Delivery tr
    /\ match Worker.d1_save_notification R
               (FormattedMessage.title (Format.formatArrMessage webhook))
               (FormattedMessage.body (Format.formatArrMessage webhook))
               (Worker.JSON_stringify R webhook)
               (FormattedMessage.eventType (Format.formatArrMessage webhook)) with
       | Throw e => tr = [] /\ snd run = Throw e
       | Ok _ =>
           exists result,
             Push.sendPushToAll (Worker.push R) db
               (Worker.payload R (Worker.pushPayload (Format.formatArrMessage webhook)))
               env (tr, result)
             /\ match result with
                | Throw e => tr = [] /\ snd run = Throw e
                | Ok counts =>
                    snd run
                    = Ok (Worker.json_response
                            (Worker.JObject
                               [("success", Worker.JBool true);
                                ("sent", Worker.JNumber (sent counts));
                                ("failed", Worker.JNumber (failed counts))]))
                    /\ 0 <= sent counts /\ 0 <= failed counts
                    /\ sent counts + failed counts
                       = Z.of_nat (length (Db.getActiveSubscriptions db))
                end
       end.
Proof.
  intros Hp Hm Hrec. rewrite route_webhook by done.
  unfold Worker.handleWebhook. rewrite Hrec.
  unfold Worker.emit, Worker.call. cbn [mbind Worker.Task_bind app].
  destruct (Worker.d1_save_notification R _ _ _ _) as [[]|e].
  - intros ([tr result] & Hsend & ->). cbn [fst snd]. exists tr. split; [done|].
    exists result. split; [done|]. destruct result as [counts|e]; cbn.
    + split; [done|]. exact (sendPushToAll_counts _ _ _ _ _ Hsend).
    + split; [|done]. by apply sendPushToAll_rejects in Hsend.
  - intros ->. by exists [].
Qed.

(** X23. For the paths of the page and of what it loads, the current worker
    looks at the method and the legacy worker does not: a request that is
    not a GET is answered 404 by the one, and by the other as any request
    to the path is, never with 404. *)
Theorem asset_routes_method req env db :
  Worker.pathname req ∈ asset_paths -> Worker.method req <> "GET" ->
  (forall run, Worker.handleRequest R req env db run <-> run = ([], Ok Worker.notFound))
  /\ (forall req' run,
        Worker.pathname req' = Worker.pathname req ->
        Worker.legacy_fetch R req env db run <-> Worker.legacy_fetch R req' env db run)
  /\ (forall run response,
        Worker.legacy_fetch R req env db run -> snd run = Ok response ->
        Worker.status response <> 404).
Proof.
  intros Hpath Hmethod.
  assert (Hget : String.eqb (Worker.method req) "GET" = false)
    by (by apply String.eqb_neq).
  unfold asset_paths in Hpath. rewrite !elem_of_cons, elem_of_nil in Hpath.
  split; [|split].
  - intros run. unfold Worker.handleRequest.
    destruct Hpath as [Hp|[Hp|[Hp|[Hp|[Hp|[Hp|[]]]]]]]; rewrite Hp, Hget;
      cbn -[String.eqb]; (destruct (String.eqb (Worker.method req) "POST"); done).
  - intros req' run Hsame. unfold Worker.legacy_fetch, Worker.legacy_routes.
    rewrite Hsame.
    destruct Hpath as [Hp|[Hp|[Hp|[Hp|[Hp|[Hp|[]]]]]]]; rewrite Hp;
      cbn -[String.eqb]; done.
  - intros run response.
    unfold Worker.legacy_fetch, Worker.legacy_routes, Worker.try_await.
    destruct Hpath as [Hp|[Hp|[Hp|[Hp|[Hp|[Hp|[]]]]]]]; rewrite Hp;
      cbn -[String.eqb Frontend.getFrontendHtml];
      intros (r & -> & ->);
      try (unfold Worker.handleFrontend, Worker.call;
           destruct (Frontend.getFrontendHtml _ _ _); cbn);
      by intros [= <-].
Qed.


End WorkerFacts.

(** ** The legacy worker and the current one *)

Section Upgrade.
Context (R : Worker.Runtime).

(** The two formatters on an event type the legacy one has a case for. *)
Lemma formatArrMessage_legacy_known JSON_stringify webhook :
  ArrWebhookPayload.eventType webhook ∈ legacy_event_types ->
  LegacyFormat.formatArrMessage JSON_stringify webhook = Format.formatArrMessage webhook.
Proof.
  intros Hin. unfold legacy_event_types in Hin.
  unfold LegacyFormat.formatArrMessage, Format.formatArrMessage.
  repeat (apply elem_of_cons in Hin as [->|Hin]; [reflexivity|]).
  by apply elem_of_nil in Hin.
Qed.

Lemma route_webhook_legacy req env db :
  Worker.pathname req = "/webhook" -> Worker.method req = "POST" ->
  Worker.legacy_routes R req env db
  = Worker.handleWebhook R (LegacyFormat.formatArrMessage (Worker.JSON_stringify R))
      (fun db payload env sent_run =>
         sent_run = Push.Legacy.sendPushToAll (Worker.push R) db payload env)
      req env db.
Proof. intros Hp Hm. unfold Worker.legacy_routes. rewrite Hp, Hm. reflexivity. Qed.

(** What a run of the current [sendPushToAll] and the legacy function's run
    have in common. *)
Lemma sendPushToAll_legacy_run db payload env run :
  Push.sendPushToAll (Worker.push R) db payload env run ->
  snd run = snd (Push.Legacy.sendPushToAll (Worker.push R) db payload env)
  /\ fst run ≡ₚ fst (Push.Legacy.sendPushToAll (Worker.push R) db payload env).
Proof.
  rewrite sendPushToAll_legacy_in_order.
  unfold Push.sendPushToAll, Push.sendPushToAll_in_order.
  destruct (Push.JSON_stringify (Worker.push R) payload) as [payloadString|e].
  - intros [Htr Hres]. split; [done|]. by apply interleaving_Permutation.
  - by intros ->.
Qed.

(** X25. For a webhook of an event type the legacy formatter has a case for, the
    legacy worker does what the current one does: it resolves with the
    response of every run of the current worker that resolves, after the
    same call of [saveNotification] and the same deliveries in some order;
    where the current worker rejects, it logs the error and answers 500. *)
Theorem webhook_legacy_agrees req env db webhook run :
  Worker.pathname req = "/webhook" -> Worker.method req = "POST" ->
  Worker.received R req = Ok webhook ->
  ArrWebhookPayload.eventType webhook ∈ legacy_event_types ->
  Worker.handleRequest R req env db run ->
  exists legacy_run,
    Worker.legacy_fetch R req env db legacy_run
    /\ match snd run with
       | Ok response => snd legacy_run = Ok response /\ fst legacy_run ≡ₚ fst run
       | Throw e =>
           snd legacy_run = snd (Worker.rescue e)
           /\ fst legacy_run ≡ₚ fst run ++ [Worker.WorkerError e]
       end.
Proof.
  intros Hp Hm Hrec Hknown. rewrite route_webhook by done.
  unfold Worker.legacy_fetch, Worker.try_await. rewrite route_webhook_legacy by done.
  unfold Worker.handleWebhook. rewrite Hrec.
  rewrite formatArrMessage_legacy_known by done.
  unfold Worker.emit, Worker.call. cbn [mbind Worker.Task_bind app].
  destruct (Worker.d1_save_notification R _ _ _ _) as [[]|e].
  - intros (sent_run & Hsend & ->).
    apply sendPushToAll_legacy_run in Hsend as [Hres Htr].
    eexists. split.
    + eexists. split; [eexists; split; [reflexivity|reflexivity]|reflexivity].
    + cbn [fst snd]. rewrite Hres.
      destruct (Push.Legacy.sendPushToAll _ _ _ _) as [tr' [counts|e]];
        cbn [fst snd fmap result_fmap] in *.
      * split; [done|]. constructor. by rewrite Htr.
      * split; [done|]. cbn. constructor. by rewrite Htr.
  - intros ->. eexists. split.
    + eexists. split; [reflexivity|reflexivity].
    + cbn. done.
Qed.

End Upgrade.

(** ** The worker: closed examples *)

Lemma handleRequest_never_rescues_witness :
  Worker.handleRequest Site.runtime Site.cut_off Demo.env Demo.db
    ([], Throw (Site.SyntaxError "Unexpected end of JSON input"))
  /\ unrescued ([], Throw (Site.SyntaxError "Unexpected end of JSON input")).
Proof.
  assert (H : Worker.handleRequest Site.runtime Site.cut_off Demo.env Demo.db
                ([], Throw (Site.SyntaxError "Unexpected end of JSON input")))
    by reflexivity.
  split; [exact H|].
  exact (handleRequest_never_rescues Site.runtime Site.cut_off Demo.env Demo.db _ H).
Defined.

Lemma legacy_fetch_always_answers_witness :
  Worker.legacy_fetch Site.runtime Site.cut_off Demo.env Demo.db
    (Worker.rescue (Site.SyntaxError "Unexpected end of JSON input"))
  /\ exists response,
       snd (Worker.rescue (Site.SyntaxError "Unexpected end of JSON input")) = Ok response
       /\ Worker.status response = 500.
Proof.
  assert (H : Worker.legacy_fetch Site.runtime Site.cut_off Demo.env Demo.db
                (Worker.rescue (Site.SyntaxError "Unexpected end of JSON input"))).
  { exists ([], Throw (Site.SyntaxError "Unexpected end of JSON input")).
    split; reflexivity. }
  split; [exact H|].
  destruct (legacy_fetch_always_answers Site.runtime Site.cut_off Demo.env Demo.db _ H)
    as (response & Hres & Hcase).
  exists response. split; [exact Hres|].
  injection Hres as <-. reflexivity.
Defined.

Lemma handleRequest_webhook_witness :
  Worker.pathname Site.manual_interaction = "/webhook"
  /\ Worker.method Site.manual_interaction = "POST"
  /\ Worker.received Site.runtime Site.manual_interaction
     = Ok (Site.bare "ManualInteractionRequired")
  /\ Worker.handleRequest Site.runtime Site.manual_interaction Demo.env Demo.db
       (Worker.SaveNotification "Manual Interaction Required" "Notification received"
          "ManualInteractionRequired" "ManualInteractionRequired"
        :: map Worker.Delivery
             (fst (Push.sendPushToAll_in_order Demo.runtime Demo.db
                     "Manual Interaction Required: Notification received" Demo.env)),
        Ok (Worker.json_response
              (Worker.JObject [("success", Worker.JBool true);
                               ("sent", Worker.JNumber 3);
                               ("failed", Worker.JNumber 2)])))
  /\ exists tr,
       Worker.SaveNotification "Manual Interaction Required" "Notification received"
         "ManualInteractionRequired" "ManualInteractionRequired"
       :: map Worker.Delivery
            (fst (Push.sendPushToAll_in_order Demo.runtime Demo.db
                    "Manual Interaction Required: Notification received" Demo.env))
       = Worker.SaveNotification "Manual Interaction Required" "Notification received"
           "ManualInteractionRequired" "ManualInteractionRequired"
         :: map Worker.Delivery tr.
Proof.
  assert (Hrun : Worker.handleRequest Site.runtime Site.manual_interaction Demo.env Demo.db
            (Worker.SaveNotification "Manual Interaction Required" "Notification received"
               "ManualInteractionRequired" "ManualInteractionRequired"
             :: map Worker.Delivery
                  (fst (Push.sendPushToAll_in_order Demo.runtime Demo.db
                          "Manual Interaction Required: Notification received" Demo.env)),
             Ok (Worker.json_response
                   (Worker.JObject [("success", Worker.JBool true);
                                    ("sent", Worker.JNumber 3);
                                    ("failed", Worker.JNumber 2)])))).
  { exists (Push.sendPushToAll_in_order Demo.runtime Demo.db
              "Manual Interaction Required: Notification received" Demo.env).
    split; [apply sendPushToAll_in_order_run|].
    vm_compute. reflexivity. }
  split; [reflexivity|]. split; [reflexivity|]. split; [reflexivity|].
  split; [exact Hrun|].
  destruct (handleRequest_webhook Site.runtime Site.manual_interaction Demo.env Demo.db
              (Site.bare "ManualInteractionRequired") _ eq_refl eq_refl eq_refl Hrun)
    as (tr & Hfst & _).
  exists tr. exact Hfst.
Defined.

Lemma asset_routes_method_witness :
  Worker.pathname (Site.request "/sw.js" "POST" (Ok Worker.JNull)) ∈ asset_paths
  /\ Worker.method (Site.request "/sw.js" "POST" (Ok Worker.JNull)) <> "GET"
  /\ Worker.handleRequest Site.runtime (Site.request "/sw.js" "POST" (Ok Worker.JNull))
       Demo.env Demo.db ([], Ok Worker.notFound).
Proof.
  assert (Hpath : Worker.pathname (Site.request "/sw.js" "POST" (Ok Worker.JNull))
                  ∈ asset_paths)
    by (unfold asset_paths; cbn; do 2 right; left).
  assert (Hmethod : Worker.method (Site.request "/sw.js" "POST" (Ok Worker.JNull)) <> "GET")
    by (cbn; discriminate).
  split; [exact Hpath|]. split; [exact Hmethod|].
  apply (proj1 (asset_routes_method Site.runtime _ Demo.env Demo.db Hpath Hmethod)).
  reflexivity.
Defined.


Lemma webhook_legacy_agrees_witness :
  Worker.received Site.runtime Site.connection_test = Ok (Site.bare "Test")
  /\ ArrWebhookPayload.eventType (Site.bare "Test") ∈ legacy_event_types
  /\ Worker.handleRequest Site.runtime Site.connection_test Demo.env Demo.db
       (Worker.SaveNotification "Test Notification"
          "CloudNotifiarr is configured correctly!" "Test" "Test"
        :: map Worker.Delivery
             (fst (Push.sendPushToAll_in_order Demo.runtime Demo.db
                     "Test Notification: CloudNotifiarr is configured correctly!"
                     Demo.env)),
        Ok (Worker.json_response
              (Worker.JObject [("success", Worker.JBool true);
                               ("sent", Worker.JNumber 3);
                               ("failed", Worker.JNumber 2)])))
  /\ exists legacy_run,
       Worker.legacy_fetch Site.runtime Site.connection_test Demo.env Demo.db legacy_run
       /\ snd legacy_run
          = Ok (Worker.json_response
                  (Worker.JObject [("success", Worker.JBool true);
                                   ("sent", Worker.JNumber 3);
                                   ("failed", Worker.JNumber 2)])).
Proof.
  assert (Hknown : ArrWebhookPayload.eventType (Site.bare "Test") ∈ legacy_event_types)
    by (unfold legacy_event_types; cbn; do 9 right; left).
  assert (Hrun : Worker.handleRequest Site.runtime Site.connection_test Demo.env Demo.db
            (Worker.SaveNotification "Test Notification"
               "CloudNotifiarr is configured correctly!" "Test" "Test"
             :: map Worker.Delivery
                  (fst (Push.sendPushToAll_in_order Demo.runtime Demo.db
                          "Test Notification: CloudNotifiarr is configured correctly!"
                          Demo.env)),
             Ok (Worker.json_response
                   (Worker.JObject [("success", Worker.JBool true);
                                    ("sent", Worker.JNumber 3);
                                    ("failed", Worker.JNumber 2)])))).
  { exists (Push.sendPushToAll_in_order Demo.runtime Demo.db
              "Test Notification: CloudNotifiarr is configured correctly!" Demo.env).
    split; [apply sendPushToAll_in_order_run|].
    vm_compute. reflexivity. }
  split; [reflexivity|]. split; [exact Hknown|]. split; [exact Hrun|].
  destruct (webhook_legacy_agrees Site.runtime Site.connection_test Demo.env Demo.db
              (Site.bare "Test") _ eq_refl eq_refl eq_refl Hknown Hrun)
    as (legacy_run & Hlegacy & Hres & _).
  exists legacy_run. split; [exact Hlegacy|exact Hres].
Defined.

(** ** The token read back *)

Local Open Scope nat_scope.

Lemma split_at_none (sep : ascii) (s : string) :
  Forall (fun c => c <> sep) (list_ascii_of_string s) -> split_at sep s = [s].
Proof.
  induction s as [|c s IH]; [done|]. cbn [list_ascii_of_string split_at].
  intros [Hc Hs]%Forall_cons. apply Ascii.eqb_neq in Hc as ->. by rewrite IH.
Qed.

Lemma split_at_append (sep : ascii) (a b : string) :
  Forall (fun c => c <> sep) (list_ascii_of_string a) ->
  split_at sep (String.append a (String sep b)) = a :: split_at sep b.
Proof.
  induction a as [|c a IH]; intros Ha.
  - change (String.append "" (String sep b)) with (String sep b).
    cbn [split_at]. by rewrite Ascii.eqb_refl.
  - rewrite append_cons. cbn [list_ascii_of_string] in Ha.
    apply Forall_cons in Ha as [Hc Ha]. cbn [split_at].
    apply Ascii.eqb_neq in Hc as ->. by rewrite IH.
Qed.

Lemma base64url_alphabet_value (k : nat) :
  k < 64 ->
  base64url_value (to_url (nth k b64_alphabet "="%char)) = Some (Z.of_nat k).
Proof.
  intros Hk.
  do 64 (destruct k as [|k]; [vm_compute; reflexivity|]).
  lia.
Qed.

Lemma base64url_value_char (v : Z) :
  base64url_value (to_url (b64_char v)) = Some (Z.land v 63).
Proof.
  unfold b64_char. rewrite land_63.
  pose proof (mod_64_range v) as Hv.
  rewrite base64url_alphabet_value by lia. f_equal. lia.
Qed.

Lemma base64url_values_chars (vs : list Z) :
  base64url_values (map to_url (map b64_char vs))
  = Some (map (fun v => Z.land v 63) vs).
Proof.
  induction vs as [|v vs IH]; [done|]. cbn [map base64url_values].
  by rewrite base64url_value_char, IH.
Qed.

Lemma list_ind4 {A} (Q : list A -> Prop) :
  Q [] -> (forall a, Q [a]) -> (forall a b, Q [a; b]) -> (forall a b c, Q [a; b; c]) ->
  (forall a b c d l, Q l -> Q (a :: b :: c :: d :: l)) ->
  forall l, Q l.
Proof.
  intros H0 H1 H2 H3 H4 l.
  assert (H : Q l /\ (forall a, Q (a :: l)) /\ (forall a b, Q (a :: b :: l))
              /\ (forall a b c, Q (a :: b :: c :: l))).
  { induction l as [|x l (IH0 & IH1 & IH2 & IH3)]; [by auto|].
    split; [apply IH1|]. split; [intros a; apply IH2|].
    split; [intros a b; apply IH3|]. intros a b c. by apply H4. }
  apply H.
Qed.

Lemma octets_groups (vs : list Z) :
  Forall (fun v => (0 <= v < 64)%Z) vs -> octets vs = b64_decode_groups vs.
Proof.
  induction vs as [|a|a b|a b c|a b c d l IH] using list_ind4; intros Hvs.
  - done.
  - done.
  - apply Forall_cons in Hvs as [Ha Hvs]. apply Forall_cons in Hvs as [Hb _].
    cbn [octets b64_decode_groups].
    rewrite (lor_shiftl_add a (Z.shiftl b 12) 18)
      by (rewrite ?Z.shiftl_mul_pow2 by lia; lia).
    rewrite Z.shiftl_mul_pow2, Z.shiftr_div_pow2 by lia.
    f_equal. f_equal.
    change (2 ^ 18)%Z with 262144%Z. change (2 ^ 12)%Z with 4096%Z.
    change (2 ^ 16)%Z with 65536%Z. Z.div_mod_to_equations. lia.
  - apply Forall_cons in Hvs as [Ha Hvs]. apply Forall_cons in Hvs as [Hb Hvs].
    apply Forall_cons in Hvs as [Hc _].
    cbn [octets b64_decode_groups].
    assert (E : Z.lor (Z.lor (Z.shiftl a 18) (Z.shiftl b 12)) (Z.shiftl c 6)
                = (((a * 64 + b) * 64 + c) * 64)%Z).
    { pose proof (quad_value a b c 0 Ha Hb Hc ltac:(lia)) as Hq.
      rewrite Z.lor_0_r in Hq. rewrite Hq. lia. }
    rewrite E, !Z.shiftr_div_pow2 by lia.
    change (2 ^ 16)%Z with 65536%Z. change (2 ^ 8)%Z with 256%Z.
    f_equal; [|f_equal]; f_equal; Z.div_mod_to_equations; lia.
  - apply Forall_cons in Hvs as [Ha Hvs]. apply Forall_cons in Hvs as [Hb Hvs].
    apply Forall_cons in Hvs as [Hc Hvs]. apply Forall_cons in Hvs as [Hd Hvs].
    cbn [octets b64_decode_groups]. rewrite (IH Hvs).
    rewrite (quad_value a b c d Ha Hb Hc Hd), !Z.shiftr_div_pow2 by lia.
    change (2 ^ 16)%Z with 65536%Z. change (2 ^ 8)%Z with 256%Z.
    replace (((a * 64 + b) * 64 + c) * 64 + d)%Z
      with (a * 262144 + b * 4096 + c * 64 + d)%Z by lia.
    done.
Qed.

(** What [arrayBufferToBase64Url] writes is read back. *)
Lemma base64url_decode_arrayBufferToBase64Url (l : list byte) :
  base64url_decode (arrayBufferToBase64Url l) = Some l.
Proof.
  rewrite arrayBufferToBase64Url_chars. unfold base64url_decode.
  rewrite list_ascii_of_string_of_list_ascii, base64url_values_chars.
  destruct (length_sextets_mod l) as (_ & _ & H3).
  rewrite length_map. apply Nat.eqb_neq in H3 as ->.
  rewrite octets_groups.
  - by rewrite decode_sextets.
  - apply List.Forall_forall. intros v (x & <- & _)%in_map_iff.
    rewrite land_63. apply mod_64_range.
Qed.

Lemma base64UrlEncode_units s encoded :
  base64UrlEncode s = Ok encoded ->
  exists units,
    latin1_units (list_byte_of_string s) = Some units
    /\ encoded = arrayBufferToBase64Url units.
Proof.
  unfold base64UrlEncode, btoa.
  destruct (latin1_units (list_byte_of_string s)) as [units|]; [|done].
  intros [= <-]. by exists units.
Qed.

Lemma arrayBufferToBase64Url_no_dot (l : list byte) :
  Forall (fun c => c <> "."%char) (list_ascii_of_string (arrayBufferToBase64Url l)).
Proof.
  rewrite arrayBufferToBase64Url_chars, list_ascii_of_string_of_list_ascii.
  apply List.Forall_forall. intros c (c' & <- & (v & <- & _)%in_map_iff)%in_map_iff.
  destruct (b64_char_url v) as [Hsafe _]. intros E. rewrite E in Hsafe. done.
Qed.

(** The code units of a text that ends in ASCII. *)
Lemma latin1_units_app (a b u : list byte) :
  Forall (fun x => (Z_of_byte x < 128)%Z) b ->
  latin1_units (a ++ b) = Some u ->
  exists ua, latin1_units a = Some ua /\ u = ua ++ b.
Proof.
  intros Hb.
  assert (H : forall n a u, length a <= n -> latin1_units (a ++ b) = Some u ->
                exists ua, latin1_units a = Some ua /\ u = ua ++ b).
  { clear a u. induction n as [|n IH]; intros a u Hlen.
    - destruct a; [|cbn in Hlen; lia]. cbn [app].
      rewrite (latin1_units_ascii _ Hb). intros [= <-]. by exists [].
    - destruct a as [|x a].
      { cbn [app]. rewrite (latin1_units_ascii _ Hb). intros [= <-]. by exists []. }
      cbn [app latin1_units].
      destruct (Z.ltb_spec (Z_of_byte x) 128).
      + destruct (latin1_units (a ++ b)) as [u'|] eqn:E; [|done].
        cbn. intros [= <-].
        destruct (IH a u' ltac:(cbn in Hlen; lia) E) as (ua & -> & ->).
        by exists (x :: ua).
      + destruct a as [|c a].
        * cbn [app]. destruct b as [|c b']; [done|].
          apply Forall_cons in Hb as [Hc _].
          destruct (Z.leb_spec 128 (Z_of_byte c)); [lia|].
          by rewrite !andb_false_r.
        * cbn [app].
          destruct (_ && _ && _); [|done].
          destruct (latin1_units (a ++ b)) as [u'|] eqn:E; [|done].
          cbn. intros [= <-].
          destruct (IH a u' ltac:(cbn in Hlen; lia) E) as (ua & -> & ->).
          eexists. split; [reflexivity|done]. }
  intros u0. by apply (H (length a)).
Qed.

(** *** Decimal numerals *)

Lemma numeral_snoc (ds : list ascii) (d : ascii) :
  numeral (ds ++ [d]) = (numeral ds * 10 + (Z.of_nat (nat_of_ascii d) - 48))%Z.
Proof. unfold numeral. by rewrite fold_left_app. Qed.

Lemma pretty_N_char_digit (r : N) :
  (r < 10)%N ->
  is_digit (pretty_N_char r) = true
  /\ (Z.of_nat (nat_of_ascii (pretty_N_char r)) - 48)%Z = Z.of_N r.
Proof.
  intros Hr.
  assert (r = 0 \/ r = 1 \/ r = 2 \/ r = 3 \/ r = 4 \/ r = 5
          \/ r = 6 \/ r = 7 \/ r = 8 \/ r = 9)%N as Hcases by lia.
  destruct Hcases as [->|[->|[->|[->|[->|[->|[->|[->|[->| ->]]]]]]]]]; by vm_compute.
Qed.

Lemma pretty_N_go_digits (x : N) (s : string) :
  exists ds,
    list_ascii_of_string (pretty_N_go x s) = ds ++ list_ascii_of_string s
    /\ Forall (fun c => is_digit c = true) ds
    /\ numeral ds = Z.of_N x
    /\ ((0 < x)%N -> ds <> []).
Proof.
  revert s. induction (N.lt_wf_0 x) as [x _ IH]; intros s.
  assert (x = 0 \/ 0 < x)%N as [->|Hx] by lia.
  - rewrite pretty_N_go_0. exists []. repeat split; try done.
  - rewrite pretty_N_go_step by done.
    destruct (IH (x `div` 10)%N ltac:(by apply N.div_lt)
                (String (pretty_N_char (x `mod` 10)) s))
      as (ds & Hds & Hdigits & Hnum & _).
    destruct (pretty_N_char_digit (x `mod` 10)%N) as [Hd Hv];
      [by apply N.mod_lt|].
    exists (ds ++ [pretty_N_char (x `mod` 10)]).
    split; [rewrite Hds; cbn [list_ascii_of_string]; by rewrite <- app_assoc|].
    split; [apply Forall_app; split; [done|by constructor]|].
    split.
    + rewrite numeral_snoc, Hnum, Hv.
      rewrite N2Z.inj_div, N2Z.inj_mod.
      pose proof (Z.div_mod (Z.of_N x) 10 ltac:(lia)). lia.
    + intros _. by destruct ds.
Qed.

Lemma pretty_Z_digits (z : Z) :
  exists ds,
    ds <> []
    /\ Forall (fun c => is_digit c = true) ds
    /\ list_ascii_of_string (pretty z)
       = (if (z <? 0)%Z then ["-"%char] else []) ++ ds
    /\ numeral ds = Z.abs z.
Proof.
  assert (HN : forall p : positive,
            exists ds, ds <> [] /\ Forall (fun c => is_digit c = true) ds
                       /\ list_ascii_of_string (pretty (Npos p)) = ds
                       /\ numeral ds = Zpos p).
  { intros p. unfold pretty, pretty_N. rewrite decide_False by done.
    destruct (pretty_N_go_digits (Npos p) "") as (ds & Hds & Hdigits & Hnum & Hne).
    exists ds. cbn [list_ascii_of_string] in Hds. rewrite app_nil_r in Hds.
    repeat split; try done. by apply Hne. }
  destruct z as [|p|p].
  - exists ["0"%char]. repeat split; try done. by repeat constructor.
  - destruct (HN p) as (ds & ? & ? & Hds & ?). exists ds.
    repeat split; try done.
  - destruct (HN p) as (ds & ? & ? & Hds & ?). exists ds.
    repeat split; try done.
    change (pretty (Z.neg p)) with (String.append "-" (pretty (N.pos p))).
    rewrite list_ascii_of_string_append, Hds. done.
Qed.

Lemma leading_digits_app (ds rest : list ascii) :
  Forall (fun c => is_digit c = true) ds ->
  match rest with c :: _ => is_digit c = false | [] => True end ->
  leading_digits (ds ++ rest) = ds.
Proof.
  intros Hds Hrest. induction Hds as [|d ds Hd _ IH]; cbn [app leading_digits].
  - destruct rest as [|c rest]; [done|]. cbn [leading_digits]. by rewrite Hrest.
  - by rewrite Hd, IH.
Qed.

Lemma map_ascii_of_byte_of_string (s : string) :
  map ascii_of_byte (list_byte_of_string s) = list_ascii_of_string s.
Proof.
  unfold list_byte_of_string. rewrite map_map.
  rewrite (map_ext _ id) by (intros c; apply ascii_of_byte_of_ascii).
  apply map_id.
Qed.

(** The reader finds the number at the end of the text. *)
Lemma exp_claim_text (before : list byte) (n : Z) :
  exp_claim
    (before ++ list_byte_of_string
                 (String.concat "" [JSON_string "exp"; ":"; pretty n; "}"]))
  = Some n.
Proof.
  destruct (pretty_Z_digits n) as (ds & Hne & Hdigits & Hds & Hnum).
  assert (Echars :
            list_ascii_of_string
              (String.concat "" [JSON_string "exp"; ":"; pretty n; "}"])
            = ["034"; "e"; "x"; "p"; "034"; ":"]%char
              ++ (if (n <? 0)%Z then ["-"%char] else []) ++ ds ++ ["}"%char]).
  { change (JSON_string "exp") with (String "034"%char (String.append "exp" dquote)).
    rewrite !concat_cons. cbn [String.concat].
    rewrite !list_ascii_of_string_append.
    cbn [list_ascii_of_string]. rewrite list_ascii_of_string_append, Hds.
    cbn [list_ascii_of_string app]. by rewrite <- !app_assoc. }
  unfold exp_claim.
  rewrite map_app, map_ascii_of_byte_of_string, Echars.
  rewrite !rev_app_distr. cbn [rev app]. rewrite <- !app_assoc. cbn [app].
  assert (Hrev : Forall (fun c => is_digit c = true) (rev ds)).
  { apply List.Forall_forall. intros c Hc%in_rev.
    rewrite List.Forall_forall in Hdigits. by apply Hdigits. }
  assert (Hlen : (length (rev ds) =? 0) = false).
  { apply Nat.eqb_neq. rewrite length_rev. destruct ds; [done|]. cbn. lia. }
  cbv zeta. cbn [Ascii.eqb Bool.eqb negb orb].
  destruct (Z.ltb_spec n 0) as [Hn|Hn]; cbn [rev app];
    rewrite leading_digits_app by done;
    rewrite drop_app_length, Hlen, rev_involutive, Hnum; cbn; f_equal; lia.
Qed.

Lemma JSON_stringify_payload_end (p : JwtPayload) :
  exists before,
    JSON_stringify_payload p
    = String.append before
        (String.concat "" [JSON_string "exp"; ":"; pretty (exp p); "}"]).
Proof.
  exists (String.concat "" ["{"; JSON_string "aud"; ":"; JSON_string (aud p); ",";
                            JSON_string "sub"; ":"; JSON_string (sub p); ","]).
  unfold JSON_stringify_payload. rewrite !concat_cons. cbn [String.concat].
  by rewrite ?append_nil_r, ?append_assoc.
Qed.

Lemma token_parts (h p s : string) :
  Forall (fun c => c <> "."%char) (list_ascii_of_string h) ->
  Forall (fun c => c <> "."%char) (list_ascii_of_string p) ->
  Forall (fun c => c <> "."%char) (list_ascii_of_string s) ->
  split_at "." (String.concat "" [String.concat "" [h; "."; p]; "."; s]) = [h; p; s].
Proof.
  intros Hh Hp Hs. rewrite !concat_cons. cbn [String.concat].
  rewrite ?append_nil_r, ?append_assoc.
  change (String.append "." ?x) with (String "."%char x).
  rewrite split_at_append by done.
  change (String.append "." s) with (String "."%char s).
  rewrite split_at_append by done. by rewrite split_at_none.
Qed.

Section TokenRead.
Context (P : Platform).

(** C7. A token that [createVapidJwt] returns has three parts between its
    two full stops; the second part is base64url text, and the octets it
    stands for are the JSON text of the payload, whose [exp] claim, read
    back from these octets, is the clock reading in whole seconds plus
    86400: never later than the time of issue plus 24 hours. *)
Theorem createVapidJwt_exp audience subject publicKey privateKey w token w' :
  createVapidJwt P audience subject publicKey privateKey w = (Ok token, w') ->
  exists encodedHeader encodedPayload signature (payload : JwtPayload) (body : list byte),
    split_at "." token = [encodedHeader; encodedPayload; signature]
    /\ base64url_decode encodedPayload = Some body
    /\ exp_claim body = Some (Date_now P (clock_reads w) / 1000 + 86400)%Z
    /\ latin1_units (list_byte_of_string (JSON_stringify_payload payload)) = Some body
    /\ token = String.concat ""
                 [String.concat "" [encodedHeader; "."; encodedPayload]; "."; signature]
    /\ base64UrlEncode (JSON_stringify_header {| alg := "ES256"; typ := "JWT" |})
       = Ok encodedHeader
    /\ base64UrlEncode (JSON_stringify_payload payload) = Ok encodedPayload
    /\ aud payload = audience
    /\ sub payload = finalSubject subject
    /\ exp payload = (Date_now P (clock_reads w) / 1000 + 86400)%Z
    /\ (exp payload * 1000 <= Date_now P (clock_reads w) + 24 * 60 * 60 * 1000)%Z.
Proof.
  unfold createVapidJwt. intros H.
  apply M_bind_Ok in H as (now_ms & w1 & Hnow & H).
  unfold now in Hnow. injection Hnow as <- <-.
  apply M_bind_Ok in H as (eh & ? & H1 & H). apply lift_Ok in H1 as [Hh ->].
  apply M_bind_Ok in H as (ep & ? & H1 & H). apply lift_Ok in H1 as [Hp ->].
  apply M_bind_Ok in H as (sg & ? & H1 & H). injection H as <- <-.
  destruct (base64UrlEncode_units _ _ Hh) as (hunits & _ & Eh).
  destruct (base64UrlEncode_units _ _ Hp) as (body & Hbody & Ep).
  exists eh, ep, (arrayBufferToBase64Url sg),
    (vapidPayload audience subject (Date_now P (clock_reads w))), body.
  split.
  { rewrite Eh, Ep. apply token_parts; apply arrayBufferToBase64Url_no_dot. }
  split; [rewrite Ep; apply base64url_decode_arrayBufferToBase64Url|].
  split.
  { destruct (JSON_stringify_payload_end
                (vapidPayload audience subject (Date_now P (clock_reads w))))
      as (before & Etext).
    rewrite Etext, list_byte_of_string_append in Hbody.
    assert (Hascii : ascii_only
              (String.concat ""
                 [JSON_string "exp"; ":";
                  pretty (exp (vapidPayload audience subject
                                 (Date_now P (clock_reads w))));
                  "}"])).
    { apply ascii_only_concat; [by apply ascii_only_literal|].
      repeat constructor;
        first [by apply ascii_only_literal | apply ascii_only_pretty]. }
    apply latin1_units_app in Hbody as (ua & _ & ->); [|exact Hascii].
    apply exp_claim_text. }
  repeat split; try done.
  cbn [exp vapidPayload].
  pose proof (Z.mul_div_le (Date_now P (clock_reads w)) 1000 ltac:(lia)). lia.
Qed.
End TokenRead.

Lemma createVapidJwt_exp_witness :
  createVapidJwt Fake.platform "https://push.example.net" "user@example.com"
    "BPublicKey" [x01; x02; x03] world0
  = (Ok example_token,
     {| keygen_calls := 0; random_calls := 0; clock_reads := 1; sign_calls := 1 |})
  /\ exists encodedHeader encodedPayload signature body,
      split_at "." example_token = [encodedHeader; encodedPayload; signature]
      /\ base64url_decode encodedPayload = Some body
      /\ exp_claim body = Some 1700086400%Z.
Proof.
  assert (H : createVapidJwt Fake.platform "https://push.example.net" "user@example.com"
                "BPublicKey" [x01; x02; x03] world0
              = (Ok example_token,
                 {| keygen_calls := 0; random_calls := 0; clock_reads := 1;
                    sign_calls := 1 |})) by (vm_compute; reflexivity).
  split; [exact H|].
  destruct (createVapidJwt_exp Fake.platform _ _ _ _ _ _ _ H)
    as (eh & ep & sg & payload & body & Hsplit & Hdecode & Hexp & _).
  exists eh, ep, sg, body. split; [exact Hsplit|]. split; [exact Hdecode|exact Hexp].
Defined.

Example example_token_read :
  match split_at "." example_token with
  | [_; p; _] => match base64url_decode p with Some body => exp_claim body | None => None end
  | _ => None
  end = Some 1700086400%Z.
Proof. vm_compute. reflexivity. Qed.
